(** * Nachos thread core: scheduler and thread life cycle

    A shallow embedding of
      - [Assignment-1/nachos/code/threads/scheduler.cc] (class [NachOSscheduler]),
      - [Assignment-2/nachos/code/threads/thread.cc] (class [NachOSThread]),
    and the properties of the kernel's thread core proved over it.

    Conventions of the embedding.
      - The constructor stores [threadArray[pid] = this]: a [NachOSThread *] is
        represented by the pid of the object it points to, [NULL] by [None].
      - Global and member variables are fields of the records [Kernel] and
        [NachOSThread]; every C++ function is a function on [Kernel] that
        returns an [Outcome].
      - [unsigned] values are kept in [0, 2^32) by [wrap32], [int] values in
        [-2^31, 2^31) by [int32].
      - [printf]/[DEBUG] output, the user address space hooks under
        [#ifdef USER_PROGRAM] and the aggregate counters of [stats] written by
        [Exit] are output only and are not part of the state.
      - The values of [burstPredict] and [stats->EstimationError], whose
        types are declared outside thread.cc, are kept as rationals; the
        macro [SJP_RATIO] and the conversions to the two types are the
        parameters [PredictionArith].
      - Of the saved registers [machineState] only [machineState[PCState]]
        is kept: where the thread continues when it is switched to. *)

From stdpp Require Import gmap list sorting.
From Stdlib Require Import ZArith QArith Qabs Lia.

Local Open Scope Z_scope.

(** ** Machine integers *)

Definition wrap32 (z : Z) : Z := z mod 2 ^ 32.

Definition int32 (z : Z) : Z := (z + 2 ^ 31) mod 2 ^ 32 - 2 ^ 31.

(** ** Outcomes of kernel code *)

Inductive failure : Type :=
| AssertionFailed
| NullPointer
| DanglingPointer
| DivisionByZero.

(** [Halted] is [interrupt->Halt()]; [OutOfFuel] only bounds the unrolling of
    a loop of the source and is never the behaviour of the program. *)
Inductive Outcome (A : Type) : Type :=
| Ok (a : A)
| Abort (why : failure)
| Halted
| OutOfFuel.

Arguments Ok {A} a.
Arguments Abort {A} why.
Arguments Halted {A}.
Arguments OutOfFuel {A}.

#[global] Instance Outcome_bind : MBind Outcome := λ A B f m,
  match m with
  | Ok a => f a
  | Abort why => Abort why
  | Halted => Halted
  | OutOfFuel => OutOfFuel
  end.

#[global] Instance Outcome_ret : MRet Outcome := λ A a, Ok a.

Definition ASSERT (b : bool) : Outcome unit :=
  if b then Ok tt else Abort AssertionFailed.

(** ** Data model *)

Inductive ThreadStatus : Type := JUST_CREATED | RUNNING | READY | BLOCKED.

#[global] Instance ThreadStatus_eq_dec : EqDecision ThreadStatus.
Proof. solve_decision. Defined.

Inductive IntStatus : Type := IntOff | IntOn.

#[global] Instance IntStatus_eq_dec : EqDecision IntStatus.
Proof. solve_decision. Defined.

Definition STACK_FENCEPOST : Z := 0xdeadbeef.

(** The two code addresses that [machineState[PCState]] of a thread holds
    when the thread is switched to: [_ThreadRoot], which
    [AllocateThreadStack] stores there, and the return address of the call
    of [_SWITCH] inside [NachOSscheduler::Schedule], which [_SWITCH] stores
    there when it switches the thread out. *)
Inductive CodeAddress : Type := ThreadRoot | AfterSWITCH.

#[global] Instance CodeAddress_eq_dec : EqDecision CodeAddress.
Proof. solve_decision. Defined.

(** The members of [NachOSThread] that thread.cc reads or writes.  [stack] is
    [None] for [stack == NULL] and otherwise holds the word at the fencepost
    position, the only stack cell the code inspects.  Arrays are total
    functions of the index: their bounds ([MAX_CHILD_COUNT]) are declared in
    thread.h and no access of thread.cc is checked against them.  [PCState]
    is [machineState[PCState]]; the constructor leaves it uninitialised, and
    it means something only for a thread that has been forked or switched
    out, as every thread that the code switches to has been. *)
Record NachOSThread : Type := mkThread {
  status : ThreadStatus;
  stack : option Z;
  ppid : Z;
  childcount : Z;
  childpidArray : Z → Z;
  childexitcode : Z → Z;
  exitedChild : Z → bool;
  waitchild_id : Z;
  startTime : Z;
  prevstartTime : Z;
  totalCPUburst : Z;
  maxCPUburst : Z;
  minCPUburst : Z;
  numCPUburst : Z;
  sleepTime : Z;
  sleepstartTime : Z;
  PCState : CodeAddress
}.

(** What a pointer stored in [threadArray] points at: a live object, or the
    storage of an object that [delete] has released. *)
Inductive object : Type :=
| Live (t : NachOSThread)
| Freed.

(** An entry of the time-sorted wait queue: the sleeping thread and its wake
    up deadline. *)
Definition TimeSortedWaitQueue : Type := (Z * Z)%type.

Definition GetThread (e : TimeSortedWaitQueue) : Z := e.1.
Definition GetWhen (e : TimeSortedWaitQueue) : Z := e.2.

Record Kernel : Type := mkKernel {
  threadArray : gmap Z object;
  currentThread : option Z;
  threadToBeDestroyed : option Z;
  readyThreadList : list Z;
  sleepingThreadList : list Z;
  sleepQueueHead : list TimeSortedWaitQueue;
  intLevel : IntStatus;
  totalTicks : Z;
  schedAlgo : Z;
  exitThreadArray : Z → bool;
  prevBurst : Z → Z;
  threadCpuCount : Z → Z;
  threadPriority : Z → Z;
  threadBasePriority : Z → Z;
  burstPredict : Z → Q;
  EstimationError : Q
}.

(** *** Field updates *)

Definition setStatus (s : ThreadStatus) (t : NachOSThread) : NachOSThread :=
  mkThread s (stack t) (ppid t) (childcount t) (childpidArray t)
    (childexitcode t) (exitedChild t) (waitchild_id t) (startTime t)
    (prevstartTime t) (totalCPUburst t) (maxCPUburst t) (minCPUburst t)
    (numCPUburst t) (sleepTime t) (sleepstartTime t)
    (PCState t).

Definition set_waitchild_id (w : Z) (t : NachOSThread) : NachOSThread :=
  mkThread (status t) (stack t) (ppid t) (childcount t) (childpidArray t)
    (childexitcode t) (exitedChild t) w (startTime t)
    (prevstartTime t) (totalCPUburst t) (maxCPUburst t) (minCPUburst t)
    (numCPUburst t) (sleepTime t) (sleepstartTime t)
    (PCState t).

Definition set_childexitcode (f : Z → Z) (t : NachOSThread) : NachOSThread :=
  mkThread (status t) (stack t) (ppid t) (childcount t) (childpidArray t)
    f (exitedChild t) (waitchild_id t) (startTime t)
    (prevstartTime t) (totalCPUburst t) (maxCPUburst t) (minCPUburst t)
    (numCPUburst t) (sleepTime t) (sleepstartTime t)
    (PCState t).

Definition set_exitedChild (f : Z → bool) (t : NachOSThread) : NachOSThread :=
  mkThread (status t) (stack t) (ppid t) (childcount t) (childpidArray t)
    (childexitcode t) f (waitchild_id t) (startTime t)
    (prevstartTime t) (totalCPUburst t) (maxCPUburst t) (minCPUburst t)
    (numCPUburst t) (sleepTime t) (sleepstartTime t)
    (PCState t).

Definition set_totalCPUburst (v : Z) (t : NachOSThread) : NachOSThread :=
  mkThread (status t) (stack t) (ppid t) (childcount t) (childpidArray t)
    (childexitcode t) (exitedChild t) (waitchild_id t) (startTime t)
    (prevstartTime t) v (maxCPUburst t) (minCPUburst t)
    (numCPUburst t) (sleepTime t) (sleepstartTime t)
    (PCState t).

Definition set_maxCPUburst (v : Z) (t : NachOSThread) : NachOSThread :=
  mkThread (status t) (stack t) (ppid t) (childcount t) (childpidArray t)
    (childexitcode t) (exitedChild t) (waitchild_id t) (startTime t)
    (prevstartTime t) (totalCPUburst t) v (minCPUburst t)
    (numCPUburst t) (sleepTime t) (sleepstartTime t)
    (PCState t).

Definition set_minCPUburst (v : Z) (t : NachOSThread) : NachOSThread :=
  mkThread (status t) (stack t) (ppid t) (childcount t) (childpidArray t)
    (childexitcode t) (exitedChild t) (waitchild_id t) (startTime t)
    (prevstartTime t) (totalCPUburst t) (maxCPUburst t) v
    (numCPUburst t) (sleepTime t) (sleepstartTime t)
    (PCState t).

Definition set_numCPUburst (v : Z) (t : NachOSThread) : NachOSThread :=
  mkThread (status t) (stack t) (ppid t) (childcount t) (childpidArray t)
    (childexitcode t) (exitedChild t) (waitchild_id t) (startTime t)
    (prevstartTime t) (totalCPUburst t) (maxCPUburst t) (minCPUburst t)
    v (sleepTime t) (sleepstartTime t)
    (PCState t).

Definition set_sleepstartTime (v : Z) (t : NachOSThread) : NachOSThread :=
  mkThread (status t) (stack t) (ppid t) (childcount t) (childpidArray t)
    (childexitcode t) (exitedChild t) (waitchild_id t) (startTime t)
    (prevstartTime t) (totalCPUburst t) (maxCPUburst t) (minCPUburst t)
    (numCPUburst t) (sleepTime t) v
    (PCState t).

Definition set_PCState (a : CodeAddress) (t : NachOSThread) : NachOSThread :=
  mkThread (status t) (stack t) (ppid t) (childcount t) (childpidArray t)
    (childexitcode t) (exitedChild t) (waitchild_id t) (startTime t)
    (prevstartTime t) (totalCPUburst t) (maxCPUburst t) (minCPUburst t)
    (numCPUburst t) (sleepTime t) (sleepstartTime t) a.

Definition set_threadArray (m : gmap Z object) (K : Kernel) : Kernel :=
  mkKernel m (currentThread K) (threadToBeDestroyed K) (readyThreadList K)
    (sleepingThreadList K) (sleepQueueHead K) (intLevel K) (totalTicks K)
    (schedAlgo K) (exitThreadArray K) (prevBurst K) (threadCpuCount K)
    (threadPriority K) (threadBasePriority K)
    (burstPredict K) (EstimationError K).

Definition set_currentThread (c : option Z) (K : Kernel) : Kernel :=
  mkKernel (threadArray K) c (threadToBeDestroyed K) (readyThreadList K)
    (sleepingThreadList K) (sleepQueueHead K) (intLevel K) (totalTicks K)
    (schedAlgo K) (exitThreadArray K) (prevBurst K) (threadCpuCount K)
    (threadPriority K) (threadBasePriority K)
    (burstPredict K) (EstimationError K).

Definition set_threadToBeDestroyed (d : option Z) (K : Kernel) : Kernel :=
  mkKernel (threadArray K) (currentThread K) d (readyThreadList K)
    (sleepingThreadList K) (sleepQueueHead K) (intLevel K) (totalTicks K)
    (schedAlgo K) (exitThreadArray K) (prevBurst K) (threadCpuCount K)
    (threadPriority K) (threadBasePriority K)
    (burstPredict K) (EstimationError K).

Definition set_readyThreadList (l : list Z) (K : Kernel) : Kernel :=
  mkKernel (threadArray K) (currentThread K) (threadToBeDestroyed K) l
    (sleepingThreadList K) (sleepQueueHead K) (intLevel K) (totalTicks K)
    (schedAlgo K) (exitThreadArray K) (prevBurst K) (threadCpuCount K)
    (threadPriority K) (threadBasePriority K)
    (burstPredict K) (EstimationError K).

Definition set_sleepingThreadList (l : list Z) (K : Kernel) : Kernel :=
  mkKernel (threadArray K) (currentThread K) (threadToBeDestroyed K)
    (readyThreadList K) l (sleepQueueHead K) (intLevel K) (totalTicks K)
    (schedAlgo K) (exitThreadArray K) (prevBurst K) (threadCpuCount K)
    (threadPriority K) (threadBasePriority K)
    (burstPredict K) (EstimationError K).

Definition set_sleepQueueHead (q : list TimeSortedWaitQueue) (K : Kernel) : Kernel :=
  mkKernel (threadArray K) (currentThread K) (threadToBeDestroyed K)
    (readyThreadList K) (sleepingThreadList K) q (intLevel K) (totalTicks K)
    (schedAlgo K) (exitThreadArray K) (prevBurst K) (threadCpuCount K)
    (threadPriority K) (threadBasePriority K)
    (burstPredict K) (EstimationError K).

Definition set_intLevel (l : IntStatus) (K : Kernel) : Kernel :=
  mkKernel (threadArray K) (currentThread K) (threadToBeDestroyed K)
    (readyThreadList K) (sleepingThreadList K) (sleepQueueHead K) l (totalTicks K)
    (schedAlgo K) (exitThreadArray K) (prevBurst K) (threadCpuCount K)
    (threadPriority K) (threadBasePriority K)
    (burstPredict K) (EstimationError K).

Definition set_prevBurst (f : Z → Z) (K : Kernel) : Kernel :=
  mkKernel (threadArray K) (currentThread K) (threadToBeDestroyed K)
    (readyThreadList K) (sleepingThreadList K) (sleepQueueHead K) (intLevel K)
    (totalTicks K) (schedAlgo K) (exitThreadArray K) f (threadCpuCount K)
    (threadPriority K) (threadBasePriority K)
    (burstPredict K) (EstimationError K).

Definition set_threadCpuCount (f : Z → Z) (K : Kernel) : Kernel :=
  mkKernel (threadArray K) (currentThread K) (threadToBeDestroyed K)
    (readyThreadList K) (sleepingThreadList K) (sleepQueueHead K) (intLevel K)
    (totalTicks K) (schedAlgo K) (exitThreadArray K) (prevBurst K) f
    (threadPriority K) (threadBasePriority K)
    (burstPredict K) (EstimationError K).

Definition set_threadPriority (f : Z → Z) (K : Kernel) : Kernel :=
  mkKernel (threadArray K) (currentThread K) (threadToBeDestroyed K)
    (readyThreadList K) (sleepingThreadList K) (sleepQueueHead K) (intLevel K)
    (totalTicks K) (schedAlgo K) (exitThreadArray K) (prevBurst K)
    (threadCpuCount K) f (threadBasePriority K)
    (burstPredict K) (EstimationError K).

Definition set_burstPredict (f : Z → Q) (K : Kernel) : Kernel :=
  mkKernel (threadArray K) (currentThread K) (threadToBeDestroyed K)
    (readyThreadList K) (sleepingThreadList K) (sleepQueueHead K) (intLevel K)
    (totalTicks K) (schedAlgo K) (exitThreadArray K) (prevBurst K)
    (threadCpuCount K) (threadPriority K) (threadBasePriority K)
    f (EstimationError K).

Definition set_EstimationError (e : Q) (K : Kernel) : Kernel :=
  mkKernel (threadArray K) (currentThread K) (threadToBeDestroyed K)
    (readyThreadList K) (sleepingThreadList K) (sleepQueueHead K) (intLevel K)
    (totalTicks K) (schedAlgo K) (exitThreadArray K) (prevBurst K)
    (threadCpuCount K) (threadPriority K) (threadBasePriority K)
    (burstPredict K) e.

(** [a[i] = v]. *)
Definition store {A : Type} (i : Z) (v : A) (a : Z → A) : Z → A :=
  λ j, if decide (j = i) then v else a j.

(** *** Pointers *)

(** [p->...] on a thread pointer: [NULL] and released storage cannot be
    dereferenced. *)
Definition deref (K : Kernel) (p : option Z) : Outcome NachOSThread :=
  match p with
  | None => Abort NullPointer
  | Some pid =>
      match threadArray K !! pid with
      | Some (Live t) => Ok t
      | _ => Abort DanglingPointer
      end
  end.

(** [*p = t] for the object that pid [p] names. *)
Definition assign (p : Z) (t : NachOSThread) (K : Kernel) : Kernel :=
  set_threadArray (<[p := Live t]> (threadArray K)) K.

(** [p->getPID()]. *)
Definition getPID (p : option Z) : Outcome Z :=
  match p with
  | None => Abort NullPointer
  | Some pid => Ok pid
  end.

(** ** The [List] class as scheduler.cc uses it

    [List::Remove] takes the first item off the list and returns it, or
    returns [NULL] when the list is empty ("If there are no ready threads,
    return NULL", [FindNextThreadToRun]); [List::Append] adds at the end. *)

Definition List_Remove (l : list Z) : option Z * list Z :=
  match l with
  | [] => (None, [])
  | x :: r => (Some x, r)
  end.

Definition List_Append (x : Z) (l : list Z) : list Z := l ++ [x].

Definition List_IsEmpty (l : list Z) : bool :=
  match l with [] => true | _ => false end.

(** ** scheduler.cc *)

(** [NachOSscheduler::ThreadIsReadyToRun]. *)
Definition ThreadIsReadyToRun (thread : Z) (K : Kernel) : Outcome Kernel :=
  t ← deref K (Some thread);
  let K := assign thread (setStatus READY t) K in
  Ok (set_readyThreadList (List_Append thread (readyThreadList K)) K).

(** [NachOSscheduler::FindNextThreadToRun]. *)
Definition FindNextThreadToRun (K : Kernel) : option Z * Kernel :=
  let '(next, l) := List_Remove (readyThreadList K) in
  (next, set_readyThreadList l K).

(** [NachOSscheduler::InsertSleepingThread]. *)
Definition InsertSleepingThread (thread : Z) (K : Kernel) : Kernel :=
  set_sleepingThreadList (List_Append thread (sleepingThreadList K)) K.

(** The [do ... while] loop of [RemoveSleepingThread] on the sleeping list;
    one unit of fuel per iteration. *)
Fixpoint RemoveSleepingThread_loop (fuel : nat) (start thread : Z) (l : list Z)
  : Outcome (option Z * list Z) :=
  match fuel with
  | O => OutOfFuel
  | S fuel =>
      let '(current, l) := List_Remove l in
      match getPID current with
      | Ok cpid =>
          if decide (cpid = thread) then Ok (current, l)
          else
            let l := List_Append cpid l in
            if decide (start ≠ cpid)
            then RemoveSleepingThread_loop fuel start thread l
            else Ok (None, l)
      | Abort why => Abort why
      | Halted => Halted
      | OutOfFuel => OutOfFuel
      end
  end.

(** The body of [RemoveSleepingThread] on the sleeping list. *)
Definition RemoveSleepingThread_list (fuel : nat) (thread : Z) (l : list Z)
  : Outcome (option Z * list Z) :=
  let '(current, l) := List_Remove l in
  let start := current in
  cpid ← getPID current;
  if decide (cpid = thread) then Ok (current, l)
  else
    let l := List_Append cpid l in
    spid ← getPID start;
    RemoveSleepingThread_loop fuel spid thread l.

(** [NachOSscheduler::RemoveSleepingThread]. *)
Definition RemoveSleepingThread (fuel : nat) (thread : Z) (K : Kernel)
  : Outcome (option Z * Kernel) :=
  '(r, l) ← RemoveSleepingThread_list fuel thread (sleepingThreadList K);
  Ok (r, set_sleepingThreadList l K).

(** [NachOSscheduler::IsSleepingListEmpty]. *)
Definition IsSleepingListEmpty (K : Kernel) : bool :=
  List_IsEmpty (sleepingThreadList K).

(** [NachOSThread::CheckOverflow]: the fencepost at the end of the stack,
    when the thread has a stack, must be intact. *)
Definition CheckOverflow (t : NachOSThread) : Outcome unit :=
  match stack t with
  | Some w => ASSERT (bool_decide (w = STACK_FENCEPOST))
  | None => Ok tt
  end.

(** Modelled from the spec: [_SWITCH] (switch.s is not under src/), the
    "opaque, atomic context transfer primitive": it saves the registers of
    the outgoing thread, so that this thread continues behind this call of
    [_SWITCH] when it is switched to again, and "after it returns, the caller
    is logically a different thread's continuation" ([dispatched]). *)
Definition SWITCH (oldThread nextThread : Z) (K : Kernel) : Outcome Kernel :=
  old ← deref K (Some oldThread);
  Ok (assign oldThread (set_PCState AfterSWITCH old) K).

(** The part of [NachOSscheduler::Schedule] that the outgoing thread runs, up
    to and including [_SWITCH(oldThread, nextThread)]. *)
Definition Schedule_switch (nextThread : option Z) (K : Kernel) : Outcome Kernel :=
  let oldThread := currentThread K in
  old ← deref K oldThread;
  _ ← CheckOverflow old;
  let K := set_currentThread nextThread K in
  next ← deref K (currentThread K);
  npid ← getPID (currentThread K);
  let K := assign npid (setStatus RUNNING next) K in
  opid ← getPID oldThread;
  SWITCH opid npid K.

(** [delete p;]: the destructor [NachOSThread::~NachOSThread] asserts
    [this != currentThread], then the storage is released. *)
Definition delete_thread (p : Z) (K : Kernel) : Outcome Kernel :=
  _ ← deref K (Some p);
  _ ← ASSERT (bool_decide (Some p ≠ currentThread K));
  Ok (set_threadArray (<[p := Freed]> (threadArray K)) K).

(** The part of [NachOSscheduler::Schedule] after [_SWITCH] has returned: it
    runs in the context of the thread that was switched to, when that thread
    had been switched out inside [Schedule]. *)
Definition Schedule_tail (K : Kernel) : Outcome Kernel :=
  match threadToBeDestroyed K with
  | Some d =>
      K ← delete_thread d K;
      Ok (set_threadToBeDestroyed None K)
  | None => Ok K
  end.

(** [InterruptEnable], the function that [AllocateThreadStack] stores in
    [machineState[StartupPCState]]: [interrupt->Enable()]. *)
Definition InterruptEnable (K : Kernel) : Kernel := set_intLevel IntOn K.

(** Modelled from the spec: where the thread that [_SWITCH] has switched to
    continues.  A thread that was switched out inside [Schedule] continues
    behind its own call of [_SWITCH], with the rest of [Schedule].  A thread
    that is switched to for the first time begins in [ThreadRoot] (switch.s,
    not under src/), the "fixed trampoline that performs any first-run setup
    (e.g. enabling interrupts)" and then calls the forked procedure: it does
    not run the rest of [Schedule].  What the forked procedure does is not
    part of [Schedule]; [NachOSThread::Startup], for one, calls
    [scheduler->Tail()], a function of a scheduler that is not under src/. *)
Definition dispatched (K : Kernel) : Outcome Kernel :=
  next ← deref K (currentThread K);
  match PCState next with
  | AfterSWITCH => Schedule_tail K
  | ThreadRoot => Ok (InterruptEnable K)
  end.

(** [NachOSscheduler::Schedule], up to the moment the thread switched to has
    taken over the CPU. *)
Definition Schedule (nextThread : option Z) (K : Kernel) : Outcome Kernel :=
  K ← Schedule_switch nextThread K;
  dispatched K.

(** ** thread.cc *)

(** What thread.cc uses of the shortest-job-prediction policy without
    declaring it: the macro [SJP_RATIO], and the element types of
    [burstPredict] and [stats->EstimationError], given by what an assignment
    to them makes of the value of its right-hand side (nothing for a type
    that holds the value as it is, a truncation for [int]).  The comparison
    [burstPredict[pid] > cpuburst] and the arithmetic of the right-hand sides
    themselves are exact. *)
Class PredictionArith : Type := {
  SJP_RATIO : Q;
  to_burstPredict : Q → Q;
  to_EstimationError : Q → Q
}.

Section thread_cc.

Context {arith : PredictionArith}.

(** [MAX_THREAD_COUNT] is a macro of thread.h.  [interrupt_Idle] is
    [Interrupt::Idle] of the machine emulation: it returns after the pending
    interrupt handlers have run ([Some]), or halts the machine when no
    interrupt is pending ([None]). *)
Variable MAX_THREAD_COUNT : nat.
Variable interrupt_Idle : Kernel → option Kernel.

(** The guard of the [for] loop of [UpdateStats] under [schedAlgo >= 7]:
    [!(exitThreadArray[i]) && prevBurst[i] >= 0 && threadBasePriority[i] != 0]. *)
Definition decay_guard (K : Kernel) (i : Z) : bool :=
  negb (exitThreadArray K i) && bool_decide (0 ≤ prevBurst K i)
  && negb (bool_decide (threadBasePriority K i = 0)).

(** One iteration of that loop. *)
Definition decay_step (i : Z) (K : Kernel) : Kernel :=
  if decay_guard K i
  then
    let K := set_threadCpuCount
      (store i (int32 (threadCpuCount K i + prevBurst K i) `quot` 2)
         (threadCpuCount K)) K in
    let K := set_threadPriority
      (store i (int32 (threadBasePriority K i + threadCpuCount K i `quot` 2))
         (threadPriority K)) K in
    set_prevBurst (store i 0 (prevBurst K)) K
  else K.

(** [for (i = 0; i < MAX_THREAD_COUNT; i++)]: [n] iterations are left. *)
Fixpoint decay_loop (n : nat) (i : Z) (K : Kernel) : Kernel :=
  match n with
  | O => K
  | S n => decay_loop n (i + 1) (decay_step i K)
  end.

(** The statistics of a completed burst:
    [numCPUburst++; totalCPUburst += cpuburst;
     if (cpuburst > maxCPUburst) maxCPUburst = cpuburst;
     else if (cpuburst < minCPUburst) minCPUburst = cpuburst;] *)
Definition record_burst (cpuburst : Z) (t : NachOSThread) : NachOSThread :=
  let t := set_numCPUburst (wrap32 (numCPUburst t + 1)) t in
  let t := set_totalCPUburst (wrap32 (totalCPUburst t + cpuburst)) t in
  if decide (maxCPUburst t < cpuburst) then set_maxCPUburst cpuburst t
  else if decide (cpuburst < minCPUburst t) then set_minCPUburst cpuburst t
  else t.

(** [unsigned cpuburst = stats->totalTicks - prevstartTime]. *)
Definition cpuburst_of (K : Kernel) (t : NachOSThread) : Z :=
  wrap32 (totalTicks K - prevstartTime t).

(** First half of [UpdateStats]: [if (cpuburst > 0) { ... }] for the thread
    [this], whose object is [t]. *)
Definition account_burst (this : Z) (t : NachOSThread) (K : Kernel) : Kernel :=
  let cpuburst := cpuburst_of K t in
  if decide (0 < cpuburst) then
    let K := set_prevBurst (store this (int32 cpuburst) (prevBurst K)) K in
    assign this (record_burst cpuburst t) K
  else K.

(** The branch [else if (schedAlgo == 2)] of [UpdateStats], for
    [pid = currentThread->GetPID()]: the estimation error grows by the
    distance between the prediction and [cpuburst], then the prediction is
    averaged with [prevBurst[pid]]. *)
Definition predict_burst (pid cpuburst : Z) (K : Kernel) : Kernel :=
  let K :=
    if Qlt_le_dec (inject_Z cpuburst) (burstPredict K pid)
    then set_EstimationError
           (to_EstimationError
              (EstimationError K + (burstPredict K pid - inject_Z cpuburst))%Q) K
    else set_EstimationError
           (to_EstimationError
              (EstimationError K + (- burstPredict K pid + inject_Z cpuburst))%Q) K in
  set_burstPredict
    (store pid
       (to_burstPredict
          ((1 - SJP_RATIO) * burstPredict K pid
           + SJP_RATIO * inject_Z (prevBurst K pid))%Q)
       (burstPredict K)) K.

(** [NachOSThread::UpdateStats]. *)
Definition UpdateStats (this : Z) (K : Kernel) : Outcome Kernel :=
  _ ← ASSERT (bool_decide (Some this = currentThread K));
  t ← deref K (Some this);
  let cpuburst := cpuburst_of K t in
  let K := account_burst this t K in
  if decide (7 ≤ schedAlgo K) then Ok (decay_loop MAX_THREAD_COUNT 0 K)
  else if decide (schedAlgo K = 2) then
    pid ← getPID (currentThread K);
    Ok (predict_burst pid cpuburst K)
  else Ok K.

(** The search loop shared by [SetChildExitCode] and [CheckIfChild]:
    [for (i = 0; i < childcount; i++) if (childpid == childpidArray[i]) break;]
    with [n] iterations left; the result is the final value of [i]. *)
Fixpoint find_child (n : nat) (i : Z) (childpid : Z) (a : Z → Z) : Z :=
  match n with
  | O => i
  | S n => if decide (childpid = a i) then i else find_child n (i + 1) childpid a
  end.

(** [NachOSThread::CheckIfChild]. *)
Definition CheckIfChild (this childpid : Z) (K : Kernel) : Outcome Z :=
  t ← deref K (Some this);
  let i := find_child (Z.to_nat (childcount t)) 0 childpid (childpidArray t) in
  if decide (i = childcount t) then Ok (-1) else Ok i.

(** [NachOSThread::SetChildExitCode], called on the parent object [this]. *)
Definition SetChildExitCode (this childpid ecode : Z) (K : Kernel) : Outcome Kernel :=
  t ← deref K (Some this);
  let i := find_child (Z.to_nat (childcount t)) 0 childpid (childpidArray t) in
  _ ← ASSERT (bool_decide (i < childcount t));
  let t := set_childexitcode (store i ecode (childexitcode t)) t in
  let t := set_exitedChild (store i true (exitedChild t)) t in
  let K := assign this t K in
  if decide (waitchild_id t = i) then
    let K := assign this (set_waitchild_id (-1) t) K in
    let oldLevel := intLevel K in
    let K := set_intLevel IntOff K in
    K ← ThreadIsReadyToRun this K;
    Ok (set_intLevel oldLevel K)
  else Ok K.

(** [while ((nextThread = scheduler->FindNextThreadToRun()) == NULL)
       interrupt->Idle();] of [PutThreadToSleep]. *)
Fixpoint sleep_wait (fuel : nat) (K : Kernel) : Outcome (option Z * Kernel) :=
  let '(nextThread, K) := FindNextThreadToRun K in
  match nextThread with
  | Some _ => Ok (nextThread, K)
  | None =>
      match fuel with
      | O => OutOfFuel
      | S fuel =>
          match interrupt_Idle K with
          | Some K => sleep_wait fuel K
          | None => Halted
          end
      end
  end.

(** The same loop in [Exit]: [interrupt->Halt()] when [terminateSim]. *)
Fixpoint exit_wait (fuel : nat) (terminateSim : bool) (K : Kernel)
  : Outcome (option Z * Kernel) :=
  let '(nextThread, K) := FindNextThreadToRun K in
  match nextThread with
  | Some _ => Ok (nextThread, K)
  | None =>
      match fuel with
      | O => OutOfFuel
      | S fuel =>
          if terminateSim then Halted
          else
            match interrupt_Idle K with
            | Some K => exit_wait fuel terminateSim K
            | None => Halted
            end
      end
  end.

(** [NachOSThread::PutThreadToSleep], up to the moment the dispatched thread
    has taken over the CPU. *)
Definition PutThreadToSleep (fuel : nat) (this : Z) (K : Kernel) : Outcome Kernel :=
  _ ← ASSERT (bool_decide (Some this = currentThread K));
  _ ← ASSERT (bool_decide (intLevel K = IntOff));
  K ← UpdateStats this K;
  t ← deref K (Some this);
  let K :=
    assign this
      (setStatus BLOCKED (set_sleepstartTime (wrap32 (totalTicks K)) t)) K in
  '(nextThread, K) ← sleep_wait fuel K;
  Schedule nextThread K.

(** [NachOSThread::FinishThread]. *)
Definition FinishThread (fuel : nat) (this : Z) (K : Kernel) : Outcome Kernel :=
  let K := set_intLevel IntOff K in
  _ ← ASSERT (bool_decide (Some this = currentThread K));
  let K := set_threadToBeDestroyed (currentThread K) K in
  PutThreadToSleep fuel this K.

(** The block of [Exit] under the comment "Set exit code in parent's
    structure provided the parent hasn't exited"; [t] is the object of the
    exiting thread [this]. *)
Definition Exit_set_parent_code (this : Z) (t : NachOSThread) (exitcode : Z)
    (K : Kernel) : Outcome Kernel :=
  if decide (ppid t ≠ -1) then
    _ ← ASSERT (bool_decide (is_Some (threadArray K !! ppid t)));
    if negb (exitThreadArray K (ppid t))
    then SetChildExitCode (ppid t) this exitcode K
    else Ok K
  else Ok K.

(** [NachOSThread::Exit].  The summary [printf] divides by
    [stats->totalTicks - startTime] in [unsigned] arithmetic. *)
Definition Exit (fuel : nat) (this : Z) (terminateSim : bool) (exitcode : Z)
    (K : Kernel) : Outcome Kernel :=
  let K := set_intLevel IntOff K in
  _ ← ASSERT (bool_decide (Some this = currentThread K));
  K ← UpdateStats this K;
  t ← deref K (currentThread K);
  _ ← (if decide (wrap32 (totalTicks K - startTime t) = 0)
       then Abort DivisionByZero else Ok tt);
  let K := set_threadToBeDestroyed (currentThread K) K in
  let K := assign this (setStatus BLOCKED t) K in
  K ← Exit_set_parent_code this t exitcode K;
  '(nextThread, K) ← exit_wait fuel terminateSim K;
  Schedule nextThread K.

(** [PutThreadToSleep], [FinishThread] and [Exit] up to and including the
    call of [_SWITCH] in [Schedule]: what the calling thread runs before
    another thread has the CPU. *)
Definition PutThreadToSleep_to_SWITCH (fuel : nat) (this : Z) (K : Kernel)
  : Outcome Kernel :=
  _ ← ASSERT (bool_decide (Some this = currentThread K));
  _ ← ASSERT (bool_decide (intLevel K = IntOff));
  K ← UpdateStats this K;
  t ← deref K (Some this);
  let K :=
    assign this
      (setStatus BLOCKED (set_sleepstartTime (wrap32 (totalTicks K)) t)) K in
  '(nextThread, K) ← sleep_wait fuel K;
  Schedule_switch nextThread K.

Definition FinishThread_to_SWITCH (fuel : nat) (this : Z) (K : Kernel)
  : Outcome Kernel :=
  let K := set_intLevel IntOff K in
  _ ← ASSERT (bool_decide (Some this = currentThread K));
  let K := set_threadToBeDestroyed (currentThread K) K in
  PutThreadToSleep_to_SWITCH fuel this K.

Definition Exit_to_SWITCH (fuel : nat) (this : Z) (terminateSim : bool)
    (exitcode : Z) (K : Kernel) : Outcome Kernel :=
  let K := set_intLevel IntOff K in
  _ ← ASSERT (bool_decide (Some this = currentThread K));
  K ← UpdateStats this K;
  t ← deref K (currentThread K);
  _ ← (if decide (wrap32 (totalTicks K - startTime t) = 0)
       then Abort DivisionByZero else Ok tt);
  let K := set_threadToBeDestroyed (currentThread K) K in
  let K := assign this (setStatus BLOCKED t) K in
  K ← Exit_set_parent_code this t exitcode K;
  '(nextThread, K) ← exit_wait fuel terminateSim K;
  Schedule_switch nextThread K.

(** [NachOSThread::YieldCPU], up to the moment the dispatched thread has taken
    over the CPU.  The statement after [scheduler->Schedule(nextThread)] runs
    when the caller is dispatched again: [YieldCPU_resume]. *)
Definition YieldCPU (this : Z) (K : Kernel) : Outcome Kernel :=
  let K := set_intLevel IntOff K in
  _ ← ASSERT (bool_decide (Some this = currentThread K));
  K ← UpdateStats this K;
  K ← ThreadIsReadyToRun this K;
  let '(nextThread, K) := FindNextThreadToRun K in
  Schedule nextThread K.


(** [NachOSThread::JoinWithChild].  The call either returns at once, or the
    caller is suspended inside [PutThreadToSleep]; what it does when it is
    dispatched again is [JoinWithChild_wake]. *)
Inductive JoinResult : Type :=
| JoinReturned (exitcode : Z) (K : Kernel)
| JoinSuspended (oldLevel : IntStatus) (K : Kernel).

Definition JoinWithChild (fuel : nat) (this whichchild : Z) (K : Kernel)
  : Outcome JoinResult :=
  t ← deref K (Some this);
  if negb (exitedChild t whichchild) then
    let K := assign this (set_waitchild_id whichchild t) K in
    let oldLevel := intLevel K in
    let K := set_intLevel IntOff K in
    K ← PutThreadToSleep fuel this K;
    Ok (JoinSuspended oldLevel K)
  else Ok (JoinReturned (childexitcode t whichchild) K).

Definition JoinWithChild_wake (this whichchild : Z) (oldLevel : IntStatus)
    (K : Kernel) : Outcome (Z * Kernel) :=
  let K := set_intLevel oldLevel K in
  t ← deref K (Some this);
  Ok (childexitcode t whichchild, K).

(** The list walk of [SortedInsertInWaitQueue]:
    [while ((ptr != NULL) && (ptr->GetWhen() <= when))].  [prev] holds the
    nodes up to and including the one [prev] points to ([[]] for [NULL]). *)
Fixpoint wait_queue_walk (when : Z) (prev ptr : list TimeSortedWaitQueue)
  : list TimeSortedWaitQueue * list TimeSortedWaitQueue :=
  match ptr with
  | e :: next =>
      if decide (GetWhen e ≤ when) then wait_queue_walk when (prev ++ [e]) next
      else (prev, ptr)
  | [] => (prev, [])
  end.

(** The queue that [SortedInsertInWaitQueue] leaves in [sleepQueueHead]. *)
Definition wait_queue_insert (this when : Z) (head : list TimeSortedWaitQueue)
  : list TimeSortedWaitQueue :=
  match head with
  | [] => [(this, when)]
  | _ :: _ =>
      let '(prev, ptr) := wait_queue_walk when [] head in
      match ptr, prev with
      | [], _ => prev ++ [(this, when)]
      | _ :: _, [] => (this, when) :: head
      | _ :: _, _ :: _ => prev ++ (this, when) :: ptr
      end
  end.

(** [NachOSThread::SortedInsertInWaitQueue]. *)
Definition SortedInsertInWaitQueue (fuel : nat) (this when : Z) (K : Kernel)
  : Outcome Kernel :=
  let K := set_sleepQueueHead (wait_queue_insert this when (sleepQueueHead K)) K in
  let K := set_intLevel IntOff K in
  t ← deref K (Some this);
  let K := assign this (set_sleepstartTime (wrap32 (totalTicks K)) t) K in
  PutThreadToSleep fuel this K.

End thread_cc.


(** ** More of thread.cc and main.cc *)

Definition set_sleepTime (v : Z) (t : NachOSThread) : NachOSThread :=
  mkThread (status t) (stack t) (ppid t) (childcount t) (childpidArray t)
    (childexitcode t) (exitedChild t) (waitchild_id t) (startTime t)
    (prevstartTime t) (totalCPUburst t) (maxCPUburst t) (minCPUburst t)
    (numCPUburst t) v (sleepstartTime t)
    (PCState t).

Definition set_stack (s : option Z) (t : NachOSThread) : NachOSThread :=
  mkThread (status t) s (ppid t) (childcount t) (childpidArray t)
    (childexitcode t) (exitedChild t) (waitchild_id t) (startTime t)
    (prevstartTime t) (totalCPUburst t) (maxCPUburst t) (minCPUburst t)
    (numCPUburst t) (sleepTime t) (sleepstartTime t)
    (PCState t).

Definition set_exitThreadArray (f : Z → bool) (K : Kernel) : Kernel :=
  mkKernel (threadArray K) (currentThread K) (threadToBeDestroyed K)
    (readyThreadList K) (sleepingThreadList K) (sleepQueueHead K) (intLevel K)
    (totalTicks K) (schedAlgo K) f (prevBurst K) (threadCpuCount K)
    (threadPriority K) (threadBasePriority K)
    (burstPredict K) (EstimationError K).

(** [NachOSThread::Schedule], the method that puts a thread back on the
    ready queue and accounts for the time it slept. *)
Definition NachOSThread_Schedule (this : Z) (K : Kernel) : Outcome Kernel :=
  let oldLevel := intLevel K in
  let K := set_intLevel IntOff K in
  t ← deref K (Some this);
  let K :=
    if decide (status t = BLOCKED)
    then assign this
           (set_sleepTime
              (wrap32 (sleepTime t + (totalTicks K - sleepstartTime t))) t) K
    else K in
  K ← ThreadIsReadyToRun this K;
  Ok (set_intLevel oldLevel K).

(** [NachOSThread::AllocateThreadStack]: a fresh stack with the fencepost in
    place, and [machineState[PCState] = _ThreadRoot]. *)
Definition AllocateThreadStack (this : Z) (K : Kernel) : Outcome Kernel :=
  t ← deref K (Some this);
  Ok (assign this (set_PCState ThreadRoot (set_stack (Some STACK_FENCEPOST) t)) K).

(** [NachOSThread::ThreadFork]. *)
Definition ThreadFork (this : Z) (K : Kernel) : Outcome Kernel :=
  K ← AllocateThreadStack this K;
  let oldLevel := intLevel K in
  let K := set_intLevel IntOff K in
  K ← ThreadIsReadyToRun this K;
  Ok (set_intLevel oldLevel K).

(** The loop of [main] that looks for a thread that has not called exit:
    [for (i=0; i<thread_index; i++) if (!exitThreadArray[i]) break;]
    with [n] iterations left; the result is the final value of [i]. *)
Fixpoint first_not_exited (n : nat) (i : Z) (exited : Z → bool) : Z :=
  match n with
  | O => i
  | S n => if negb (exited i) then i else first_not_exited n (i + 1) exited
  end.

(** The end of the [-F] branch of [main]: the main thread marks itself as
    exited and calls [Exit], asking for the end of the simulation when every
    thread created so far ([thread_index] of them) has called exit. *)
Definition main_batch_exit {arith : PredictionArith} (MAX_THREAD_COUNT : nat)
    (interrupt_Idle : Kernel → option Kernel) (fuel : nat) (thread_index : Z)
    (K : Kernel) : Outcome Kernel :=
  let exitcode := 0 in
  this ← getPID (currentThread K);
  let K := set_exitThreadArray (store this true (exitThreadArray K)) K in
  let i := first_not_exited (Z.to_nat thread_index) 0 (exitThreadArray K) in
  this ← getPID (currentThread K);
  Exit MAX_THREAD_COUNT interrupt_Idle fuel this
    (bool_decide (i = thread_index)) exitcode K.

(** *** Sequences of scheduler calls *)

(** [ThreadIsReadyToRun] on each thread of [ts] in turn. *)
Fixpoint ready_all (ts : list Z) (K : Kernel) : Outcome Kernel :=
  match ts with
  | [] => Ok K
  | p :: ts => K ← ThreadIsReadyToRun p K; ready_all ts K
  end.

(** The threads that [n] successive calls of [FindNextThreadToRun] return,
    up to the first [NULL]. *)
Fixpoint find_next_all (n : nat) (K : Kernel) : list Z :=
  match n with
  | O => []
  | S n =>
      match FindNextThreadToRun K with
      | (Some p, K) => p :: find_next_all n K
      | (None, _) => []
      end
  end.

(** ** Predicates used in the statements *)

(** What the decay-priority loop does to slot [i], from the state [K] it
    starts in to the state [K'] it ends in: the slot is folded when the
    guard of the loop holds for it, and is left alone otherwise. *)
Definition decay_folded (K K' : Kernel) (i : Z) : Prop :=
  threadCpuCount K' i = int32 (threadCpuCount K i + prevBurst K i) `quot` 2
  ∧ threadPriority K' i
    = int32 (threadBasePriority K i + threadCpuCount K' i `quot` 2)
  ∧ prevBurst K' i = 0.

Definition decay_untouched (K K' : Kernel) (i : Z) : Prop :=
  threadCpuCount K' i = threadCpuCount K i
  ∧ threadPriority K' i = threadPriority K i
  ∧ prevBurst K' i = prevBurst K i.

(** The decay update the way the specification words it, for the slot [i]
    of a thread that has not exited, from the state [K] in which the thread
    [this], with the object [t], calls [UpdateStats]: [lastBurst] is the
    burst the caller has just completed, and what [prevBurst[i]] holds for
    any other thread. *)
Definition decay_as_specified (this : Z) (t : NachOSThread) (K K' : Kernel)
    (i : Z) : Prop :=
  let burst := wrap32 (totalTicks K - prevstartTime t) in
  let last :=
    if decide (i = this ∧ 0 < burst) then int32 burst else prevBurst K i in
  threadCpuCount K' i = int32 (threadCpuCount K i + last) `quot` 2
  ∧ threadPriority K' i
    = int32 (threadBasePriority K i + threadCpuCount K' i `quot` 2)
  ∧ prevBurst K' i = 0.

(** The object of the caller after the first half of [UpdateStats]. *)
Definition burst_recorded (K : Kernel) (t : NachOSThread) : NachOSThread :=
  if decide (0 < cpuburst_of K t) then record_burst (cpuburst_of K t) t else t.

(** The state that a successful [UpdateStats] of the thread [this], whose
    object is [t], returns. *)
Definition stats_updated {arith : PredictionArith} (MAX_THREAD_COUNT : nat)
    (this : Z) (t : NachOSThread) (K : Kernel) : Kernel :=
  if decide (7 ≤ schedAlgo K)
  then decay_loop MAX_THREAD_COUNT 0 (account_burst this t K)
  else if decide (schedAlgo K = 2)
  then predict_burst this (cpuburst_of K t) (account_burst this t K)
  else account_burst this t K.

(** The scheduler's own variables and the read-only tables agree. *)
Definition same_sched (K K' : Kernel) : Prop :=
  currentThread K' = currentThread K
  ∧ threadToBeDestroyed K' = threadToBeDestroyed K
  ∧ readyThreadList K' = readyThreadList K
  ∧ sleepingThreadList K' = sleepingThreadList K
  ∧ sleepQueueHead K' = sleepQueueHead K
  ∧ intLevel K' = intLevel K
  ∧ totalTicks K' = totalTicks K
  ∧ schedAlgo K' = schedAlgo K
  ∧ exitThreadArray K' = exitThreadArray K
  ∧ threadBasePriority K' = threadBasePriority K.

(** The state in which [_SWITCH] returns, when the thread [old] with the
    object [told] has switched to the thread [next] with the object [tn]:
    [next] is the current thread and [RUNNING], and [old] continues behind
    [_SWITCH] when it is switched to again. *)
Definition switched (old : Z) (told : NachOSThread) (next : Z) (tn : NachOSThread)
    (K : Kernel) : Kernel :=
  assign old
    (set_PCState AfterSWITCH
       (if decide (old = next) then setStatus RUNNING tn else told))
    (assign next (setStatus RUNNING tn) (set_currentThread (Some next) K)).

(** The state in which the thread switched to, whose object was [tn], has
    taken over the CPU from the switch state [S], with no thread pending
    destruction. *)
Definition arrived (tn : NachOSThread) (S : Kernel) : Kernel :=
  match PCState tn with
  | AfterSWITCH => S
  | ThreadRoot => InterruptEnable S
  end.

(** The slot of the parent object [tp] that [SetChildExitCode] writes for
    the child [childpid]: the value of [i] when its search loop ends. *)
Definition slot_of (tp : NachOSThread) (childpid : Z) : Z :=
  find_child (Z.to_nat (childcount tp)) 0 childpid (childpidArray tp).

(** The parent object once the exit code is recorded in slot [i]. *)
Definition recorded (i ecode : Z) (tp : NachOSThread) : NachOSThread :=
  set_exitedChild (store i true (exitedChild tp))
    (set_childexitcode (store i ecode (childexitcode tp)) tp).

(** The time-sorted wait queue is in ascending order of wake up deadline. *)
Definition earlier (a b : TimeSortedWaitQueue) : Prop := GetWhen a ≤ GetWhen b.

Definition ascending (q : list TimeSortedWaitQueue) : Prop :=
  StronglySorted earlier q.

(** The queue after a sequence of insertions [(thread, when)], starting from
    the empty queue [sleepQueueHead == NULL]. *)
Definition wait_queue_inserts (calls : list (Z * Z)) : list TimeSortedWaitQueue :=
  foldl (λ q c, wait_queue_insert c.1 c.2 q) [] calls.

(** Thread [p] exists: its object has been constructed and not released. *)
Definition live (K : Kernel) (p : Z) : Prop :=
  ∃ t, threadArray K !! p = Some (Live t).

(** The status of thread [p] and the child slot it waits for, when the
    thread exists. *)
Definition obj_status (o : option object) : option ThreadStatus :=
  match o with
  | Some (Live t) => Some (status t)
  | _ => None
  end.

Definition obj_waitchild (o : option object) : option Z :=
  match o with
  | Some (Live t) => Some (waitchild_id t)
  | _ => None
  end.

Definition status_of (K : Kernel) (p : Z) : option ThreadStatus :=
  obj_status (threadArray K !! p).

Definition waitchild_of (K : Kernel) (p : Z) : option Z :=
  obj_waitchild (threadArray K !! p).

(** The threads held by the sleeping set and by the time-sorted wait queue. *)
Definition queued (K : Kernel) : list Z :=
  sleepingThreadList K ++ (sleepQueueHead K).*1.

(** Since the state [K], in which [this] runs, nothing has been released,
    [this] is still the current thread and it is the thread marked for
    destruction. *)
Definition kept (this : Z) (K Kx : Kernel) : Prop :=
  currentThread Kx = Some this
  ∧ threadToBeDestroyed Kx = Some this
  ∧ ∀ p, live K p → live Kx p.

(** Interrupt handlers run by [Interrupt::Idle] neither release thread
    objects nor touch [currentThread] and [threadToBeDestroyed]. *)
Definition handlers_keep_threads (interrupt_Idle : Kernel → option Kernel) : Prop :=
  ∀ K K', interrupt_Idle K = Some K' →
    currentThread K' = currentThread K
    ∧ threadToBeDestroyed K' = threadToBeDestroyed K
    ∧ ∀ p, live K p → live K' p.

(** *** The scheduling invariant

    What holds whenever a thread runs outside the life cycle operations:
    - the current thread is the one thread whose status is [RUNNING];
    - the ready list holds exactly the [READY] threads, each once;
    - the sleeping set and the time-sorted wait queue together hold a thread
      at most once, and hold only [BLOCKED] threads;
    - a thread pending destruction is [BLOCKED] and in neither of the two
      wait structures (a thread that is switched to for the first time does
      not run the rest of [Schedule], and the thread that finished before it
      stays pending);
    - a thread that waits for a child is [BLOCKED] and in neither of the two
      wait structures.
    A [BLOCKED] thread may be in no queue at all. *)
Record Settled (K : Kernel) : Prop := mkSettled {
  stl_current :
    ∃ c, currentThread K = Some c ∧ status_of K c = Some RUNNING;
  stl_running :
    ∀ p, status_of K p = Some RUNNING → currentThread K = Some p;
  stl_ready_once : NoDup (readyThreadList K);
  stl_ready :
    ∀ p, p ∈ readyThreadList K ↔ status_of K p = Some READY;
  stl_queued_once : NoDup (queued K);
  stl_queued :
    ∀ p, p ∈ queued K → status_of K p = Some BLOCKED;
  stl_pending :
    ∀ d, threadToBeDestroyed K = Some d →
      status_of K d = Some BLOCKED ∧ d ∉ queued K;
  stl_waiting :
    ∀ p w, waitchild_of K p = Some w → w ≠ -1 →
      status_of K p = Some BLOCKED ∧ p ∉ queued K
}.

(** The invariant in its strict form: in addition no thread is pending
    destruction. *)
Record Inv (K : Kernel) : Prop := mkInv {
  inv_current :
    ∃ c, currentThread K = Some c ∧ status_of K c = Some RUNNING;
  inv_running :
    ∀ p, status_of K p = Some RUNNING → currentThread K = Some p;
  inv_ready_once : NoDup (readyThreadList K);
  inv_ready :
    ∀ p, p ∈ readyThreadList K ↔ status_of K p = Some READY;
  inv_queued_once : NoDup (queued K);
  inv_queued :
    ∀ p, p ∈ queued K → status_of K p = Some BLOCKED;
  inv_pending : threadToBeDestroyed K = None;
  inv_waiting :
    ∀ p w, waitchild_of K p = Some w → w ≠ -1 →
      status_of K p = Some BLOCKED ∧ p ∉ queued K
}.

(** The same discipline between the moment the outgoing thread has given up
    [RUNNING] and the dispatch of the next thread: no thread is [RUNNING],
    and a thread pending destruction is [BLOCKED] and in no wait structure. *)
Record Relinquished (K : Kernel) : Prop := mkRelinquished {
  rel_running : ∀ p, status_of K p ≠ Some RUNNING;
  rel_ready_once : NoDup (readyThreadList K);
  rel_ready :
    ∀ p, p ∈ readyThreadList K ↔ status_of K p = Some READY;
  rel_queued_once : NoDup (queued K);
  rel_queued :
    ∀ p, p ∈ queued K → status_of K p = Some BLOCKED;
  rel_pending :
    ∀ d, threadToBeDestroyed K = Some d →
      status_of K d = Some BLOCKED ∧ d ∉ queued K;
  rel_waiting :
    ∀ p w, waitchild_of K p = Some w → w ≠ -1 →
      status_of K p = Some BLOCKED ∧ p ∉ queued K
}.

(** The state in which the current thread [c] calls [PutThreadToSleep]: the
    invariant, except that [c] may already have put itself on a wait
    structure, recorded the child it waits for, or marked itself for
    destruction. *)
Record AboutToSleep (c : Z) (K : Kernel) : Prop := mkAboutToSleep {
  ats_current : currentThread K = Some c ∧ status_of K c = Some RUNNING;
  ats_running :
    ∀ p, status_of K p = Some RUNNING → p = c;
  ats_ready_once : NoDup (readyThreadList K);
  ats_ready :
    ∀ p, p ∈ readyThreadList K ↔ status_of K p = Some READY;
  ats_queued_once : NoDup (queued K);
  ats_queued :
    ∀ p, p ∈ queued K → p ≠ c → status_of K p = Some BLOCKED;
  ats_pending :
    ∀ d, threadToBeDestroyed K = Some d →
      (d ∉ queued K) ∧ (d ≠ c → status_of K d = Some BLOCKED);
  ats_waiting :
    ∀ p w, waitchild_of K p = Some w → w ≠ -1 →
      (p ∉ queued K) ∧ (p ≠ c → status_of K p = Some BLOCKED)
}.

(** The interrupt handlers that [Interrupt::Idle] runs while no thread is
    [RUNNING] keep that discipline (they only make threads ready) and leave
    [threadToBeDestroyed] alone. *)
Definition handlers_disciplined (interrupt_Idle : Kernel → option Kernel) : Prop :=
  ∀ K K', Relinquished K → interrupt_Idle K = Some K' →
    Relinquished K' ∧ threadToBeDestroyed K' = threadToBeDestroyed K.

(** The current thread of [K] continues behind the call of [_SWITCH] that
    had switched it out; or it has just been switched to for the first
    time. *)
Definition continues_after_SWITCH (K : Kernel) : Prop :=
  ∃ c tc, currentThread K = Some c
    ∧ threadArray K !! c = Some (Live tc) ∧ PCState tc = AfterSWITCH.

Definition begins_in_ThreadRoot (K : Kernel) : Prop :=
  ∃ c tc, currentThread K = Some c
    ∧ threadArray K !! c = Some (Live tc) ∧ PCState tc = ThreadRoot.

(** The state [K1] in which [_SWITCH] returns at the end of [FinishThread]
    and [Exit], and what the thread switched to does with it. *)
Definition transfer_then_release (this : Z) (K K1 : Kernel) : Prop :=
  (∀ p, live K p → live K1 p)
  ∧ live K1 this
  ∧ threadToBeDestroyed K1 = Some this
  ∧ (currentThread K1 = Some this → dispatched K1 = Abort AssertionFailed)
  ∧ ∀ K', dispatched K1 = Ok K' →
      currentThread K' = currentThread K1
      ∧ currentThread K1 ≠ Some this
      ∧ (∀ p, p ≠ this → live K1 p → live K' p)
      ∧ ((continues_after_SWITCH K1
          ∧ threadArray K' !! this = Some Freed
          ∧ threadToBeDestroyed K' = None)
         ∨ (begins_in_ThreadRoot K1
            ∧ threadArray K' = threadArray K1
            ∧ threadToBeDestroyed K' = Some this)).

(** What a dispatch leaves, with [pending] the thread that was pending
    destruction when [Schedule] was called.  The invariant holds; when the
    thread that now runs continues behind [_SWITCH], it has run the rest of
    [Schedule] and no thread is pending destruction; when it begins in
    [_ThreadRoot], what was pending is still pending. *)
Definition after_dispatch (pending : option Z) (K' : Kernel) : Prop :=
  Settled K'
  ∧ ((continues_after_SWITCH K' ∧ Inv K')
     ∨ (begins_in_ThreadRoot K' ∧ threadToBeDestroyed K' = pending)).

(** Two states that the invariant cannot tell apart. *)
Definition same_view (K K' : Kernel) : Prop :=
  currentThread K' = currentThread K
  ∧ threadToBeDestroyed K' = threadToBeDestroyed K
  ∧ readyThreadList K' = readyThreadList K
  ∧ sleepingThreadList K' = sleepingThreadList K
  ∧ sleepQueueHead K' = sleepQueueHead K
  ∧ ∀ p, status_of K' p = status_of K p
       ∧ waitchild_of K' p = waitchild_of K p.

(** The invariant as the specification words it: exactly one thread is
    [RUNNING], and the status of every thread agrees with its presence in
    exactly one of the ready queue, the sleeping set and the time-sorted
    queue, or in none of them when it is [RUNNING]. *)
Definition occurrences (p : Z) (l : list Z) : nat :=
  length (filter (λ q, q = p) l).

Definition agrees (K : Kernel) (p : Z) (s : ThreadStatus) : Prop :=
  let r := occurrences p (readyThreadList K) in
  let z := occurrences p (sleepingThreadList K) in
  let w := occurrences p (sleepQueueHead K).*1 in
  match s with
  | RUNNING => (r = 0 ∧ z = 0 ∧ w = 0)%nat
  | READY => (r = 1 ∧ z = 0 ∧ w = 0)%nat
  | BLOCKED => (r = 0 ∧ z + w = 1)%nat
  | JUST_CREATED => (r = 0 ∧ z = 0 ∧ w = 0)%nat
  end.

Definition StateAgreesWithQueues (K : Kernel) : Prop :=
  (∃ c, currentThread K = Some c
      ∧ ∀ p, status_of K p = Some RUNNING ↔ p = c)
  ∧ ∀ p s, status_of K p = Some s → agrees K p s.
(** ** Sample states *)

Definition no_array : Z → Z := λ _, 0.
Definition no_flags : Z → bool := λ _, false.
Definition no_prediction : Z → Q := λ _, 0%Q.

(** Exact arithmetic with [SJP_RATIO = 1/2]: what the samples run with. *)
#[local] Instance exact_half : PredictionArith :=
  {| SJP_RATIO := 1 # 2; to_burstPredict := λ q, q; to_EstimationError := λ q, q |}.

(** A thread object with the given status, parent and burst extrema, that
    has run before: it continues behind [_SWITCH]. *)
Definition sample_thread (s : ThreadStatus) (parent maxb minb : Z) : NachOSThread :=
  mkThread s (Some STACK_FENCEPOST) parent 0 no_array no_array no_flags (-1)
    0 0 0 maxb minb 0 0 0 AfterSWITCH.

(** The machine emulation with no interrupt pending: [Idle] halts. *)
Definition no_interrupt : Kernel → option Kernel := λ _, None.

Definition sample_kernel (m : gmap Z object) (ready sleeping : list Z)
    (ticks algo : Z) : Kernel :=
  mkKernel m (Some 0) None ready sleeping [] IntOn ticks algo
    no_flags no_array no_array no_array no_array no_prediction 0%Q.

(** A lone running thread at tick 10 whose extrema hold no burst yet:
    [maxCPUburst = 0], [minCPUburst = UINT_MAX]. *)
Definition first_burst_kernel : Kernel :=
  sample_kernel {[ 0 := Live (sample_thread RUNNING (-1) 0 4294967295) ]}
    [] [] 10 0.

(** Under [schedAlgo = 7]: thread 0 runs, thread 1 is ready, has not exited,
    and has base priority [base1], CPU count 10 and last burst 4. *)
Definition decay_kernel (base1 : Z) : Kernel :=
  mkKernel
    {[ 0 := Live (sample_thread RUNNING (-1) 0 0);
       1 := Live (sample_thread READY 0 0 0) ]}
    (Some 0) None [1] [] [] IntOn 0 7
    no_flags (store 1 4 no_array) (store 1 10 no_array) no_array
    (store 1 base1 no_array) no_prediction 0%Q.

(** A parent (pid 0) with one registered child (pid 1) in slot 0, and that
    child.  [w] is the slot the parent waits for, [e] tells whether the
    exit of the child is recorded, with exit code [code]. *)
Definition parent_thread (s : ThreadStatus) (w : Z) (e : bool) (code : Z)
  : NachOSThread :=
  mkThread s (Some STACK_FENCEPOST) (-1) 1 (store 0 1 no_array)
    (store 0 code no_array) (store 0 e no_flags) w 0 0 0 0 0 0 0 0 AfterSWITCH.

Definition child_thread (s : ThreadStatus) : NachOSThread :=
  sample_thread s 0 0 0.

(** The parent runs at tick 10 with interrupts off; the child is ready. *)
Definition parent_runs (e : bool) (code : Z) : Kernel :=
  mkKernel
    {[ 0 := Live (parent_thread RUNNING (-1) e code);
       1 := Live (child_thread READY) ]}
    (Some 0) None [1] [] [] IntOff 10 0
    no_flags no_array no_array no_array no_array no_prediction 0%Q.

(** The child runs at tick 10; the parent is blocked in [JoinWithChild] on
    slot 0. *)
Definition child_runs : Kernel :=
  mkKernel
    {[ 0 := Live (parent_thread BLOCKED 0 false 0);
       1 := Live (child_thread RUNNING) ]}
    (Some 1) None [] [] [] IntOn 10 0
    no_flags no_array no_array no_array no_array no_prediction 0%Q.

(** A single thread runs and no other thread is ready. *)
Definition lone_thread : Kernel :=
  mkKernel {[ 0 := Live (parent_thread RUNNING (-1) false 0) ]}
    (Some 0) None [] [] [] IntOn 10 0
    no_flags no_array no_array no_array no_array no_prediction 0%Q.


(** *** More sample states *)

(** A lone running thread with the given threads on the sleeping list. *)
Definition sleepers (l : list Z) : Kernel :=
  set_sleepingThreadList l lone_thread.

(** A lone thread in the tick in which it was created (tick 0). *)
Definition fresh_kernel : Kernel :=
  sample_kernel {[ 0 := Live (sample_thread RUNNING (-1) 0 0) ]} [] [] 0 0.

(** A running thread whose stack fencepost has been overwritten. *)
Definition damaged_thread : NachOSThread :=
  mkThread RUNNING (Some 0) (-1) 0 no_array no_array no_flags (-1)
    0 0 0 0 0 0 0 0 AfterSWITCH.

Definition damaged_kernel : Kernel :=
  sample_kernel {[ 0 := Live damaged_thread ]} [] [] 10 0.

(** The parent runs while the ready child is the thread marked for
    destruction. *)
Definition pending_kernel : Kernel :=
  set_threadToBeDestroyed (Some 1) (parent_runs false 0).

(** A thread as the constructor leaves it at tick 10, child of thread 0. *)
Definition just_created_thread : NachOSThread :=
  mkThread JUST_CREATED None 0 0 no_array no_array no_flags (-1)
    10 10 0 0 0 0 0 0 ThreadRoot.

(** A thread that went to sleep at tick 4. *)
Definition sleeping_thread : NachOSThread :=
  mkThread BLOCKED (Some STACK_FENCEPOST) 0 0 no_array no_array no_flags (-1)
    0 0 4 4 4 1 0 4 AfterSWITCH.

(** Thread 0 runs at tick 10, nothing is ready, and there is a second
    thread [t]. *)
Definition second_thread (t : NachOSThread) : Kernel :=
  mkKernel
    {[ 0 := Live (parent_thread RUNNING (-1) false 0); 1 := Live t ]}
    (Some 0) None [] [] [] IntOn 10 0
    no_flags no_array no_array no_array no_array no_prediction 0%Q.

(** A forked thread that has not run yet: [READY], child of thread 0, and
    beginning in [ThreadRoot] when it is switched to. *)
Definition forked_thread : NachOSThread :=
  set_PCState ThreadRoot (child_thread READY).

(** The parent runs at tick 10 with interrupts off; the forked child is
    ready and has not run yet. *)
Definition parent_forked : Kernel :=
  set_threadArray
    {[ 0 := Live (parent_thread RUNNING (-1) false 0);
       1 := Live forked_thread ]}
    (parent_runs false 0).

(** Under [schedAlgo = 7] at tick 10: thread 0 runs since tick 0 and has
    base priority 5 and CPU count 6; thread 1 is ready and has base priority
    [base1], CPU count 10 and last burst 4. *)
Definition decay_running (base1 : Z) : Kernel :=
  mkKernel
    {[ 0 := Live (sample_thread RUNNING (-1) 0 0);
       1 := Live (sample_thread READY 0 0 0) ]}
    (Some 0) None [1] [] [] IntOn 10 7
    no_flags (store 1 4 no_array) (store 0 6 (store 1 10 no_array)) no_array
    (store 0 5 (store 1 base1 no_array)) no_prediction 0%Q.

(** Under [schedAlgo = 2] at tick 10: thread 0 runs since tick 0 with a
    predicted burst of 4; the estimation error so far is 1. *)
Definition prediction_kernel : Kernel :=
  mkKernel
    {[ 0 := Live (sample_thread RUNNING (-1) 0 0) ]}
    (Some 0) None [] [] [] IntOn 10 2
    no_flags no_array no_array no_array no_array
    (store 0 (4 # 1)%Q no_prediction) (1 # 1)%Q.

(** Under [schedAlgo = 2] in the tick in which the burst of thread 0
    started: the predicted burst is 4, [prevBurst[0]] still holds the burst
    6 of an earlier run, and the estimation error so far is 1. *)
Definition stale_prediction_kernel : Kernel :=
  mkKernel
    {[ 0 := Live (sample_thread RUNNING (-1) 0 0) ]}
    (Some 0) None [] [] [] IntOn 0 2
    no_flags (store 0 6 no_array) no_array no_array no_array
    (store 0 (4 # 1)%Q no_prediction) (1 # 1)%Q.

(** ** Reasoning about outcomes *)

Lemma bind_Ok_inv {A B} (m : Outcome A) (f : A → Outcome B) (b : B) :
  m ≫= f = Ok b → ∃ a, m = Ok a ∧ f a = Ok b.
Proof. destruct m; simpl; intros H; try discriminate. eauto. Qed.

Lemma bind_Ok {A B} (m : Outcome A) (f : A → Outcome B) (a : A) :
  m = Ok a → m ≫= f = f a.
Proof. by intros ->. Qed.

Lemma bind_assoc {A B C} (m : Outcome A) (f : A → Outcome B)
    (g : B → Outcome C) :
  (m ≫= f) ≫= g = m ≫= (λ a, f a ≫= g).
Proof. by destruct m. Qed.

Lemma bind_ext {A B} (m : Outcome A) (f g : A → Outcome B) :
  (∀ a, f a = g a) → m ≫= f = m ≫= g.
Proof. intros H. destruct m; simpl; [apply H|done..]. Qed.

Lemma ASSERT_Ok_inv (b : bool) (u : unit) : ASSERT b = Ok u → b = true.
Proof. by destruct b. Qed.

Lemma ASSERT_true (b : bool) : b = true → ASSERT b = Ok tt.
Proof. by intros ->. Qed.

Lemma deref_Ok_inv K p t :
  deref K p = Ok t → ∃ pid, p = Some pid ∧ threadArray K !! pid = Some (Live t).
Proof.
  unfold deref. destruct p as [pid|]; [|discriminate].
  destruct (threadArray K !! pid) as [[t'|]|] eqn:E; try discriminate.
  intros [= ->]. eauto.
Qed.

Lemma deref_Live K pid t :
  threadArray K !! pid = Some (Live t) → deref K (Some pid) = Ok t.
Proof. unfold deref. by intros ->. Qed.

(** Split a hypothesis [x ← m; k = Ok b] into its steps. *)
Ltac bind_inv H :=
  let a := fresh "a" in
  let Ha := fresh "Hstep" in
  apply bind_Ok_inv in H as (a & Ha & H).

Ltac assert_inv H :=
  let u := fresh "u" in
  let Hu := fresh "Hassert" in
  apply bind_Ok_inv in H as (u & Hu & H);
  apply ASSERT_Ok_inv in Hu;
  try (apply bool_decide_eq_true_1 in Hu).

(** Two kernel states with the same fields are equal. *)
Lemma Kernel_eq K K' :
  threadArray K = threadArray K' →
  currentThread K = currentThread K' →
  threadToBeDestroyed K = threadToBeDestroyed K' →
  readyThreadList K = readyThreadList K' →
  sleepingThreadList K = sleepingThreadList K' →
  sleepQueueHead K = sleepQueueHead K' →
  intLevel K = intLevel K' →
  totalTicks K = totalTicks K' →
  schedAlgo K = schedAlgo K' →
  exitThreadArray K = exitThreadArray K' →
  prevBurst K = prevBurst K' →
  threadCpuCount K = threadCpuCount K' →
  threadPriority K = threadPriority K' →
  threadBasePriority K = threadBasePriority K' →
  burstPredict K = burstPredict K' →
  EstimationError K = EstimationError K' →
  K = K'.
Proof. destruct K, K'; simpl; intros; by subst. Qed.
(** ** Properties of scheduler.cc *)

Section scheduler_facts.

Implicit Types (l : list Z) (K : Kernel) (thread start : Z).

Lemma RemoveSleepingThread_loop_rotates fuel start thread (pre post : list Z) :
  start ∉ pre → thread ∉ pre → thread ≠ start →
  (length pre < fuel)%nat →
  RemoveSleepingThread_loop fuel start thread (pre ++ start :: post)
  = Ok (None, post ++ pre ++ [start]).
Proof.
  revert fuel post. induction pre as [|x pre IH]; intros fuel post Hs Ht Hne Hf.
  - destruct fuel as [|fuel]; [simpl in Hf; lia|]. simpl.
    rewrite decide_False by congruence.
    rewrite (decide_False (P := start ≠ start)) by (intros H; by apply H).
    done.
  - destruct fuel as [|fuel]; [simpl in Hf; lia|]. simpl.
    apply not_elem_of_cons in Hs as [Hsx Hs].
    apply not_elem_of_cons in Ht as [Htx Ht].
    rewrite decide_False by congruence.
    rewrite decide_True by congruence.
    unfold List_Append. rewrite <- app_assoc. simpl.
    rewrite IH by (auto; simpl in Hf; lia).
    by rewrite <- !app_assoc.
Qed.

(** On a non-empty sleeping list that does not hold [thread], the scan
    terminates within [length l] iterations, answers [NULL] and leaves a
    rotation of the list. *)
Lemma RemoveSleepingThread_absent fuel thread l :
  l ≠ [] → thread ∉ l → (length l ≤ fuel)%nat →
  ∃ l', RemoveSleepingThread_list fuel thread l = Ok (None, l') ∧ l' ≡ₚ l.
Proof.
  intros Hl Ht Hf. destruct l as [|s r]; [done|].
  apply not_elem_of_cons in Ht as [Hts Ht].
  unfold RemoveSleepingThread_list. simpl.
  rewrite decide_False by congruence. unfold List_Append.
  assert (Hin : s ∈ r ++ [s]) by (apply elem_of_app; right; apply list_elem_of_singleton; done).
  apply list_elem_of_split_l in Hin as (pre & post & Heq & Hpre).
  assert (Hlen : (length pre < fuel)%nat).
  { apply (f_equal length) in Heq. rewrite !length_app in Heq. simpl in *. lia. }
  assert (Htpre : thread ∉ pre).
  { intros Hin. assert (thread ∈ r ++ [s]) as Hin'.
    { rewrite Heq. apply elem_of_app. by left. }
    apply elem_of_app in Hin' as [?|Hin']; [done|].
    apply list_elem_of_singleton in Hin'. congruence. }
  rewrite Heq.
  rewrite RemoveSleepingThread_loop_rotates by auto.
  eexists; split; [done|].
  transitivity (r ++ [s]).
  - rewrite Heq. rewrite (Permutation_app_comm pre (s :: post)). simpl.
    rewrite (Permutation_app_comm post (pre ++ [s])).
    rewrite <- app_assoc. simpl. rewrite (Permutation_app_comm pre (s :: post)). done.
  - by rewrite Permutation_app_comm.
Qed.

(** C1 (failing case).  On the empty sleeping list [RemoveSleepingThread]
    does not answer "not found": [List::Remove] returns [NULL] and
    [current->getPID()] dereferences it, whatever thread is asked for. *)
Theorem RemoveSleepingThread_empty_faults fuel thread K :
  RemoveSleepingThread fuel thread (set_sleepingThreadList [] K)
  = Abort NullPointer.
Proof. reflexivity. Qed.

End scheduler_facts.

(** ** Properties of [UpdateStats] *)

Section stats_facts.

Context {arith : PredictionArith}.
Variable MAX_THREAD_COUNT : nat.

Implicit Types (K : Kernel) (t : NachOSThread) (i j this : Z).

Lemma record_burst_counts cpuburst t :
  numCPUburst (record_burst cpuburst t) = wrap32 (numCPUburst t + 1)
  ∧ totalCPUburst (record_burst cpuburst t) = wrap32 (totalCPUburst t + cpuburst)
  ∧ cpuburst ≤ maxCPUburst (record_burst cpuburst t).
Proof.
  unfold record_burst; simpl.
  destruct (decide (maxCPUburst t < cpuburst)); simpl; [lia|].
  destruct (decide (cpuburst < minCPUburst t)); simpl; lia.
Qed.

(** The lower extremum is right as soon as the extrema were ordered before:
    only a burst that is at once a new maximum and a new minimum is missed. *)
Lemma record_burst_min cpuburst t :
  minCPUburst t ≤ maxCPUburst t →
  minCPUburst (record_burst cpuburst t) ≤ cpuburst.
Proof.
  intros Hmm. unfold record_burst; simpl.
  destruct (decide (maxCPUburst t < cpuburst)); simpl; [lia|].
  destruct (decide (cpuburst < minCPUburst t)); simpl; lia.
Qed.

Lemma record_burst_status cpuburst t :
  status (record_burst cpuburst t) = status t
  ∧ waitchild_id (record_burst cpuburst t) = waitchild_id t
  ∧ ppid (record_burst cpuburst t) = ppid t
  ∧ stack (record_burst cpuburst t) = stack t.
Proof.
  unfold record_burst; simpl.
  destruct (decide (maxCPUburst t < cpuburst)); simpl; [done|].
  destruct (decide (cpuburst < minCPUburst t)); done.
Qed.

(** C5 (failing input).  The first burst of a thread, of 10 ticks, with
    [maxCPUburst = 0] and [minCPUburst = UINT_MAX]: the burst is counted,
    added to the total and becomes the maximum, but the [else if] leaves
    [minCPUburst] at [UINT_MAX], above the burst. *)
Theorem UpdateStats_first_burst_keeps_min :
  ∃ K' t',
    UpdateStats MAX_THREAD_COUNT 0 first_burst_kernel = Ok K'
    ∧ threadArray K' !! 0 = Some (Live t')
    ∧ numCPUburst t' = 1 ∧ totalCPUburst t' = 10
    ∧ maxCPUburst t' = 10 ∧ minCPUburst t' = 4294967295
    ∧ ¬ (minCPUburst t' ≤ 10).
Proof.
  eexists _, _. split; [reflexivity|].
  split; [vm_compute; reflexivity|].
  repeat split; try (vm_compute; reflexivity).
  simpl. lia.
Qed.

Lemma decay_step_same_sched i K :
  same_sched K (decay_step i K)
  ∧ threadArray (decay_step i K) = threadArray K.
Proof. unfold decay_step. by destruct (decay_guard K i). Qed.

Lemma decay_loop_same_sched n i K :
  same_sched K (decay_loop n i K)
  ∧ threadArray (decay_loop n i K) = threadArray K.
Proof.
  revert i K. induction n as [|n IH]; intros i K; simpl; [done|].
  specialize (IH (i + 1) (decay_step i K)).
  pose proof (decay_step_same_sched i K) as Hs.
  unfold same_sched in *. intuition congruence.
Qed.

Lemma decay_step_at i K :
  (decay_guard K i = true → decay_folded K (decay_step i K) i)
  ∧ (decay_guard K i = false → decay_untouched K (decay_step i K) i).
Proof.
  unfold decay_step, decay_folded, decay_untouched, store.
  split; intros HG; rewrite HG; simpl; [|done].
  rewrite !decide_True by done. done.
Qed.

Lemma decay_step_other i j K :
  j ≠ i →
  decay_untouched K (decay_step i K) j
  ∧ decay_guard (decay_step i K) j = decay_guard K j.
Proof.
  intros Hne. unfold decay_step, decay_untouched, decay_guard, store.
  destruct (negb _ && _ && _); simpl; [|done].
  rewrite !decide_False by done. done.
Qed.

Lemma decay_loop_spec n i0 K j :
  (i0 ≤ j < i0 + Z.of_nat n →
     (decay_guard K j = true → decay_folded K (decay_loop n i0 K) j)
     ∧ (decay_guard K j = false → decay_untouched K (decay_loop n i0 K) j))
  ∧ (¬ (i0 ≤ j < i0 + Z.of_nat n) → decay_untouched K (decay_loop n i0 K) j).
Proof.
  revert i0 K. induction n as [|n IH]; intros i0 K.
  - split; [lia|]. by intros _.
  - cbn [decay_loop].
    destruct (IH (i0 + 1) (decay_step i0 K)) as [IHin IHout].
    destruct (decay_loop_same_sched n (i0 + 1) (decay_step i0 K))
      as [(_&_&_&_&_&_&_&_&_&Hb1) _].
    destruct (decay_step_same_sched i0 K) as [(_&_&_&_&_&_&_&_&_&Hb0) _].
    destruct (decide (j = i0)) as [->|Hne].
    + split; [|lia]. intros _.
      destruct IHout as (Hc & Hp & Hb); [lia|].
      destruct (decay_step_at i0 K) as [Hat Hskip].
      split; intros HG.
      * destruct (Hat HG) as (Hc' & Hp' & Hb').
        unfold decay_folded. rewrite Hp, Hb, Hc. done.
      * destruct (Hskip HG) as (Hc' & Hp' & Hb').
        unfold decay_untouched. rewrite Hc, Hp, Hb. done.
    + destruct (decay_step_other i0 j K Hne) as [(Hc0 & Hp0 & Hb0') HG0].
      split.
      * intros Hr. destruct IHin as [Hin Hskip]; [lia|].
        rewrite HG0 in Hin, Hskip.
        split; intros HG.
        -- destruct (Hin HG) as (Hc & Hp & Hb).
           unfold decay_folded. rewrite Hp, Hb, Hc, Hc0, Hb0', Hb0. done.
        -- destruct (Hskip HG) as (Hc & Hp & Hb).
           unfold decay_untouched. rewrite Hc, Hp, Hb. done.
      * intros Hr. destruct IHout as (Hc & Hp & Hb); [lia|].
        unfold decay_untouched. rewrite Hc, Hp, Hb. done.
Qed.

Lemma account_burst_schedAlgo this t K :
  schedAlgo (account_burst this t K) = schedAlgo K.
Proof. unfold account_burst. by destruct (decide _). Qed.

Lemma predict_burst_same_sched pid cpuburst K :
  same_sched K (predict_burst pid cpuburst K)
  ∧ threadArray (predict_burst pid cpuburst K) = threadArray K
  ∧ prevBurst (predict_burst pid cpuburst K) = prevBurst K
  ∧ threadCpuCount (predict_burst pid cpuburst K) = threadCpuCount K
  ∧ threadPriority (predict_burst pid cpuburst K) = threadPriority K.
Proof. unfold predict_burst. by destruct (Qlt_le_dec _ _). Qed.

(** [UpdateStats] succeeds exactly when it is called on the current thread,
    and then does the two halves one after the other. *)
Lemma UpdateStats_Ok_inv this K K' :
  UpdateStats MAX_THREAD_COUNT this K = Ok K' →
  ∃ t, currentThread K = Some this
    ∧ threadArray K !! this = Some (Live t)
    ∧ K' = stats_updated MAX_THREAD_COUNT this t K.
Proof.
  unfold UpdateStats, stats_updated. intros HU.
  assert_inv HU. bind_inv HU.
  apply deref_Ok_inv in Hstep as (pid & [= <-] & Ht).
  exists a. split; [done|]. split; [done|].
  rewrite account_burst_schedAlgo in HU.
  destruct (decide (7 ≤ schedAlgo K)); [congruence|].
  destruct (decide (schedAlgo K = 2)); [|congruence].
  replace (currentThread (account_burst this a K)) with (Some this) in HU.
  - simpl in HU. congruence.
  - rewrite Hassert. unfold account_burst. by destruct (decide _).
Qed.

Lemma UpdateStats_Ok this t K :
  currentThread K = Some this →
  threadArray K !! this = Some (Live t) →
  UpdateStats MAX_THREAD_COUNT this K
  = Ok (stats_updated MAX_THREAD_COUNT this t K).
Proof.
  intros Hc Ht. unfold UpdateStats, stats_updated.
  rewrite (bind_Ok _ _ tt) by (apply ASSERT_true, bool_decide_eq_true_2; done).
  rewrite (bind_Ok _ _ t) by (by apply deref_Live).
  rewrite account_burst_schedAlgo.
  destruct (decide (7 ≤ schedAlgo K)); [done|].
  destruct (decide (schedAlgo K = 2)); [|done].
  replace (currentThread (account_burst this t K)) with (Some this); [done|].
  rewrite <- Hc. unfold account_burst. by destruct (decide _).
Qed.

Lemma account_burst_effect this t K :
  threadArray K !! this = Some (Live t) →
  same_sched K (account_burst this t K)
  ∧ threadArray (account_burst this t K)
    = <[this := Live (burst_recorded K t)]> (threadArray K).
Proof.
  intros Ht. unfold account_burst, burst_recorded.
  destruct (decide (0 < cpuburst_of K t)); simpl; [done|].
  split; [done|]. by rewrite insert_id.
Qed.

(** What a successful [UpdateStats] changes: the statistics of the caller,
    the three decay tables, and the prediction and its error. *)
Lemma UpdateStats_effect this K K' :
  UpdateStats MAX_THREAD_COUNT this K = Ok K' →
  ∃ t, currentThread K = Some this
    ∧ threadArray K !! this = Some (Live t)
    ∧ same_sched K K'
    ∧ threadArray K' = <[this := Live (burst_recorded K t)]> (threadArray K).
Proof.
  intros HU. apply UpdateStats_Ok_inv in HU as (t & Hc & Ht & ->).
  exists t. split; [done|]. split; [done|].
  destruct (account_burst_effect this t K Ht) as [Hs Ha].
  unfold stats_updated.
  destruct (decide (7 ≤ schedAlgo K)).
  - destruct (decay_loop_same_sched MAX_THREAD_COUNT 0 (account_burst this t K))
      as [Hs' Ha'].
    split; [|congruence].
    unfold same_sched in *. intuition congruence.
  - destruct (decide (schedAlgo K = 2)); [|done].
    destruct (predict_burst_same_sched this (cpuburst_of K t)
                (account_burst this t K)) as (Hs' & Ha' & _).
    split; [|congruence].
    unfold same_sched in *. intuition congruence.
Qed.

Lemma burst_recorded_startTime K t :
  startTime (burst_recorded K t) = startTime t.
Proof.
  unfold burst_recorded. destruct (decide _); [|done].
  unfold record_burst; simpl.
  destruct (decide (maxCPUburst t < cpuburst_of K t)); simpl; [done|].
  by destruct (decide (cpuburst_of K t < minCPUburst t)).
Qed.

Lemma burst_recorded_status K t :
  status (burst_recorded K t) = status t
  ∧ waitchild_id (burst_recorded K t) = waitchild_id t
  ∧ ppid (burst_recorded K t) = ppid t
  ∧ stack (burst_recorded K t) = stack t.
Proof.
  unfold burst_recorded. destruct (decide _); [|done].
  apply record_burst_status.
Qed.

(** The tables as the first half of [UpdateStats] leaves them: only
    [prevBurst[pid]] is written, with the burst of the caller when that is
    positive. *)
Lemma account_burst_tables this t K i :
  exitThreadArray (account_burst this t K) = exitThreadArray K
  ∧ threadBasePriority (account_burst this t K) = threadBasePriority K
  ∧ threadCpuCount (account_burst this t K) = threadCpuCount K
  ∧ threadPriority (account_burst this t K) = threadPriority K
  ∧ burstPredict (account_burst this t K) = burstPredict K
  ∧ EstimationError (account_burst this t K) = EstimationError K
  ∧ prevBurst (account_burst this t K) i
    = (if decide (i = this ∧ 0 < wrap32 (totalTicks K - prevstartTime t))
       then int32 (wrap32 (totalTicks K - prevstartTime t))
       else prevBurst K i).
Proof.
  unfold account_burst, cpuburst_of.
  destruct (decide (0 < wrap32 (totalTicks K - prevstartTime t))) as [Hpos|Hz];
    simpl; repeat (split; [done|]).
  - unfold store. destruct (decide (i = this)) as [->|Hne].
    + by rewrite decide_True.
    + rewrite decide_False; [done|]. tauto.
  - rewrite decide_False; [done|]. tauto.
Qed.

(** C6 (as the code has it).  Under [schedAlgo >= 7], [UpdateStats] first
    stores the burst that the caller has just completed, when it is
    positive, in [prevBurst[pid]].  Then it folds the last burst of exactly
    the slots [i < MAX_THREAD_COUNT] that pass the guard of the loop - not
    exited, [prevBurst[i] >= 0] and [threadBasePriority[i] != 0] - with
    [threadCpuCount[i] = (threadCpuCount[i] + prevBurst[i]) / 2],
    [threadPriority[i] = threadBasePriority[i] + threadCpuCount[i] / 2] in
    32-bit [int] arithmetic and [prevBurst[i] = 0]; every other slot keeps
    its CPU count and its priority, and its last burst.  All values on the
    right are those of the state in which [UpdateStats] is called; [last] is
    the last burst of slot [i] as the loop finds it. *)
Theorem UpdateStats_decay this t K K' i :
  7 ≤ schedAlgo K →
  threadArray K !! this = Some (Live t) →
  UpdateStats MAX_THREAD_COUNT this K = Ok K' →
  0 ≤ i < Z.of_nat MAX_THREAD_COUNT →
  let burst := wrap32 (totalTicks K - prevstartTime t) in
  let last :=
    if decide (i = this ∧ 0 < burst) then int32 burst else prevBurst K i in
  (exitThreadArray K i = false → 0 ≤ last → threadBasePriority K i ≠ 0 →
     threadCpuCount K' i = int32 (threadCpuCount K i + last) `quot` 2
     ∧ threadPriority K' i
       = int32 (threadBasePriority K i + threadCpuCount K' i `quot` 2)
     ∧ prevBurst K' i = 0)
  ∧ (exitThreadArray K i = true ∨ last < 0 ∨ threadBasePriority K i = 0 →
     threadCpuCount K' i = threadCpuCount K i
     ∧ threadPriority K' i = threadPriority K i
     ∧ prevBurst K' i = last).
Proof.
  intros Halgo Ht HU Hi burst last.
  apply UpdateStats_Ok_inv in HU as (t' & Hc & Ht' & ->).
  assert (t' = t) as -> by congruence.
  unfold stats_updated. rewrite decide_True by done.
  destruct (account_burst_tables this t K i)
    as (Hex & Hbase & Hcpu & Hprio & _ & _ & Hlast).
  fold burst in Hlast. fold last in Hlast.
  destruct (decay_loop_spec MAX_THREAD_COUNT 0 (account_burst this t K) i)
    as [Hin _].
  destruct Hin as [Hfold Hskip]; [lia|].
  unfold decay_guard, decay_folded, decay_untouched in Hfold, Hskip.
  rewrite ?Hex, ?Hbase, ?Hcpu, ?Hprio, ?Hlast in Hfold.
  rewrite ?Hex, ?Hbase, ?Hcpu, ?Hprio, ?Hlast in Hskip.
  split.
  - intros He Hl Hb. apply Hfold. rewrite He. simpl.
    rewrite bool_decide_eq_true_2 by done.
    by rewrite bool_decide_eq_false_2 by done.
  - intros Hno. apply Hskip. destruct Hno as [He|[Hl|Hb]].
    + by rewrite He.
    + rewrite (bool_decide_eq_false_2 (0 ≤ last)) by lia.
      by rewrite andb_false_r.
    + rewrite (bool_decide_eq_true_2 (threadBasePriority K i = 0)) by done.
      by rewrite andb_false_r.
Qed.

Lemma Qabs_minus_pos (a b : Q) : (a < b)%Q → Qabs (b - a) = (b - a)%Q.
Proof.
  intros Hlt. destruct a as [an ad], b as [bn bd].
  unfold Qabs, Qminus, Qplus, Qopp, Qlt in *. simpl in *. f_equal. lia.
Qed.

Lemma Qabs_minus_neg (a b : Q) : (b <= a)%Q → Qabs (b - a) = (- b + a)%Q.
Proof.
  intros Hle. destruct a as [an ad], b as [bn bd].
  unfold Qabs, Qminus, Qplus, Qopp, Qle in *. simpl in *.
  f_equal; lia.
Qed.

(** C7.  Under [schedAlgo == 2], [UpdateStats] replaces the prediction of
    the caller by [(1 - SJP_RATIO) * burstPredict[pid]
    + SJP_RATIO * prevBurst[pid]], where [prevBurst[pid]] has just been set
    to the completed burst when that is positive, and adds the distance
    between the old prediction and the completed burst to
    [stats->EstimationError]; the predictions of the other threads and the
    decay tables are left alone.  All values on the right are those of the
    state in which [UpdateStats] is called. *)
Theorem UpdateStats_prediction this t K K' :
  schedAlgo K = 2 →
  threadArray K !! this = Some (Live t) →
  UpdateStats MAX_THREAD_COUNT this K = Ok K' →
  let burst := wrap32 (totalTicks K - prevstartTime t) in
  let last := if decide (0 < burst) then int32 burst else prevBurst K this in
  burstPredict K' this
  = to_burstPredict
      ((1 - SJP_RATIO) * burstPredict K this + SJP_RATIO * inject_Z last)%Q
  ∧ (∀ p, p ≠ this → burstPredict K' p = burstPredict K p)
  ∧ EstimationError K'
    = to_EstimationError
        (EstimationError K + Qabs (burstPredict K this - inject_Z burst))%Q
  ∧ prevBurst K' this = last
  ∧ threadCpuCount K' = threadCpuCount K
  ∧ threadPriority K' = threadPriority K.
Proof.
  intros Halgo Ht HU burst last.
  apply UpdateStats_Ok_inv in HU as (t' & Hc & Ht' & ->).
  assert (t' = t) as -> by congruence.
  unfold stats_updated. rewrite decide_False by lia. rewrite decide_True by done.
  destruct (account_burst_tables this t K this)
    as (_ & _ & Hcpu & Hprio & Hbp & Hee & Hlast).
  fold burst in Hlast.
  assert (Hlast' : prevBurst (account_burst this t K) this = last).
  { rewrite Hlast. unfold last.
    destruct (decide (0 < burst)).
    - by rewrite decide_True.
    - rewrite decide_False; [done|]. tauto. }
  destruct (predict_burst_same_sched this (cpuburst_of K t)
              (account_burst this t K)) as (_ & _ & Hpb & Hcpu' & Hprio').
  rewrite Hpb, Hcpu', Hprio', Hlast', Hcpu, Hprio.
  unfold predict_burst, cpuburst_of. fold burst. rewrite Hbp, Hee.
  destruct (Qlt_le_dec (inject_Z burst) (burstPredict K this)) as [Hlt|Hle].
  - rewrite (Qabs_minus_pos _ _ Hlt). simpl. rewrite Hbp, Hlast'. unfold store.
    rewrite decide_True by done. split; [done|].
    split; [intros p Hp; by rewrite decide_False|]. done.
  - rewrite (Qabs_minus_neg _ _ Hle). simpl. rewrite Hbp, Hlast'. unfold store.
    rewrite decide_True by done. split; [done|].
    split; [intros p Hp; by rewrite decide_False|]. done.
Qed.

End stats_facts.

(** ** Dispatching: [ThreadIsReadyToRun], [FindNextThreadToRun], [Schedule] *)

Section dispatch_facts.

Variable MAX_THREAD_COUNT : nat.
Variable interrupt_Idle : Kernel → option Kernel.

Implicit Types (K : Kernel) (t : NachOSThread) (p this next : Z).

Lemma set_intLevel_id K : set_intLevel (intLevel K) K = K.
Proof. by destruct K. Qed.

Lemma ThreadIsReadyToRun_Ok thread t K :
  threadArray K !! thread = Some (Live t) →
  ThreadIsReadyToRun thread K
  = Ok (set_readyThreadList (readyThreadList K ++ [thread])
          (assign thread (setStatus READY t) K)).
Proof.
  intros Ht. unfold ThreadIsReadyToRun.
  by rewrite (bind_Ok _ _ t) by (by apply deref_Live).
Qed.

Lemma ThreadIsReadyToRun_Ok_inv thread K K' :
  ThreadIsReadyToRun thread K = Ok K' →
  ∃ t, threadArray K !! thread = Some (Live t)
    ∧ K' = set_readyThreadList (readyThreadList K ++ [thread])
             (assign thread (setStatus READY t) K).
Proof.
  unfold ThreadIsReadyToRun. intros H. bind_inv H.
  apply deref_Ok_inv in Hstep as (pid & [= <-] & Ht).
  exists a. split; [done|]. by injection H as <-.
Qed.

Lemma Schedule_switch_Ok_inv nextThread K K1 :
  Schedule_switch nextThread K = Ok K1 →
  ∃ old told next tn,
    currentThread K = Some old
    ∧ threadArray K !! old = Some (Live told)
    ∧ CheckOverflow told = Ok tt
    ∧ nextThread = Some next
    ∧ threadArray K !! next = Some (Live tn)
    ∧ K1 = switched old told next tn K.
Proof.
  unfold Schedule_switch. intros H.
  bind_inv H. apply deref_Ok_inv in Hstep as (old & Hold & Hto).
  bind_inv H. destruct a0.
  bind_inv H. apply deref_Ok_inv in Hstep0 as (next & Hn & Htn).
  simpl in Hn, Htn. subst nextThread.
  bind_inv H. injection Hstep0 as <-.
  bind_inv H. rewrite Hold in Hstep0. injection Hstep0 as <-.
  unfold SWITCH in H. bind_inv H.
  apply deref_Ok_inv in Hstep0 as (pid & [= <-] & Ho).
  injection H as <-.
  exists old, a, next, a0. repeat (split; [done|]).
  unfold switched. f_equal. f_equal. simpl in Ho.
  destruct (decide (old = next)) as [->|Hne].
  - rewrite lookup_insert_eq in Ho. congruence.
  - rewrite lookup_insert_ne in Ho by done. congruence.
Qed.

Lemma Schedule_switch_Ok old told next tn K :
  currentThread K = Some old →
  threadArray K !! old = Some (Live told) →
  CheckOverflow told = Ok tt →
  threadArray K !! next = Some (Live tn) →
  Schedule_switch (Some next) K = Ok (switched old told next tn K).
Proof.
  intros Hc Hold Hov Hn. unfold Schedule_switch, SWITCH.
  rewrite Hc. rewrite (bind_Ok _ _ told) by (by apply deref_Live).
  rewrite (bind_Ok _ _ tt) by done.
  rewrite (bind_Ok _ _ tn) by (by apply deref_Live).
  rewrite (bind_Ok _ _ next); [|reflexivity].
  rewrite (bind_Ok _ _ old); [|reflexivity].
  unfold switched.
  destruct (decide (old = next)) as [->|Hne].
  - by rewrite (bind_Ok _ _ (setStatus RUNNING tn))
      by (apply deref_Live; simpl; apply lookup_insert_eq).
  - by rewrite (bind_Ok _ _ told)
      by (apply deref_Live; simpl; by rewrite lookup_insert_ne).
Qed.

(** The switch state: the thread switched to, and every other thread. *)
Lemma switched_next old told next tn K :
  currentThread (switched old told next tn K) = Some next
  ∧ ∃ tn', threadArray (switched old told next tn K) !! next = Some (Live tn')
      ∧ status tn' = RUNNING
      ∧ waitchild_id tn' = waitchild_id tn
      ∧ PCState tn' = (if decide (old = next) then AfterSWITCH else PCState tn).
Proof.
  split; [done|]. unfold switched. simpl.
  destruct (decide (old = next)) as [->|Hne].
  - eexists. split; [apply lookup_insert_eq|]. done.
  - eexists. split; [rewrite lookup_insert_ne by done; apply lookup_insert_eq|].
    done.
Qed.

Lemma switched_old old told next tn K :
  old ≠ next →
  threadArray (switched old told next tn K) !! old
  = Some (Live (set_PCState AfterSWITCH told)).
Proof.
  intros Hne. unfold switched. simpl. rewrite decide_False by done.
  apply lookup_insert_eq.
Qed.


Lemma Schedule_tail_Ok_inv K1 K' :
  Schedule_tail K1 = Ok K' →
  (threadToBeDestroyed K1 = None ∧ K' = K1)
  ∨ (∃ d, threadToBeDestroyed K1 = Some d
        ∧ live K1 d
        ∧ Some d ≠ currentThread K1
        ∧ K' = set_threadToBeDestroyed None
                 (set_threadArray (<[d := Freed]> (threadArray K1)) K1)).
Proof.
  unfold Schedule_tail. destruct (threadToBeDestroyed K1) as [d|] eqn:Hd.
  - intros H. right. bind_inv H. unfold delete_thread in Hstep.
    bind_inv Hstep. apply deref_Ok_inv in Hstep0 as (pid & [= <-] & Ht).
    assert_inv Hstep. injection Hstep as <-. injection H as <-.
    exists d. split; [done|]. split; [by exists a0|]. done.
  - intros [= <-]. by left.
Qed.

Lemma Schedule_tail_none K : threadToBeDestroyed K = None → Schedule_tail K = Ok K.
Proof. unfold Schedule_tail. by intros ->. Qed.

Lemma Schedule_tail_some d td K :
  threadToBeDestroyed K = Some d →
  threadArray K !! d = Some (Live td) →
  Some d ≠ currentThread K →
  Schedule_tail K
  = Ok (set_threadToBeDestroyed None
          (set_threadArray (<[d := Freed]> (threadArray K)) K)).
Proof.
  intros Hd Ht Hne. unfold Schedule_tail, delete_thread. rewrite Hd.
  rewrite (bind_Ok _ _ td) by (by apply deref_Live).
  rewrite (bind_Ok _ _ tt) by (apply ASSERT_true, bool_decide_eq_true_2; done).
  done.
Qed.

(** The thread switched to continues behind [_SWITCH], with the rest of
    [Schedule], or begins in [ThreadRoot]. *)
Lemma dispatched_Ok_inv K1 K' :
  dispatched K1 = Ok K' →
  (continues_after_SWITCH K1 ∧ Schedule_tail K1 = Ok K')
  ∨ (begins_in_ThreadRoot K1 ∧ K' = InterruptEnable K1).
Proof.
  unfold dispatched. intros H. bind_inv H.
  apply deref_Ok_inv in Hstep as (c & Hc & Htc).
  destruct (PCState a) eqn:Hpc.
  - right. injection H as <-. split; [|done]. by exists c, a.
  - left. split; [|done]. by exists c, a.
Qed.

Lemma dispatched_continues c tc K1 :
  currentThread K1 = Some c →
  threadArray K1 !! c = Some (Live tc) →
  PCState tc = AfterSWITCH →
  dispatched K1 = Schedule_tail K1.
Proof.
  intros Hc Htc Hpc. unfold dispatched. rewrite Hc.
  rewrite (bind_Ok _ _ tc) by (by apply deref_Live). by rewrite Hpc.
Qed.

Lemma dispatched_begins c tc K1 :
  currentThread K1 = Some c →
  threadArray K1 !! c = Some (Live tc) →
  PCState tc = ThreadRoot →
  dispatched K1 = Ok (InterruptEnable K1).
Proof.
  intros Hc Htc Hpc. unfold dispatched. rewrite Hc.
  rewrite (bind_Ok _ _ tc) by (by apply deref_Live). by rewrite Hpc.
Qed.

(** Taking over the CPU changes at most the interrupt level. *)
Lemma arrived_fields tn S :
  threadArray (arrived tn S) = threadArray S
  ∧ readyThreadList (arrived tn S) = readyThreadList S
  ∧ currentThread (arrived tn S) = currentThread S
  ∧ threadToBeDestroyed (arrived tn S) = threadToBeDestroyed S
  ∧ sleepingThreadList (arrived tn S) = sleepingThreadList S
  ∧ sleepQueueHead (arrived tn S) = sleepQueueHead S.
Proof. unfold arrived. by destruct (PCState tn). Qed.

(** [Schedule] to another thread, with no thread pending destruction. *)
Lemma Schedule_Ok_none old told next tn K :
  currentThread K = Some old →
  threadArray K !! old = Some (Live told) →
  CheckOverflow told = Ok tt →
  threadArray K !! next = Some (Live tn) →
  threadToBeDestroyed K = None →
  old ≠ next →
  Schedule (Some next) K = Ok (arrived tn (switched old told next tn K)).
Proof.
  intros Hc Hold Hov Hn Htbd Hne. unfold Schedule.
  rewrite (bind_Ok _ _ _ (Schedule_switch_Ok old told next tn K Hc Hold Hov Hn)).
  destruct (switched_next old told next tn K) as (Hcs & tn' & Htn' & _ & _ & Hpc).
  rewrite decide_False in Hpc by done. unfold arrived.
  destruct (PCState tn) eqn:Hp.
  - by apply (dispatched_begins next tn').
  - rewrite (dispatched_continues next tn') by done.
    by apply Schedule_tail_none.
Qed.

(** [Schedule] to the calling thread itself: it continues behind its own
    [_SWITCH]. *)
(** [Schedule] to a thread that has never run: it begins in [_ThreadRoot],
    whatever [threadToBeDestroyed] holds. *)
Lemma Schedule_Ok_begins old told next tn K :
  currentThread K = Some old →
  threadArray K !! old = Some (Live told) →
  CheckOverflow told = Ok tt →
  threadArray K !! next = Some (Live tn) →
  old ≠ next →
  PCState tn = ThreadRoot →
  Schedule (Some next) K = Ok (InterruptEnable (switched old told next tn K)).
Proof.
  intros Hc Hold Hov Hn Hne Hp. unfold Schedule.
  rewrite (bind_Ok _ _ _ (Schedule_switch_Ok old told next tn K Hc Hold Hov Hn)).
  destruct (switched_next old told next tn K) as (Hcs & tn' & Htn' & _ & _ & Hpc).
  rewrite decide_False in Hpc by done.
  apply (dispatched_begins next tn'); [done|done|congruence].
Qed.


(** Liveness is kept by the code that runs before the context transfer. *)
Lemma assign_live p t K q : live K q → live (assign p t K) q.
Proof.
  intros [tq Hq]. unfold live, assign; simpl.
  destruct (decide (p = q)) as [->|Hne].
  - rewrite lookup_insert_eq. eauto.
  - rewrite lookup_insert_ne by done. eauto.
Qed.

Lemma Schedule_switch_live nextThread K K1 q :
  Schedule_switch nextThread K = Ok K1 → live K q → live K1 q.
Proof.
  intros H Hq.
  apply Schedule_switch_Ok_inv in H as (old & told & next & tn & _ & _ & _ & _ & _ & ->).
  unfold switched. by apply assign_live, assign_live.
Qed.

(** The wait loops end on a state whose ready list is not empty; any property
    that [Interrupt::Idle] maintains holds there. *)
Lemma sleep_wait_inv (P : Kernel → Prop) fuel K nextThread K1 :
  (∀ K K', P K → interrupt_Idle K = Some K' → P K') →
  P K →
  sleep_wait interrupt_Idle fuel K = Ok (nextThread, K1) →
  ∃ K0 h r, P K0 ∧ readyThreadList K0 = h :: r
    ∧ nextThread = Some h ∧ K1 = set_readyThreadList r K0.
Proof.
  intros HP. revert K. induction fuel as [|fuel IH]; intros K HK H.
  - simpl in H. unfold FindNextThreadToRun in H.
    destruct (readyThreadList K) as [|h r] eqn:Hr; simpl in H; [discriminate|].
    injection H as <- <-. exists K, h, r. done.
  - simpl in H. unfold FindNextThreadToRun in H.
    destruct (readyThreadList K) as [|h r] eqn:Hr; simpl in H.
    + destruct (interrupt_Idle (set_readyThreadList [] K)) as [K2|] eqn:HI;
        [|discriminate].
      apply (IH K2); [|done].
      apply (HP (set_readyThreadList [] K)); [|done].
      replace (set_readyThreadList [] K) with K; [done|].
      destruct K; simpl in *; by subst.
    + injection H as <- <-. exists K, h, r. done.
Qed.

Lemma exit_wait_inv (P : Kernel → Prop) fuel terminateSim K nextThread K1 :
  (∀ K K', P K → interrupt_Idle K = Some K' → P K') →
  P K →
  exit_wait interrupt_Idle fuel terminateSim K = Ok (nextThread, K1) →
  ∃ K0 h r, P K0 ∧ readyThreadList K0 = h :: r
    ∧ nextThread = Some h ∧ K1 = set_readyThreadList r K0.
Proof.
  intros HP. revert K. induction fuel as [|fuel IH]; intros K HK H.
  - simpl in H. unfold FindNextThreadToRun in H.
    destruct (readyThreadList K) as [|h r] eqn:Hr; simpl in H; [discriminate|].
    injection H as <- <-. exists K, h, r. done.
  - simpl in H. unfold FindNextThreadToRun in H.
    destruct (readyThreadList K) as [|h r] eqn:Hr; simpl in H.
    + destruct terminateSim; [discriminate|].
      destruct (interrupt_Idle (set_readyThreadList [] K)) as [K2|] eqn:HI;
        [|discriminate].
      apply (IH K2); [|done].
      apply (HP (set_readyThreadList [] K)); [|done].
      replace (set_readyThreadList [] K) with K; [done|].
      destruct K; simpl in *; by subst.
    + injection H as <- <-. exists K, h, r. done.
Qed.

(** With a thread ready, the wait loops return it at once, whatever the
    fuel. *)
Lemma sleep_wait_ready fuel K h r :
  readyThreadList K = h :: r →
  sleep_wait interrupt_Idle fuel K = Ok (Some h, set_readyThreadList r K).
Proof.
  intros Hr. destruct fuel; simpl; unfold FindNextThreadToRun; by rewrite Hr.
Qed.

Lemma exit_wait_ready fuel terminateSim K h r :
  readyThreadList K = h :: r →
  exit_wait interrupt_Idle fuel terminateSim K
  = Ok (Some h, set_readyThreadList r K).
Proof.
  intros Hr. destruct fuel; simpl; unfold FindNextThreadToRun; by rewrite Hr.
Qed.

End dispatch_facts.

(** ** The sleeping list and the ready list *)

Section list_facts.

Implicit Types (l pre post : list Z) (K : Kernel) (thread start s : Z).

Lemma set_sleepingThreadList_id K :
  set_sleepingThreadList (sleepingThreadList K) K = K.
Proof. by destruct K. Qed.

Lemma RemoveSleepingThread_loop_finds fuel start thread pre post :
  start ∉ pre → thread ∉ pre →
  (length pre < fuel)%nat →
  RemoveSleepingThread_loop fuel start thread (pre ++ thread :: post)
  = Ok (Some thread, post ++ pre).
Proof.
  revert fuel post. induction pre as [|x pre IH]; intros fuel post Hs Ht Hf.
  - destruct fuel as [|fuel]; [simpl in Hf; lia|]. simpl.
    rewrite decide_True by done. by rewrite app_nil_r.
  - destruct fuel as [|fuel]; [simpl in Hf; lia|]. simpl.
    apply not_elem_of_cons in Hs as [Hsx Hs].
    apply not_elem_of_cons in Ht as [Htx Ht].
    rewrite decide_False by congruence.
    rewrite decide_True by congruence.
    unfold List_Append. rewrite <- app_assoc. simpl.
    rewrite IH by (auto; simpl in Hf; lia).
    by rewrite <- app_assoc.
Qed.

(** The scan on a list without repetitions that holds [thread]: the thread
    is returned, and the entries in front of it have moved behind the
    others. *)
Lemma RemoveSleepingThread_list_found fuel thread pre post :
  NoDup (pre ++ thread :: post) →
  (length pre ≤ fuel)%nat →
  RemoveSleepingThread_list fuel thread (pre ++ thread :: post)
  = Ok (Some thread, post ++ pre).
Proof.
  intros Hnd Hf. unfold RemoveSleepingThread_list.
  destruct pre as [|s pre].
  - simpl. rewrite decide_True by done. by rewrite app_nil_r.
  - simpl in *. apply NoDup_cons in Hnd as [Hs Hnd].
    apply NoDup_app in Hnd as (_ & Hdis & _).
    assert (Hts : thread ≠ s).
    { intros ->. apply Hs. apply elem_of_app. right. left. }
    assert (Htp : thread ∉ pre).
    { intros Hin. apply (Hdis thread Hin). left. }
    assert (Hsp : s ∉ pre).
    { intros Hin. apply Hs. apply elem_of_app. by left. }
    rewrite decide_False by congruence.
    unfold List_Append. rewrite <- app_assoc. simpl.
    rewrite RemoveSleepingThread_loop_finds by (auto; lia).
    by rewrite <- app_assoc.
Qed.

(** X1.  [RemoveSleepingThread] for a thread that is not on a non-empty
    sleeping list: within [length] iterations the scan is back at the entry
    it started from, the answer is [NULL], and the list holds the same
    threads as before (in rotated order); nothing else changes. *)
Theorem RemoveSleepingThread_not_found fuel thread K :
  sleepingThreadList K ≠ [] →
  thread ∉ sleepingThreadList K →
  (length (sleepingThreadList K) ≤ fuel)%nat →
  ∃ l', RemoveSleepingThread fuel thread K
        = Ok (None, set_sleepingThreadList l' K)
      ∧ l' ≡ₚ sleepingThreadList K.
Proof.
  intros Hne Hnot Hf.
  destruct (RemoveSleepingThread_absent fuel thread _ Hne Hnot Hf)
    as (l' & Hl & Hp).
  exists l'. split; [|done]. unfold RemoveSleepingThread. by rewrite Hl.
Qed.

(** X2.  [RemoveSleepingThread] for a thread that is on a sleeping list
    without repetitions returns that thread and takes exactly its entry off
    the list: the entries that were in front of it end up behind the
    others, and the thread is no longer on the list. *)
Theorem RemoveSleepingThread_found fuel thread K :
  NoDup (sleepingThreadList K) →
  thread ∈ sleepingThreadList K →
  (length (sleepingThreadList K) ≤ fuel)%nat →
  ∃ pre post,
    sleepingThreadList K = pre ++ thread :: post
    ∧ RemoveSleepingThread fuel thread K
      = Ok (Some thread, set_sleepingThreadList (post ++ pre) K)
    ∧ (thread ∉ post ++ pre)
    ∧ thread :: post ++ pre ≡ₚ sleepingThreadList K.
Proof.
  intros Hnd Hin Hf.
  apply list_elem_of_split in Hin as (pre & post & Heq).
  exists pre, post. split; [done|].
  rewrite Heq in Hnd, Hf. rewrite length_app in Hf.
  split; [|split].
  - unfold RemoveSleepingThread. rewrite Heq.
    rewrite RemoveSleepingThread_list_found by (done || lia). done.
  - apply NoDup_app in Hnd as (_ & Hdis & Hnd2).
    apply NoDup_cons in Hnd2 as [Hp _].
    intros Hx. apply elem_of_app in Hx as [Hx|Hx]; [done|].
    apply (Hdis thread Hx). left.
  - rewrite Heq. rewrite (Permutation_app_comm post pre).
    by rewrite Permutation_middle.
Qed.

(** X3.  Putting a thread on the sleeping list and taking it off again
    gives the thread back and restores the kernel state, when the list has
    no repetitions and did not hold the thread. *)
Theorem InsertSleepingThread_RemoveSleepingThread fuel thread K :
  NoDup (sleepingThreadList K) →
  thread ∉ sleepingThreadList K →
  (length (sleepingThreadList K) ≤ fuel)%nat →
  IsSleepingListEmpty (InsertSleepingThread thread K) = false
  ∧ RemoveSleepingThread fuel thread (InsertSleepingThread thread K)
    = Ok (Some thread, K).
Proof.
  intros Hnd Hnot Hf. split.
  - unfold IsSleepingListEmpty, InsertSleepingThread, List_Append. simpl.
    by destruct (sleepingThreadList K).
  - unfold RemoveSleepingThread, InsertSleepingThread, List_Append. simpl.
    change (sleepingThreadList K ++ [thread])
      with (sleepingThreadList K ++ thread :: []).
    rewrite RemoveSleepingThread_list_found; [|  |done].
    + simpl. f_equal. f_equal. by apply Kernel_eq.
    + apply NoDup_app. split; [done|]. split; [|apply NoDup_singleton].
      intros x Hx Hx'. apply list_elem_of_singleton in Hx'. by subst.
Qed.

(** X4.  The scan compares pids with the entry it started from: when that
    entry occurs a second time in front of the wanted thread, the scan stops
    there and answers [NULL] although the thread is on the list, and the
    thread stays on it. *)
Theorem RemoveSleepingThread_stops_at_repeated_head fuel thread s pre post K :
  sleepingThreadList K = s :: pre ++ s :: post →
  thread ∈ post →
  thread ≠ s → thread ∉ pre → s ∉ pre →
  (length pre < fuel)%nat →
  ∃ l', RemoveSleepingThread fuel thread K
        = Ok (None, set_sleepingThreadList l' K)
      ∧ thread ∈ l'.
Proof.
  intros Heq Hin Hts Htp Hsp Hf.
  exists ((post ++ [s]) ++ pre ++ [s]). split.
  - unfold RemoveSleepingThread, RemoveSleepingThread_list. rewrite Heq. simpl.
    rewrite decide_False by congruence.
    unfold List_Append. rewrite <- app_assoc. simpl.
    change (pre ++ s :: post ++ [s]) with (pre ++ s :: (post ++ [s])).
    rewrite RemoveSleepingThread_loop_rotates by done. done.
  - apply elem_of_app. left. apply elem_of_app. by left.
Qed.

(** *** First in, first out *)

Lemma find_next_all_take n K :
  find_next_all n K = take n (readyThreadList K).
Proof.
  revert K. induction n as [|n IH]; intros K; simpl; [done|].
  unfold FindNextThreadToRun.
  destruct (readyThreadList K) as [|p r] eqn:Hr; simpl; [done|].
  by rewrite IH.
Qed.

Lemma ready_all_effect ts K :
  Forall (live K) ts →
  ∃ K', ready_all ts K = Ok K'
      ∧ readyThreadList K' = readyThreadList K ++ ts
      ∧ (∀ p, p ∈ ts → status_of K' p = Some READY)
      ∧ (∀ p, p ∉ ts → threadArray K' !! p = threadArray K !! p)
      ∧ (∀ p, live K p → live K' p).
Proof.
  revert K. induction ts as [|q ts IH]; intros K Hall.
  - exists K. simpl. rewrite app_nil_r. repeat split; try done.
    intros p Hp. by apply elem_of_nil in Hp.
  - apply Forall_cons in Hall as [[tq Hq] Hall]. simpl.
    rewrite (ThreadIsReadyToRun_Ok q tq K Hq). simpl.
    set (K1 := set_readyThreadList (readyThreadList K ++ [q])
                 (assign q (setStatus READY tq) K)).
    assert (Hl1 : ∀ p, live K p → live K1 p).
    { intros p Hp. unfold K1. by apply assign_live. }
    destruct (IH K1) as (K' & HK' & Hr & Hst & Hoth & Hlive).
    { eapply Forall_impl; [exact Hall|]. apply Hl1. }
    exists K'. split; [done|]. split; [|split; [|split]].
    + rewrite Hr. unfold K1; simpl. by rewrite <- app_assoc.
    + intros p Hp. destruct (decide (p ∈ ts)) as [Hin|Hnin]; [by apply Hst|].
      apply elem_of_cons in Hp as [->|Hp]; [|done].
      unfold status_of. rewrite (Hoth q Hnin). unfold K1; simpl.
      by rewrite lookup_insert_eq.
    + intros p Hp. apply not_elem_of_cons in Hp as [Hne Hp].
      rewrite (Hoth p Hp). unfold K1; simpl. by rewrite lookup_insert_ne.
    + intros p Hp. by apply Hlive, Hl1.
Qed.

(** X5.  The ready list is first in, first out: threads made ready one
    after the other on an empty ready list all become [READY], and
    [FindNextThreadToRun] hands them out in the order in which they were
    made ready, then answers [NULL]. *)
Theorem ready_list_is_fifo ts K :
  readyThreadList K = [] →
  Forall (live K) ts →
  ∃ K', ready_all ts K = Ok K'
      ∧ (∀ p, p ∈ ts → status_of K' p = Some READY)
      ∧ (∀ n, (length ts ≤ n)%nat → find_next_all n K' = ts).
Proof.
  intros Hr Hall.
  destruct (ready_all_effect ts K Hall) as (K' & HK' & Hr' & Hst & _).
  exists K'. split; [done|]. split; [done|].
  intros n Hn. rewrite find_next_all_take, Hr', Hr. simpl.
  by apply take_ge.
Qed.

End list_facts.

(** ** [YieldCPU] *)

Section yield_facts.

Context {arith : PredictionArith}.
Variable MAX_THREAD_COUNT : nat.

Implicit Types (K : Kernel) (t : NachOSThread) (p this next : Z).

Lemma setStatus_same t : setStatus (status t) t = t.
Proof. by destruct t. Qed.

Lemma setStatus_twice s s' t : setStatus s (setStatus s' t) = setStatus s t.
Proof. done. Qed.






Lemma CheckOverflow_stack t t' :
  stack t' = stack t → CheckOverflow t' = CheckOverflow t.
Proof. unfold CheckOverflow. by intros ->. Qed.




End yield_facts.

(** ** Parent and child: [SetChildExitCode], [Exit], [JoinWithChild] *)

Section children_facts.

Context {arith : PredictionArith}.
Variable MAX_THREAD_COUNT : nat.
Variable interrupt_Idle : Kernel → option Kernel.

Implicit Types (K : Kernel) (t tp : NachOSThread) (p this parent : Z).

(** The search stops on the first slot that holds [childpid], or runs to
    the end. *)
Lemma find_child_range n i childpid a :
  i ≤ find_child n i childpid a ≤ i + Z.of_nat n.
Proof.
  revert i. induction n as [|n IH]; intros i; simpl; [lia|].
  destruct (decide (childpid = a i)); [lia|].
  specialize (IH (i + 1)). lia.
Qed.

Lemma find_child_found n i childpid a :
  find_child n i childpid a < i + Z.of_nat n →
  a (find_child n i childpid a) = childpid.
Proof.
  revert i. induction n as [|n IH]; intros i; simpl; [lia|].
  destruct (decide (childpid = a i)); [done|].
  intros H. apply IH. lia.
Qed.

Lemma SetChildExitCode_Ok parent tp childpid ecode K :
  threadArray K !! parent = Some (Live tp) →
  slot_of tp childpid < childcount tp →
  SetChildExitCode parent childpid ecode K
  = Ok (if decide (waitchild_id tp = slot_of tp childpid)
        then
          set_readyThreadList (readyThreadList K ++ [parent])
            (assign parent
               (setStatus READY
                  (set_waitchild_id (-1) (recorded (slot_of tp childpid) ecode tp)))
               K)
        else assign parent (recorded (slot_of tp childpid) ecode tp) K).
Proof.
  intros Htp Hi. unfold SetChildExitCode.
  rewrite (bind_Ok _ _ tp) by (by apply deref_Live).
  fold (slot_of tp childpid).
  rewrite (bind_Ok _ _ tt) by (apply ASSERT_true, bool_decide_eq_true_2; done).
  cbn [waitchild_id set_exitedChild set_childexitcode].
  destruct (decide (waitchild_id tp = slot_of tp childpid)); [|reflexivity].
  erewrite ThreadIsReadyToRun_Ok by (simpl; apply lookup_insert_eq).
  simpl. f_equal. apply Kernel_eq; simpl; try done.
  by rewrite !insert_insert_eq.
Qed.

(** [Exit] up to the parent block: the statistics are updated, the thread
    is marked for destruction and [BLOCKED]. *)
Lemma Exit_prefix fuel this t terminateSim exitcode K :
  currentThread K = Some this →
  threadArray K !! this = Some (Live t) →
  wrap32 (totalTicks K - startTime t) ≠ 0 →
  ∃ Ku,
    UpdateStats MAX_THREAD_COUNT this (set_intLevel IntOff K) = Ok Ku
    ∧ Exit MAX_THREAD_COUNT interrupt_Idle fuel this terminateSim exitcode K
      = (K1 ← Exit_set_parent_code this (burst_recorded K t) exitcode
               (assign this (setStatus BLOCKED (burst_recorded K t))
                  (set_threadToBeDestroyed (Some this) Ku));
         '(nextThread, K0) ← exit_wait interrupt_Idle fuel terminateSim K1;
         Schedule nextThread K0).
Proof.
  intros Hc Ht Hdiv.
  pose proof (UpdateStats_Ok MAX_THREAD_COUNT this t (set_intLevel IntOff K) Hc Ht) as HU.
  destruct (UpdateStats_effect _ _ _ _ HU)
    as (t0 & _ & Ht0 & (Hcu & _ & _ & _ & _ & _ & Hticks & _) & Hau).
  simpl in Ht0. assert (t0 = t) as -> by congruence.
  change (burst_recorded (set_intLevel IntOff K) t) with (burst_recorded K t) in Hau.
  eexists. split; [exact HU|].
  unfold Exit.
  rewrite (bind_Ok _ _ tt) by (apply ASSERT_true, bool_decide_eq_true_2; done).
  rewrite (bind_Ok _ _ _ HU).
  rewrite Hcu. simpl currentThread. rewrite Hc.
  rewrite (bind_Ok _ _ (burst_recorded K t))
    by (apply deref_Live; rewrite Hau; apply lookup_insert_eq).
  rewrite Hticks. simpl totalTicks. rewrite burst_recorded_startTime.
  destruct (decide (wrap32 (totalTicks K - startTime t) = 0)); [done|].
  reflexivity.
Qed.

(** C9.  An exiting thread [this] whose object names a parent.
    - If the parent has exited ([exitThreadArray[ppid]]), [Exit] goes on to
      the dispatch with the parent's object and the ready list untouched.
    - If the parent has not exited, [Exit] writes [exitcode] and the exited
      flag into the parent's slot for this child before the dispatch; a
      parent that waits on exactly this slot gets [waitchild_id = -1], status
      [READY] and the tail of the ready list, any other parent keeps its
      status and is not put on the ready list. *)
Theorem Exit_records_exit_code fuel this t parent terminateSim exitcode K :
  currentThread K = Some this →
  threadArray K !! this = Some (Live t) →
  ppid t = parent → parent ≠ -1 → parent ≠ this →
  wrap32 (totalTicks K - startTime t) ≠ 0 →
  (exitThreadArray K parent = true →
   is_Some (threadArray K !! parent) →
   ∃ Ks,
     Exit MAX_THREAD_COUNT interrupt_Idle fuel this terminateSim exitcode K
     = ('(nextThread, K0) ← exit_wait interrupt_Idle fuel terminateSim Ks;
        Schedule nextThread K0)
     ∧ threadArray Ks !! parent = threadArray K !! parent
     ∧ readyThreadList Ks = readyThreadList K)
  ∧ (∀ tp,
       exitThreadArray K parent = false →
       threadArray K !! parent = Some (Live tp) →
       slot_of tp this < childcount tp →
       ∃ Kn tp',
         Exit MAX_THREAD_COUNT interrupt_Idle fuel this terminateSim exitcode K
         = ('(nextThread, K0) ← exit_wait interrupt_Idle fuel terminateSim Kn;
            Schedule nextThread K0)
         ∧ threadArray Kn !! parent = Some (Live tp')
         ∧ childpidArray tp (slot_of tp this) = this
         ∧ childexitcode tp' (slot_of tp this) = exitcode
         ∧ exitedChild tp' (slot_of tp this) = true
         ∧ (waitchild_id tp = slot_of tp this →
              status tp' = READY ∧ waitchild_id tp' = -1
              ∧ readyThreadList Kn = readyThreadList K ++ [parent])
         ∧ (waitchild_id tp ≠ slot_of tp this →
              status tp' = status tp ∧ waitchild_id tp' = waitchild_id tp
              ∧ readyThreadList Kn = readyThreadList K)).
Proof.
  intros Hc Ht Hpp Hp1 Hpt Hdiv.
  destruct (Exit_prefix fuel this t terminateSim exitcode K Hc Ht Hdiv)
    as (Ku & HU & HE).
  destruct (UpdateStats_effect _ _ _ _ HU)
    as (t0 & _ & Ht0 & (_ & _ & Hru & _ & _ & _ & _ & _ & Hex & _) & Hau).
  simpl in Ht0. assert (t0 = t) as -> by congruence.
  change (burst_recorded (set_intLevel IntOff K) t) with (burst_recorded K t) in Hau.
  simpl in Hru, Hex.
  destruct (burst_recorded_status K t) as (_ & _ & Hppu & _).
  set (Ks := assign this (setStatus BLOCKED (burst_recorded K t))
               (set_threadToBeDestroyed (Some this) Ku)) in *.
  assert (Hlk : threadArray Ks !! parent = threadArray K !! parent).
  { unfold Ks, assign; simpl. rewrite Hau.
    by rewrite !lookup_insert_ne by done. }
  assert (Hblock : ∀ K1,
    (if negb (exitThreadArray K parent)
     then SetChildExitCode parent this exitcode Ks else Ok Ks) = Ok K1 →
    is_Some (threadArray K !! parent) →
    Exit MAX_THREAD_COUNT interrupt_Idle fuel this terminateSim exitcode K
    = ('(nextThread, K0) ← exit_wait interrupt_Idle fuel terminateSim K1;
       Schedule nextThread K0)).
  { intros K1 HK1 Hsome. rewrite HE. unfold Exit_set_parent_code.
    rewrite Hppu, Hpp. rewrite decide_True by done.
    rewrite (bind_Ok _ _ tt)
      by (apply ASSERT_true, bool_decide_eq_true_2; by rewrite Hlk).
    replace (exitThreadArray Ks parent) with (exitThreadArray K parent)
      by (unfold Ks; simpl; by rewrite Hex).
    by rewrite HK1. }
  split.
  - intros Hexited Hsome. exists Ks. split; [|split; [done|]].
    + apply Hblock; [|done]. by rewrite Hexited.
    + unfold Ks; simpl. done.
  - intros tp Hlive Htp Hslot.
    assert (Htps : threadArray Ks !! parent = Some (Live tp)) by congruence.
    pose proof (SetChildExitCode_Ok parent tp this exitcode Ks Htps Hslot) as HS.
    exists (if decide (waitchild_id tp = slot_of tp this)
            then set_readyThreadList (readyThreadList Ks ++ [parent])
                   (assign parent
                      (setStatus READY
                         (set_waitchild_id (-1)
                            (recorded (slot_of tp this) exitcode tp))) Ks)
            else assign parent (recorded (slot_of tp this) exitcode tp) Ks),
           (if decide (waitchild_id tp = slot_of tp this)
            then setStatus READY
                   (set_waitchild_id (-1) (recorded (slot_of tp this) exitcode tp))
            else recorded (slot_of tp this) exitcode tp).
    split; [|split; [|split]].
    + apply Hblock; [|by rewrite Htp]. rewrite Hlive. simpl. exact HS.
    + destruct (decide (waitchild_id tp = slot_of tp this)); simpl;
        apply lookup_insert_eq.
    + apply find_child_found. unfold slot_of in Hslot. lia.
    + destruct (decide (waitchild_id tp = slot_of tp this)) as [Hw|Hw];
        simpl; unfold store; rewrite !decide_True by done;
        (repeat split; try done); unfold Ks; simpl; by rewrite Hru.
Qed.

(** [PutThreadToSleep] with a thread [h] at the head of the ready list and
    no thread pending destruction: the caller ends [BLOCKED] and [h] is
    dispatched. *)
Lemma PutThreadToSleep_Ok fuel this t h r th K :
  currentThread K = Some this →
  intLevel K = IntOff →
  threadArray K !! this = Some (Live t) →
  CheckOverflow t = Ok tt →
  readyThreadList K = h :: r → h ≠ this →
  threadArray K !! h = Some (Live th) →
  threadToBeDestroyed K = None →
  ∃ Ku,
    UpdateStats MAX_THREAD_COUNT this K = Ok Ku
    ∧ PutThreadToSleep MAX_THREAD_COUNT interrupt_Idle fuel this K
      = Ok (arrived th
              (switched this
                 (setStatus BLOCKED
                    (set_sleepstartTime (wrap32 (totalTicks K))
                       (burst_recorded K t)))
                 h th
                 (set_readyThreadList r
                    (assign this
                       (setStatus BLOCKED
                          (set_sleepstartTime (wrap32 (totalTicks K))
                             (burst_recorded K t)))
                       Ku)))).
Proof.
  intros Hc Hl Ht Hov Hr Hne Hth Htbd.
  pose proof (UpdateStats_Ok MAX_THREAD_COUNT this t K Hc Ht) as HU.
  destruct (UpdateStats_effect _ _ _ _ HU)
    as (t0 & _ & Ht0 & (Hcu & Htbdu & Hru & _ & _ & _ & Hticks & _) & Hau).
  assert (t0 = t) as -> by congruence.
  destruct (burst_recorded_status K t) as (_ & _ & _ & Hsk).
  eexists. split; [exact HU|].
  unfold PutThreadToSleep.
  rewrite (bind_Ok _ _ tt) by (apply ASSERT_true, bool_decide_eq_true_2; done).
  rewrite (bind_Ok _ _ tt) by (apply ASSERT_true, bool_decide_eq_true_2; done).
  rewrite (bind_Ok _ _ _ HU).
  rewrite (bind_Ok _ _ (burst_recorded K t))
    by (apply deref_Live; rewrite Hau; apply lookup_insert_eq).
  rewrite Hticks.
  match goal with
  | |- sleep_wait _ _ ?Kb ≫= _ = _ =>
      assert (Hrb : readyThreadList Kb = h :: r) by (simpl; congruence);
      rewrite (bind_Ok _ _ _ (sleep_wait_ready interrupt_Idle fuel Kb h r Hrb))
  end.
  apply (Schedule_Ok_none this
           (setStatus BLOCKED
              (set_sleepstartTime (wrap32 (totalTicks K)) (burst_recorded K t)))
           h th);
    [ simpl; congruence | simpl; apply lookup_insert_eq
    | rewrite <- Hov; by apply CheckOverflow_stack
    | simpl; rewrite lookup_insert_ne by done; rewrite Hau;
      by rewrite lookup_insert_ne by done
    | simpl; congruence | done ].
Qed.

(** What the state that [PutThreadToSleep_Ok] gives shows of the caller,
    which went to sleep with the object [tb], and of the thread [h] that was
    dispatched. *)
Lemma slept_view this tb h th r Ku :
  h ≠ this →
  let K' := arrived th
              (switched this tb h th (set_readyThreadList r (assign this tb Ku))) in
  threadArray K' !! this = Some (Live (set_PCState AfterSWITCH tb))
  ∧ currentThread K' = Some h
  ∧ status_of K' h = Some RUNNING
  ∧ readyThreadList K' = r
  ∧ sleepQueueHead K' = sleepQueueHead Ku
  ∧ sleepingThreadList K' = sleepingThreadList Ku
  ∧ threadToBeDestroyed K' = threadToBeDestroyed Ku.
Proof.
  intros Hne K'.
  destruct (arrived_fields th
              (switched this tb h th (set_readyThreadList r (assign this tb Ku))))
    as (Ha & Hr & Hc & Hp & Hs & Hq).
  unfold K'. split; [rewrite Ha; by apply switched_old|].
  split; [by rewrite Hc|]. split.
  { unfold status_of. rewrite Ha. unfold switched. simpl.
    rewrite decide_False by done.
    rewrite lookup_insert_ne by done. by rewrite lookup_insert_eq. }
  split; [by rewrite Hr|]. split; [by rewrite Hq|]. split; [by rewrite Hs|].
  by rewrite Hp.
Qed.


End children_facts.

(** ** Child bookkeeping: lookup, recording and joining *)

Section child_lookup_facts.

Context {arith : PredictionArith}.
Variable MAX_THREAD_COUNT : nat.
Variable interrupt_Idle : Kernel → option Kernel.

Implicit Types (K : Kernel) (t tp : NachOSThread) (p this parent : Z).

Lemma find_child_first n i childpid a j :
  i ≤ j < find_child n i childpid a → a j ≠ childpid.
Proof.
  revert i. induction n as [|n IH]; intros i; simpl; [lia|].
  destruct (decide (childpid = a i)) as [Heq|Hne]; [lia|].
  intros Hj. destruct (decide (j = i)) as [->|Hji]; [congruence|].
  apply (IH (i + 1)). lia.
Qed.

Lemma slot_of_spec tp childpid :
  0 ≤ childcount tp →
  0 ≤ slot_of tp childpid ≤ childcount tp
  ∧ (slot_of tp childpid < childcount tp →
       childpidArray tp (slot_of tp childpid) = childpid)
  ∧ (∀ j, 0 ≤ j < slot_of tp childpid → childpidArray tp j ≠ childpid).
Proof.
  intros Hc. unfold slot_of.
  pose proof (find_child_range (Z.to_nat (childcount tp)) 0 childpid
                (childpidArray tp)) as Hr.
  split; [lia|]. split.
  - intros Hlt. apply find_child_found. lia.
  - intros j Hj. by apply (find_child_first (Z.to_nat (childcount tp)) 0).
Qed.

(** X6.  [CheckIfChild] answers the first slot among the [childcount]
    registered ones that holds [childpid], and [-1] exactly when no
    registered slot holds it. *)
Theorem CheckIfChild_spec this t childpid K :
  threadArray K !! this = Some (Live t) →
  0 ≤ childcount t →
  ∃ r, CheckIfChild this childpid K = Ok r
     ∧ ((r = -1
         ∧ ∀ j, 0 ≤ j < childcount t → childpidArray t j ≠ childpid)
        ∨ (0 ≤ r < childcount t
           ∧ childpidArray t r = childpid
           ∧ ∀ j, 0 ≤ j < r → childpidArray t j ≠ childpid)).
Proof.
  intros Ht Hc. destruct (slot_of_spec t childpid Hc) as (Hr & Hfound & Hfirst).
  unfold CheckIfChild. rewrite (bind_Ok _ _ t) by (by apply deref_Live).
  fold (slot_of t childpid).
  destruct (decide (slot_of t childpid = childcount t)) as [Heq|Hne].
  - exists (-1). split; [done|]. left. split; [done|].
    intros j Hj. apply Hfirst. lia.
  - exists (slot_of t childpid). split; [done|]. right.
    split; [lia|]. split; [apply Hfound; lia|done].
Qed.

(** X7.  [SetChildExitCode] for a pid that is in none of the registered
    slots of the parent fails its assertion [i < childcount]: no exit code
    is written. *)
Theorem SetChildExitCode_unregistered parent tp childpid ecode K :
  threadArray K !! parent = Some (Live tp) →
  0 ≤ childcount tp →
  (∀ j, 0 ≤ j < childcount tp → childpidArray tp j ≠ childpid) →
  SetChildExitCode parent childpid ecode K = Abort AssertionFailed.
Proof.
  intros Htp Hc Hnone.
  destruct (slot_of_spec tp childpid Hc) as (Hr & Hfound & _).
  assert (Hs : slot_of tp childpid = childcount tp).
  { destruct (decide (slot_of tp childpid < childcount tp)) as [Hlt|]; [|lia].
    exfalso. apply (Hnone (slot_of tp childpid)); [lia|]. by apply Hfound. }
  unfold SetChildExitCode. rewrite (bind_Ok _ _ tp) by (by apply deref_Live).
  fold (slot_of tp childpid). rewrite Hs.
  rewrite bool_decide_eq_false_2 by lia. done.
Qed.

Lemma SetChildExitCode_Ok_inv parent childpid ecode K K' :
  SetChildExitCode parent childpid ecode K = Ok K' →
  ∃ tp, threadArray K !! parent = Some (Live tp)
      ∧ slot_of tp childpid < childcount tp
      ∧ K' = (if decide (waitchild_id tp = slot_of tp childpid)
              then
                set_readyThreadList (readyThreadList K ++ [parent])
                  (assign parent
                     (setStatus READY
                        (set_waitchild_id (-1)
                           (recorded (slot_of tp childpid) ecode tp)))
                     K)
              else assign parent (recorded (slot_of tp childpid) ecode tp) K).
Proof.
  intros HS.
  assert (∃ tp, threadArray K !! parent = Some (Live tp)
     ∧ slot_of tp childpid < childcount tp) as (tp & Htp & Hslot).
  { unfold SetChildExitCode in HS. bind_inv HS.
    apply deref_Ok_inv in Hstep as (pid & [= <-] & Htp).
    assert_inv HS. eauto. }
  exists tp. split; [done|]. split; [done|].
  rewrite (SetChildExitCode_Ok parent tp childpid ecode K Htp Hslot) in HS.
  by injection HS as <-.
Qed.

(** X8.  An exit code recorded by [SetChildExitCode] is found again: after a
    successful call, [CheckIfChild] answers the slot of the child, and
    [JoinWithChild] on that slot returns the recorded code at once, without
    touching the state. *)
Theorem SetChildExitCode_then_JoinWithChild fuel parent childpid ecode K K' :
  SetChildExitCode parent childpid ecode K = Ok K' →
  ∃ slot,
    0 ≤ slot
    ∧ CheckIfChild parent childpid K' = Ok slot
    ∧ JoinWithChild MAX_THREAD_COUNT interrupt_Idle fuel parent slot K'
      = Ok (JoinReturned ecode K').
Proof.
  intros HS.
  apply SetChildExitCode_Ok_inv in HS as (tp & Htp & Hslot & ->).
  pose proof (find_child_range (Z.to_nat (childcount tp)) 0 childpid
                (childpidArray tp)) as Hrange. fold (slot_of tp childpid) in Hrange.
  exists (slot_of tp childpid). split; [lia|].
  set (tp1 := recorded (slot_of tp childpid) ecode tp).
  assert (∃ tp', threadArray
            (if decide (waitchild_id tp = slot_of tp childpid)
             then set_readyThreadList (readyThreadList K ++ [parent])
                    (assign parent (setStatus READY (set_waitchild_id (-1) tp1)) K)
             else assign parent tp1 K) !! parent = Some (Live tp')
          ∧ childcount tp' = childcount tp
          ∧ childpidArray tp' = childpidArray tp
          ∧ exitedChild tp' (slot_of tp childpid) = true
          ∧ childexitcode tp' (slot_of tp childpid) = ecode)
    as (tp' & Htp' & Hcc & Hca & Hex & Hcode).
  { destruct (decide _); eexists; (split; [simpl; apply lookup_insert_eq|]);
      simpl; unfold store; rewrite !decide_True by done; done. }
  split.
  - unfold CheckIfChild. rewrite (bind_Ok _ _ tp') by (by apply deref_Live).
    rewrite Hcc, Hca. fold (slot_of tp childpid).
    rewrite decide_False by lia. done.
  - unfold JoinWithChild. rewrite (bind_Ok _ _ tp') by (by apply deref_Live).
    rewrite Hex. simpl. by rewrite Hcode.
Qed.

(** [Schedule] to another thread that continues behind [_SWITCH], with the
    thread [d] pending destruction. *)
Lemma Schedule_Ok_some old told next tn d K :
  currentThread K = Some old →
  threadArray K !! old = Some (Live told) →
  CheckOverflow told = Ok tt →
  threadArray K !! next = Some (Live tn) →
  old ≠ next →
  PCState tn = AfterSWITCH →
  threadToBeDestroyed K = Some d →
  d ≠ next →
  live K d →
  Schedule (Some next) K
  = Ok (set_threadToBeDestroyed None
          (set_threadArray
             (<[d := Freed]> (threadArray (switched old told next tn K)))
             (switched old told next tn K))).
Proof.
  intros Hc Hold Hov Hn Hne Hpc Htbd Hdn Hd. unfold Schedule.
  rewrite (bind_Ok _ _ _ (Schedule_switch_Ok old told next tn K Hc Hold Hov Hn)).
  destruct (switched_next old told next tn K) as (Hcs & tn' & Htn' & _ & _ & Hpc').
  rewrite decide_False in Hpc' by done.
  rewrite (dispatched_continues next tn') by congruence.
  pose proof (Schedule_switch_live (Some next) K _ d
                (Schedule_switch_Ok old told next tn K Hc Hold Hov Hn) Hd)
    as [td' Htd'].
  apply (Schedule_tail_some d td'); [done|done|].
  rewrite Hcs. congruence.
Qed.

(** [Exit] of a child whose parent has not exited, up to the wait loop. *)
Lemma Exit_with_live_parent fuel this t parent tp terminateSim exitcode K :
  currentThread K = Some this →
  threadArray K !! this = Some (Live t) →
  ppid t = parent → parent ≠ -1 → parent ≠ this →
  wrap32 (totalTicks K - startTime t) ≠ 0 →
  exitThreadArray K parent = false →
  threadArray K !! parent = Some (Live tp) →
  slot_of tp this < childcount tp →
  ∃ Ku,
    UpdateStats MAX_THREAD_COUNT this (set_intLevel IntOff K) = Ok Ku
    ∧ Exit MAX_THREAD_COUNT interrupt_Idle fuel this terminateSim exitcode K
      = ('(nextThread, K0) ←
           exit_wait interrupt_Idle fuel terminateSim
             (if decide (waitchild_id tp = slot_of tp this)
              then
                set_readyThreadList (readyThreadList Ku ++ [parent])
                  (assign parent
                     (setStatus READY
                        (set_waitchild_id (-1)
                           (recorded (slot_of tp this) exitcode tp)))
                     (assign this (setStatus BLOCKED (burst_recorded K t))
                        (set_threadToBeDestroyed (Some this) Ku)))
              else
                assign parent (recorded (slot_of tp this) exitcode tp)
                  (assign this (setStatus BLOCKED (burst_recorded K t))
                     (set_threadToBeDestroyed (Some this) Ku)));
         Schedule nextThread K0).
Proof.
  intros Hc Ht Hpp Hp1 Hpt Hdiv Hlive Htp Hslot.
  destruct (Exit_prefix MAX_THREAD_COUNT interrupt_Idle fuel this t terminateSim
              exitcode K Hc Ht Hdiv) as (Ku & HU & HE).
  destruct (UpdateStats_effect _ _ _ _ HU)
    as (t0 & _ & Ht0 & (_ & _ & Hru & _ & _ & _ & _ & _ & Hex & _) & Hau).
  simpl in Ht0. assert (t0 = t) as -> by congruence.
  change (burst_recorded (set_intLevel IntOff K) t) with (burst_recorded K t) in Hau.
  simpl in Hru, Hex, Hau.
  destruct (burst_recorded_status K t) as (_ & _ & Hppu & _).
  exists Ku. split; [done|]. rewrite HE.
  set (Ks := assign this (setStatus BLOCKED (burst_recorded K t))
               (set_threadToBeDestroyed (Some this) Ku)).
  assert (Htps : threadArray Ks !! parent = Some (Live tp)).
  { unfold Ks; simpl. rewrite Hau. by rewrite !lookup_insert_ne by done. }
  unfold Exit_set_parent_code. rewrite Hppu, Hpp.
  rewrite decide_True by done.
  rewrite (bind_Ok _ _ tt)
    by (apply ASSERT_true, bool_decide_eq_true_2; by rewrite Htps).
  replace (exitThreadArray Ks parent) with false
    by (unfold Ks; simpl; by rewrite Hex, Hlive).
  simpl negb. cbv iota.
  rewrite (bind_Ok _ _ _ (SetChildExitCode_Ok parent tp this exitcode Ks Htps Hslot)).
  done.
Qed.

(** X9.  A child exits while its parent is blocked in [JoinWithChild] on it
    and no thread is ready: the simulation does not halt, even when
    [terminateSim] is set; the parent, which continues behind the [_SWITCH]
    that had switched it out, is dispatched, the object of the child is
    released, and when the parent continues its [JoinWithChild] it returns
    the code that the child passed to [Exit]. *)
Theorem Exit_wakes_joining_parent fuel this t parent tp terminateSim exitcode
    oldLevel K :
  currentThread K = Some this →
  threadArray K !! this = Some (Live t) →
  CheckOverflow t = Ok tt →
  ppid t = parent → parent ≠ -1 → parent ≠ this →
  wrap32 (totalTicks K - startTime t) ≠ 0 →
  exitThreadArray K parent = false →
  threadArray K !! parent = Some (Live tp) →
  PCState tp = AfterSWITCH →
  slot_of tp this < childcount tp →
  waitchild_id tp = slot_of tp this →
  readyThreadList K = [] →
  ∃ K',
    Exit MAX_THREAD_COUNT interrupt_Idle fuel this terminateSim exitcode K = Ok K'
    ∧ currentThread K' = Some parent
    ∧ status_of K' parent = Some RUNNING
    ∧ waitchild_of K' parent = Some (-1)
    ∧ threadArray K' !! this = Some Freed
    ∧ readyThreadList K' = []
    ∧ threadToBeDestroyed K' = None
    ∧ JoinWithChild_wake parent (slot_of tp this) oldLevel K'
      = Ok (exitcode, set_intLevel oldLevel K').
Proof.
  intros Hc Ht Hov Hpp Hp1 Hpt Hdiv Hlive Htp Hpc Hslot Hwait Hr.
  destruct (Exit_with_live_parent fuel this t parent tp terminateSim exitcode K
              Hc Ht Hpp Hp1 Hpt Hdiv Hlive Htp Hslot) as (Ku & HU & HE).
  destruct (UpdateStats_effect _ _ _ _ HU)
    as (t0 & _ & Ht0 & (Hcu & _ & Hru & _) & Hau).
  simpl in Ht0. assert (t0 = t) as -> by congruence.
  change (burst_recorded (set_intLevel IntOff K) t) with (burst_recorded K t) in Hau.
  simpl in Hcu, Hru, Hau.
  destruct (burst_recorded_status K t) as (_ & _ & _ & Hsk).
  rewrite decide_True in HE by done.
  rewrite Hru, Hr in HE. simpl app in HE.
  match type of HE with
  | _ = exit_wait _ _ _ ?Kn ≫= _ =>
      rewrite (bind_Ok _ _ _
                 (exit_wait_ready interrupt_Idle fuel terminateSim Kn parent []
                    eq_refl)) in HE
  end.
  set (tb := setStatus BLOCKED (burst_recorded K t)) in *.
  set (tw := setStatus READY (set_waitchild_id (-1)
               (recorded (slot_of tp this) exitcode tp))) in *.
  match type of HE with
  | _ = Schedule _ ?Kd =>
      set (Kd' := Kd) in *;
      assert (Hcur : currentThread Kd' = Some this) by (simpl; congruence);
      assert (Hobj : threadArray Kd' !! this = Some (Live tb))
        by (simpl; rewrite lookup_insert_ne by done; apply lookup_insert_eq);
      assert (Hpar : threadArray Kd' !! parent = Some (Live tw))
        by (simpl; apply lookup_insert_eq);
      assert (Hpend : threadToBeDestroyed Kd' = Some this) by done;
      assert (Hrdy : readyThreadList Kd' = []) by done
  end.
  rewrite (Schedule_Ok_some this tb parent tw this Kd') in HE;
    [ | done | done | rewrite <- Hov; by apply CheckOverflow_stack | done
      | done | done | done | done | by exists tb ].
  assert (Hp' : <[this := Freed]> (threadArray (switched this tb parent tw Kd'))
                  !! parent = Some (Live (setStatus RUNNING tw))).
  { rewrite lookup_insert_ne by done. unfold switched. simpl.
    rewrite decide_False by done. rewrite lookup_insert_ne by done.
    apply lookup_insert_eq. }
  assert (Hcs : currentThread (switched this tb parent tw Kd') = Some parent)
    by done.
  assert (Hrs : readyThreadList (switched this tb parent tw Kd') = [])
    by done.
  set (S := switched this tb parent tw Kd') in *. clearbody S.
  eexists. split; [exact HE|]. simpl.
  split; [done|]. split; [unfold status_of; simpl; by rewrite Hp'|].
  split; [unfold waitchild_of; simpl; by rewrite Hp'|].
  split; [apply lookup_insert_eq|]. split; [done|]. split; [done|].
  unfold JoinWithChild_wake.
  rewrite (bind_Ok _ _ (setStatus RUNNING tw)) by (by apply deref_Live).
  simpl. unfold store. by rewrite decide_True.
Qed.

End child_lookup_facts.

(** ** More on the statistics *)

Section stats_more_facts.

Context {arith : PredictionArith}.
Variable MAX_THREAD_COUNT : nat.

Implicit Types (K : Kernel) (t : NachOSThread) (i this : Z).

Lemma record_burst_extrema cpuburst t :
  minCPUburst (record_burst cpuburst t) ≤ minCPUburst t
  ∧ maxCPUburst t ≤ maxCPUburst (record_burst cpuburst t)
  ∧ (minCPUburst t ≤ maxCPUburst t →
     minCPUburst (record_burst cpuburst t) ≤ maxCPUburst (record_burst cpuburst t)).
Proof.
  unfold record_burst; simpl.
  destruct (decide (maxCPUburst t < cpuburst)); simpl; [lia|].
  destruct (decide (cpuburst < minCPUburst t)); simpl; lia.
Qed.

(** X10.  [UpdateStats] never raises [minCPUburst] and never lowers
    [maxCPUburst]; once the two are ordered they stay ordered, and from
    then on every positive burst lies between them right after it has been
    recorded. *)
Theorem UpdateStats_extrema this t K K' :
  threadArray K !! this = Some (Live t) →
  UpdateStats MAX_THREAD_COUNT this K = Ok K' →
  ∃ t', threadArray K' !! this = Some (Live t')
      ∧ minCPUburst t' ≤ minCPUburst t
      ∧ maxCPUburst t ≤ maxCPUburst t'
      ∧ (minCPUburst t ≤ maxCPUburst t →
           minCPUburst t' ≤ maxCPUburst t'
           ∧ (0 < cpuburst_of K t →
                minCPUburst t' ≤ cpuburst_of K t ≤ maxCPUburst t')).
Proof.
  intros Ht HU.
  destruct (UpdateStats_effect _ _ _ _ HU) as (t0 & _ & Ht0 & _ & Hau).
  assert (t0 = t) as -> by congruence.
  exists (burst_recorded K t). split; [rewrite Hau; apply lookup_insert_eq|].
  unfold burst_recorded.
  destruct (decide (0 < cpuburst_of K t)) as [Hpos|Hz].
  - destruct (record_burst_extrema (cpuburst_of K t) t) as (Hmin & Hmax & Hord).
    destruct (record_burst_counts (cpuburst_of K t) t) as (_ & _ & Hle).
    split; [done|]. split; [done|]. intros Hmm. split; [by apply Hord|].
    intros _. split; [by apply record_burst_min|done].
  - split; [lia|]. split; [lia|]. intros Hmm. split; [done|]. intros; lia.
Qed.

(** X11.  A run segment of zero ticks: [UpdateStats] called by the current
    thread in the tick in which its burst started, under a policy other than
    the decay ones.  Under every such policy but shortest-job prediction
    ([schedAlgo] 2) it returns the state unchanged.  Under [schedAlgo] 2 the
    state does change: the prediction of the caller is recomputed from the
    stale [prevBurst[pid]] and the whole prediction is added to
    [EstimationError], as for a burst of 0 ticks. *)
Theorem UpdateStats_zero_burst this t K :
  currentThread K = Some this →
  threadArray K !! this = Some (Live t) →
  wrap32 (totalTicks K - prevstartTime t) = 0 →
  schedAlgo K < 7 →
  (schedAlgo K ≠ 2 → UpdateStats MAX_THREAD_COUNT this K = Ok K)
  ∧ (schedAlgo K = 2 →
     UpdateStats MAX_THREAD_COUNT this K = Ok (predict_burst this 0 K)
     ∧ burstPredict (predict_burst this 0 K) this
       = to_burstPredict ((1 - SJP_RATIO) * burstPredict K this
                          + SJP_RATIO * inject_Z (prevBurst K this))%Q
     ∧ EstimationError (predict_burst this 0 K)
       = to_EstimationError
           (EstimationError K + Qabs (burstPredict K this - inject_Z 0))%Q).
Proof.
  intros Hc Ht Hz Halgo.
  rewrite (UpdateStats_Ok MAX_THREAD_COUNT this t K Hc Ht).
  unfold stats_updated.
  rewrite decide_False by lia.
  assert (Hacc : account_burst this t K = K).
  { unfold account_burst, cpuburst_of. rewrite Hz.
    by rewrite decide_False by lia. }
  assert (Hcb : cpuburst_of K t = 0) by (unfold cpuburst_of; by rewrite Hz).
  rewrite Hacc, Hcb. split.
  - intros Hne. by rewrite decide_False by done.
  - intros H2. rewrite decide_True by done. split; [done|].
    unfold predict_burst.
    destruct (Qlt_le_dec (inject_Z 0) (burstPredict K this)) as [Hlt|Hle].
    + rewrite (Qabs_minus_pos _ _ Hlt). simpl. unfold store.
      by rewrite decide_True.
    + rewrite (Qabs_minus_neg _ _ Hle). simpl. unfold store.
      by rewrite decide_True.
Qed.

Lemma int32_in_range z : - 2 ^ 31 ≤ z < 2 ^ 31 → int32 z = z.
Proof.
  intros Hz. unfold int32.
  rewrite Z.mod_small by lia. lia.
Qed.

(** X12.  Under a decay policy, a slot that passes the guard with a
    non-negative CPU count and no [int] overflow gets a CPU count that is
    again non-negative and at most the mean of the old count and the last
    burst - with no burst it is at most half the old count - and a priority
    value that is not below the base priority. *)
Theorem UpdateStats_decay_bounds this t K K' i :
  7 ≤ schedAlgo K →
  threadArray K !! this = Some (Live t) →
  UpdateStats MAX_THREAD_COUNT this K = Ok K' →
  0 ≤ i < Z.of_nat MAX_THREAD_COUNT →
  decay_guard (account_burst this t K) i = true →
  0 ≤ threadCpuCount (account_burst this t K) i →
  threadCpuCount (account_burst this t K) i
    + prevBurst (account_burst this t K) i < 2 ^ 31 →
  0 ≤ threadBasePriority (account_burst this t K) i →
  threadBasePriority (account_burst this t K) i
    + threadCpuCount (account_burst this t K) i
    + prevBurst (account_burst this t K) i < 2 ^ 31 →
  0 ≤ threadCpuCount K' i
  ∧ 2 * threadCpuCount K' i
    ≤ threadCpuCount (account_burst this t K) i
      + prevBurst (account_burst this t K) i
  ∧ threadBasePriority (account_burst this t K) i ≤ threadPriority K' i
  ∧ threadPriority K' i
    ≤ threadBasePriority (account_burst this t K) i + threadCpuCount K' i.
Proof.
  intros Halgo Ht HU Hi HG Hc Hsum Hb Hbsum.
  apply UpdateStats_Ok_inv in HU as (t' & _ & Ht' & ->).
  assert (t' = t) as -> by congruence.
  unfold stats_updated. rewrite decide_True by done.
  set (K1 := account_burst this t K) in *.
  assert (Hprev : 0 ≤ prevBurst K1 i).
  { unfold decay_guard in HG. apply andb_prop in HG as [HG _].
    apply andb_prop in HG as [_ HG]. by apply bool_decide_eq_true_1 in HG. }
  destruct (decay_loop_spec MAX_THREAD_COUNT 0 K1 i) as [Hin _].
  destruct Hin as [Hf _]; [lia|].
  destruct (Hf HG) as (Hcpu & Hprio & _).
  rewrite int32_in_range in Hcpu by lia.
  assert (Hq : 0 ≤ threadCpuCount (decay_loop MAX_THREAD_COUNT 0 K1) i
               ∧ 2 * threadCpuCount (decay_loop MAX_THREAD_COUNT 0 K1) i
                 ≤ threadCpuCount K1 i + prevBurst K1 i).
  { rewrite Hcpu. rewrite Z.quot_div_nonneg by lia.
    pose proof (Z.mul_div_le (threadCpuCount K1 i + prevBurst K1 i) 2 ltac:(lia)).
    pose proof (Z.div_pos (threadCpuCount K1 i + prevBurst K1 i) 2
                  ltac:(lia) ltac:(lia)).
    lia. }
  destruct Hq as [Hq0 Hq2]. split; [done|]. split; [done|].
  assert (Hh : 0 ≤ threadCpuCount (decay_loop MAX_THREAD_COUNT 0 K1) i `quot` 2
               ≤ threadCpuCount (decay_loop MAX_THREAD_COUNT 0 K1) i).
  { rewrite Z.quot_div_nonneg by lia.
    pose proof (Z.mul_div_le (threadCpuCount (decay_loop MAX_THREAD_COUNT 0 K1) i)
                  2 ltac:(lia)).
    pose proof (Z.div_pos (threadCpuCount (decay_loop MAX_THREAD_COUNT 0 K1) i) 2
                  ltac:(lia) ltac:(lia)).
    lia. }
  rewrite Hprio. rewrite int32_in_range by lia. lia.
Qed.

End stats_more_facts.

(** ** Assertion failures and halting *)

Section error_facts.

Context {arith : PredictionArith}.
Variable MAX_THREAD_COUNT : nat.
Variable interrupt_Idle : Kernel → option Kernel.

Implicit Types (K : Kernel) (t : NachOSThread) (p this next old : Z).

Lemma CheckOverflow_damaged t w :
  stack t = Some w → w ≠ STACK_FENCEPOST →
  CheckOverflow t = Abort AssertionFailed.
Proof.
  intros Hs Hw. unfold CheckOverflow. rewrite Hs.
  by rewrite bool_decide_eq_false_2.
Qed.

Lemma Schedule_damaged nextThread old told w K :
  currentThread K = Some old →
  threadArray K !! old = Some (Live told) →
  stack told = Some w → w ≠ STACK_FENCEPOST →
  Schedule nextThread K = Abort AssertionFailed.
Proof.
  intros Hc Hold Hs Hw. unfold Schedule, Schedule_switch. rewrite Hc.
  rewrite (bind_Ok _ _ told) by (by apply deref_Live).
  by rewrite (CheckOverflow_damaged told w).
Qed.

(** X13.  A thread whose stack fencepost has been overwritten cannot give
    up the CPU: [Schedule] fails its overflow assertion before any switch,
    whatever the next thread is, and so does [YieldCPU] called by such a
    thread. *)
Theorem overflow_is_detected this t w K :
  currentThread K = Some this →
  threadArray K !! this = Some (Live t) →
  stack t = Some w → w ≠ STACK_FENCEPOST →
  (∀ nextThread, Schedule nextThread K = Abort AssertionFailed)
  ∧ YieldCPU MAX_THREAD_COUNT this K = Abort AssertionFailed.
Proof.
  intros Hc Ht Hs Hw. split.
  - intros nextThread. by apply (Schedule_damaged nextThread this t w).
  - assert (∃ Ku, UpdateStats MAX_THREAD_COUNT this (set_intLevel IntOff K) = Ok Ku)
      as [Ku HU]
      by (eexists; apply (UpdateStats_Ok MAX_THREAD_COUNT this t); done).
    destruct (UpdateStats_effect _ _ _ _ HU)
      as (t0 & _ & Ht0 & (Hcu & _) & Hau).
    simpl in Ht0. assert (t0 = t) as -> by congruence.
    simpl in Hcu, Hau.
    destruct (burst_recorded_status (set_intLevel IntOff K) t) as (_ & _ & _ & Hsk).
    assert (Htu : threadArray Ku !! this
                  = Some (Live (burst_recorded (set_intLevel IntOff K) t)))
      by (rewrite Hau; apply lookup_insert_eq).
    unfold YieldCPU.
    rewrite (bind_Ok _ _ tt) by (apply ASSERT_true, bool_decide_eq_true_2; done).
    rewrite (bind_Ok _ _ _ HU).
    rewrite (bind_Ok _ _ _ (ThreadIsReadyToRun_Ok this _ _ Htu)).
    destruct (FindNextThreadToRun _) as [nextThread K1] eqn:HF.
    unfold FindNextThreadToRun in HF.
    destruct (List_Remove _) as [n l] in HF. injection HF as <- <-.
    apply (Schedule_damaged _ this
             (setStatus READY (burst_recorded (set_intLevel IntOff K) t)) w);
      simpl; [congruence|apply lookup_insert_eq|congruence|done].
Qed.

(** X14.  The destructor refuses to release the thread that is running.
    [Schedule] to the thread that is marked for destruction, when that thread
    continues behind [_SWITCH] (it is the caller itself, or it has run
    before), fails the assertion [this != currentThread] and releases
    nothing.  When that thread has never run it begins in [_ThreadRoot]: the
    destructor is not called, the thread runs and stays marked. *)
Theorem Schedule_never_releases_current old told next tn K :
  currentThread K = Some old →
  threadArray K !! old = Some (Live told) →
  CheckOverflow told = Ok tt →
  threadArray K !! next = Some (Live tn) →
  threadToBeDestroyed K = Some next →
  (old = next ∨ PCState tn = AfterSWITCH →
   Schedule (Some next) K = Abort AssertionFailed)
  ∧ (old ≠ next → PCState tn = ThreadRoot →
     ∃ K', Schedule (Some next) K = Ok K'
         ∧ currentThread K' = Some next
         ∧ threadArray K' !! next = Some (Live (setStatus RUNNING tn))
         ∧ threadToBeDestroyed K' = Some next).
Proof.
  intros Hc Hold Hov Hn Htbd. split.
  - intros Hcont. unfold Schedule.
    rewrite (bind_Ok _ _ _ (Schedule_switch_Ok old told next tn K Hc Hold Hov Hn)).
    destruct (switched_next old told next tn K)
      as (Hcs & tn' & Htn' & _ & _ & Hpc).
    assert (Hpc' : PCState tn' = AfterSWITCH).
    { rewrite Hpc. destruct (decide (old = next)); [done|]. by destruct Hcont. }
    rewrite (dispatched_continues next tn') by done.
    unfold Schedule_tail.
    assert (Htbd' : threadToBeDestroyed (switched old told next tn K) = Some next)
      by done.
    rewrite Htbd'. unfold delete_thread.
    rewrite (bind_Ok _ _ tn') by (by apply deref_Live).
    rewrite Hcs. simpl. rewrite bool_decide_eq_false_2; [done|].
    by intros H; apply H.
  - intros Hne Hp. eexists.
    split; [by apply (Schedule_Ok_begins old told next tn)|].
    split; [done|]. split; [|done]. simpl.
    rewrite decide_False by done. rewrite lookup_insert_ne by done.
    apply lookup_insert_eq.
Qed.

(** X15.  Every operation of a thread that gives up or accounts for the CPU
    checks that it is called by the running thread: on any other thread
    [UpdateStats], [YieldCPU], [PutThreadToSleep], [FinishThread] and [Exit]
    fail their assertion. *)
Theorem only_the_current_thread this K :
  currentThread K ≠ Some this →
  UpdateStats MAX_THREAD_COUNT this K = Abort AssertionFailed
  ∧ YieldCPU MAX_THREAD_COUNT this K = Abort AssertionFailed
  ∧ (∀ fuel, PutThreadToSleep MAX_THREAD_COUNT interrupt_Idle fuel this K
             = Abort AssertionFailed)
  ∧ (∀ fuel, FinishThread MAX_THREAD_COUNT interrupt_Idle fuel this K
             = Abort AssertionFailed)
  ∧ (∀ fuel terminateSim exitcode,
       Exit MAX_THREAD_COUNT interrupt_Idle fuel this terminateSim exitcode K
       = Abort AssertionFailed).
Proof.
  intros Hne.
  assert (Hb : bool_decide (Some this = currentThread K) = false)
    by (apply bool_decide_eq_false_2; congruence).
  repeat split; intros;
    unfold UpdateStats, YieldCPU, PutThreadToSleep, FinishThread, Exit; simpl;
    by rewrite Hb.
Qed.

(** X16.  With no thread ready there is nothing to dispatch.  [Exit] of a
    thread without a parent halts the machine when [terminateSim] is set,
    without idling; [PutThreadToSleep] idles, and the machine halts when the
    idle machine has no interrupt pending. *)
Theorem nothing_ready_halts fuel this t K :
  currentThread K = Some this →
  threadArray K !! this = Some (Live t) →
  readyThreadList K = [] →
  (ppid t = -1 →
   wrap32 (totalTicks K - startTime t) ≠ 0 →
   ∀ exitcode,
     Exit MAX_THREAD_COUNT interrupt_Idle (S fuel) this true exitcode K = Halted)
  ∧ (intLevel K = IntOff →
     (∀ K', interrupt_Idle K' = None) →
     PutThreadToSleep MAX_THREAD_COUNT interrupt_Idle (S fuel) this K = Halted).
Proof.
  intros Hc Ht Hr. split.
  - intros Hpp Hdiv exitcode.
    destruct (Exit_prefix MAX_THREAD_COUNT interrupt_Idle (S fuel) this t true
                exitcode K Hc Ht Hdiv) as (Ku & HU & HE).
    destruct (UpdateStats_effect _ _ _ _ HU) as (_ & _ & _ & (_ & _ & Hru & _) & _).
    simpl in Hru.
    destruct (burst_recorded_status K t) as (_ & _ & Hppu & _).
    rewrite HE. unfold Exit_set_parent_code.
    rewrite decide_False by (rewrite Hppu, Hpp; by intros H; apply H).
    simpl. unfold FindNextThreadToRun. simpl. by rewrite Hru, Hr.
  - intros Hl Hidle.
    pose proof (UpdateStats_Ok MAX_THREAD_COUNT this t K Hc Ht) as HU.
    destruct (UpdateStats_effect _ _ _ _ HU)
      as (t0 & _ & Ht0 & (_ & _ & Hru & _) & Hau).
    assert (t0 = t) as -> by congruence.
    unfold PutThreadToSleep.
    rewrite (bind_Ok _ _ tt) by (apply ASSERT_true, bool_decide_eq_true_2; done).
    rewrite (bind_Ok _ _ tt) by (apply ASSERT_true, bool_decide_eq_true_2; done).
    rewrite (bind_Ok _ _ _ HU).
    rewrite (bind_Ok _ _ (burst_recorded K t))
      by (apply deref_Live; rewrite Hau; apply lookup_insert_eq).
    simpl. unfold FindNextThreadToRun. simpl. rewrite Hru, Hr. simpl.
    by rewrite Hidle.
Qed.

End error_facts.

(** ** The time-sorted wait queue *)

Section wait_queue_facts.

Context {arith : PredictionArith}.
Variable MAX_THREAD_COUNT : nat.
Variable interrupt_Idle : Kernel → option Kernel.

Implicit Types (K : Kernel) (t : NachOSThread) (this when : Z)
  (q prev ptr : list TimeSortedWaitQueue).

(** The walk stops in front of the first entry whose deadline is later than
    [when]. *)
Lemma wait_queue_walk_split when prev ptr :
  ∃ l1 l2,
    ptr = l1 ++ l2
    ∧ wait_queue_walk when prev ptr = (prev ++ l1, l2)
    ∧ Forall (λ e, GetWhen e ≤ when) l1
    ∧ (∀ e l, l2 = e :: l → when < GetWhen e).
Proof.
  revert prev. induction ptr as [|e next IH]; intros prev.
  - exists [], []. simpl. rewrite app_nil_r. repeat split; [constructor|done].
  - simpl. destruct (decide (GetWhen e ≤ when)) as [Hle|Hgt].
    + destruct (IH (prev ++ [e])) as (l1 & l2 & -> & Hw & Hall & Hhd).
      exists (e :: l1), l2. rewrite Hw, <- app_assoc. simpl.
      repeat split; [by constructor|done].
    + exists [], (e :: next). simpl. rewrite app_nil_r.
      repeat split; [constructor|]. intros e' l [= <- <-]. lia.
Qed.

(** In each of the three cases of the source the new entry goes between the
    two parts the walk has found. *)
Lemma wait_queue_insert_split this when q :
  ∃ l1 l2,
    q = l1 ++ l2
    ∧ wait_queue_insert this when q = l1 ++ (this, when) :: l2
    ∧ Forall (λ e, GetWhen e ≤ when) l1
    ∧ (∀ e l, l2 = e :: l → when < GetWhen e).
Proof.
  destruct q as [|e0 q0].
  - exists [], []. simpl. repeat split; [constructor|done].
  - unfold wait_queue_insert.
    destruct (wait_queue_walk_split when [] (e0 :: q0))
      as (l1 & l2 & Heq & Hw & Hall & Hhd).
    rewrite Hw. simpl app at 1. exists l1, l2.
    split; [done|]. split; [|done].
    destruct l2 as [|e2 l2'].
    + done.
    + destruct l1 as [|e1 l1']; [|done]. simpl in Heq. by rewrite Heq.
Qed.

Lemma ascending_later when (l2 : list TimeSortedWaitQueue) :
  ascending l2 → (∀ e l, l2 = e :: l → when < GetWhen e) →
  Forall (λ e, when < GetWhen e) l2.
Proof.
  intros Hs Hhd. destruct l2 as [|e l]; [constructor|].
  specialize (Hhd e l eq_refl).
  apply StronglySorted_cons in Hs as [Hall _].
  constructor; [done|].
  eapply Forall_impl; [exact Hall|]. unfold earlier. intros x Hx. lia.
Qed.

Lemma wait_queue_insert_ascending this when q :
  ascending q → ascending (wait_queue_insert this when q).
Proof.
  intros Hs.
  destruct (wait_queue_insert_split this when q) as (l1 & l2 & -> & -> & Hall & Hhd).
  unfold ascending in *. apply StronglySorted_app in Hs as (Hcross & Hs1 & Hs2).
  pose proof (ascending_later when l2 Hs2 Hhd) as Hl2.
  apply StronglySorted_app_2; [|done|].
  - intros x1 x2 Hx1 Hx2. apply elem_of_cons in Hx2 as [->|Hx2].
    + unfold earlier. simpl. by apply (proj1 (Forall_forall _ _) Hall).
    + by apply Hcross.
  - apply StronglySorted_cons. split; [|done].
    eapply Forall_impl; [exact Hl2|]. unfold earlier. simpl. intros x Hx. lia.
Qed.

Lemma wait_queue_inserts_ascending calls : ascending (wait_queue_inserts calls).
Proof.
  unfold wait_queue_inserts.
  assert (H : ∀ q, ascending q →
            ascending (foldl (λ q c, wait_queue_insert c.1 c.2 q) q calls)).
  { induction calls as [|c calls IH]; intros q Hq; simpl; [done|].
    apply IH. by apply wait_queue_insert_ascending. }
  apply H. constructor.
Qed.

(** C10.  [SortedInsertInWaitQueue] called by the thread [this] with the
    deadline [when].
    - Whatever sequence of insertions built it from the empty queue, the
      queue is in ascending order of deadline.
    - On an ascending queue the new entry is placed behind every entry whose
      deadline is at most [when] - so behind the entries with an equal
      deadline - and in front of all later ones; the result is ascending.
    - The only things the function does after placing the entry are to turn
      interrupts off, stamp the [unsigned sleepstartTime] and call
      [PutThreadToSleep]:
      with a thread [h] ready, the caller is left [BLOCKED] in the queue and
      [h] is dispatched. *)
Theorem SortedInsertInWaitQueue_spec fuel this t when K :
  threadArray K !! this = Some (Live t) →
  (∀ calls, ascending (wait_queue_inserts calls))
  ∧ (ascending (sleepQueueHead K) →
     ∃ l1 l2,
       sleepQueueHead K = l1 ++ l2
       ∧ wait_queue_insert this when (sleepQueueHead K) = l1 ++ (this, when) :: l2
       ∧ Forall (λ e, GetWhen e ≤ when) l1
       ∧ Forall (λ e, when < GetWhen e) l2
       ∧ ascending (l1 ++ (this, when) :: l2))
  ∧ SortedInsertInWaitQueue MAX_THREAD_COUNT interrupt_Idle fuel this when K
    = PutThreadToSleep MAX_THREAD_COUNT interrupt_Idle fuel this
        (assign this (set_sleepstartTime (wrap32 (totalTicks K)) t)
           (set_intLevel IntOff
              (set_sleepQueueHead
                 (wait_queue_insert this when (sleepQueueHead K)) K)))
  ∧ (∀ h r th,
       currentThread K = Some this →
       CheckOverflow t = Ok tt →
       readyThreadList K = h :: r → h ≠ this →
       threadArray K !! h = Some (Live th) →
       threadToBeDestroyed K = None →
       ∃ K' t',
         SortedInsertInWaitQueue MAX_THREAD_COUNT interrupt_Idle fuel this when K
         = Ok K'
         ∧ sleepQueueHead K' = wait_queue_insert this when (sleepQueueHead K)
         ∧ threadArray K' !! this = Some (Live t')
         ∧ status t' = BLOCKED
         ∧ currentThread K' = Some h
         ∧ status_of K' h = Some RUNNING
         ∧ readyThreadList K' = r).
Proof.
  intros Ht.
  assert (Hdef :
    SortedInsertInWaitQueue MAX_THREAD_COUNT interrupt_Idle fuel this when K
    = PutThreadToSleep MAX_THREAD_COUNT interrupt_Idle fuel this
        (assign this (set_sleepstartTime (wrap32 (totalTicks K)) t)
           (set_intLevel IntOff
              (set_sleepQueueHead
                 (wait_queue_insert this when (sleepQueueHead K)) K)))).
  { unfold SortedInsertInWaitQueue.
    by rewrite (bind_Ok _ _ t) by (by apply deref_Live). }
  split; [apply wait_queue_inserts_ascending|]. split; [|split; [exact Hdef|]].
  - intros Hs.
    pose proof (wait_queue_insert_ascending this when _ Hs) as Hs'.
    destruct (wait_queue_insert_split this when (sleepQueueHead K))
      as (l1 & l2 & Heq & Hins & Hall & Hhd).
    exists l1, l2. rewrite Hins in Hs'. repeat split; try done.
    apply ascending_later; [|done].
    rewrite Heq in Hs. by apply StronglySorted_app in Hs as (_ & _ & ?).
  - intros h r th Hc Hov Hr Hne Hth Htbd.
    set (K1 := assign this (set_sleepstartTime (wrap32 (totalTicks K)) t)
                 (set_intLevel IntOff
                    (set_sleepQueueHead
                       (wait_queue_insert this when (sleepQueueHead K)) K))) in *.
    destruct (PutThreadToSleep_Ok MAX_THREAD_COUNT interrupt_Idle fuel this
                (set_sleepstartTime (wrap32 (totalTicks K)) t) h r th K1)
      as (Ku & HU & HP); try done.
    { unfold K1; simpl. apply lookup_insert_eq. }
    { unfold K1; simpl. by rewrite lookup_insert_ne. }
    destruct (UpdateStats_effect _ _ _ _ HU)
      as (t0 & _ & _ & (_ & _ & _ & _ & Hqu & _) & _).
    match type of HP with
    | _ = Ok (arrived th (switched this ?tb h th _)) =>
        destruct (slept_view this tb h th r Ku Hne)
          as (Hthis & Hcur & Hst & Hrd & Hq & _);
        exists (arrived th (switched this tb h th
                  (set_readyThreadList r (assign this tb Ku)))),
               (set_PCState AfterSWITCH tb)
    end.
    split; [by rewrite Hdef, HP|].
    split; [by rewrite Hq, Hqu|]. split; [exact Hthis|]. done.
Qed.

End wait_queue_facts.

(** ** The scheduling invariant *)

Section invariant_facts.

Context {arith : PredictionArith}.
Variable MAX_THREAD_COUNT : nat.
Variable interrupt_Idle : Kernel → option Kernel.

Implicit Types (K : Kernel) (t : NachOSThread) (p q c d h this : Z)
  (m : gmap Z object).

(** *** Status and wait slot under the updates of the thread table *)

Lemma obj_status_insert m p t q :
  obj_status (<[p := Live t]> m !! q)
  = if decide (q = p) then Some (status t) else obj_status (m !! q).
Proof.
  destruct (decide (q = p)) as [->|Hne].
  - by rewrite lookup_insert_eq.
  - by rewrite lookup_insert_ne.
Qed.

Lemma obj_waitchild_insert m p t q :
  obj_waitchild (<[p := Live t]> m !! q)
  = if decide (q = p) then Some (waitchild_id t) else obj_waitchild (m !! q).
Proof.
  destruct (decide (q = p)) as [->|Hne].
  - by rewrite lookup_insert_eq.
  - by rewrite lookup_insert_ne.
Qed.

Lemma obj_status_freed m d q :
  obj_status (<[d := Freed]> m !! q)
  = if decide (q = d) then None else obj_status (m !! q).
Proof.
  destruct (decide (q = d)) as [->|Hne].
  - by rewrite lookup_insert_eq.
  - by rewrite lookup_insert_ne.
Qed.

Lemma obj_waitchild_freed m d q :
  obj_waitchild (<[d := Freed]> m !! q)
  = if decide (q = d) then None else obj_waitchild (m !! q).
Proof.
  destruct (decide (q = d)) as [->|Hne].
  - by rewrite lookup_insert_eq.
  - by rewrite lookup_insert_ne.
Qed.

Lemma obj_status_Live m p t :
  m !! p = Some (Live t) → obj_status (m !! p) = Some (status t).
Proof. by intros ->. Qed.

Lemma obj_waitchild_Live m p t :
  m !! p = Some (Live t) → obj_waitchild (m !! p) = Some (waitchild_id t).
Proof. by intros ->. Qed.

Lemma obj_status_Some_inv m p s :
  obj_status (m !! p) = Some s → ∃ t, m !! p = Some (Live t) ∧ status t = s.
Proof.
  destruct (m !! p) as [[t|]|]; simpl; intros H; try discriminate.
  injection H as <-. eauto.
Qed.

(** Unfold the observations and push them through the updates. *)
Ltac observe :=
  unfold status_of, waitchild_of, queued, assign in *; simpl in *;
  repeat first
    [ rewrite obj_status_insert in *
    | rewrite obj_waitchild_insert in *
    | rewrite obj_status_freed in *
    | rewrite obj_waitchild_freed in * ].

(** *** The two forms of the invariant *)

Lemma Inv_Settled K : Inv K → Settled K.
Proof.
  intros [Hc Hrun Hnd Hrdy Hqnd Hqb Hpend Hwait].
  constructor; try done. intros d. by rewrite Hpend.
Qed.

Lemma Settled_Inv K : Settled K → threadToBeDestroyed K = None → Inv K.
Proof.
  intros [Hc Hrun Hnd Hrdy Hqnd Hqb Hpend Hwait] Htbd. by constructor.
Qed.

Lemma Settled_cleared K : Settled K → Inv (set_threadToBeDestroyed None K).
Proof.
  intros [Hc Hrun Hnd Hrdy Hqnd Hqb Hpend Hwait]. by constructor.
Qed.

Lemma cleared_Settled K :
  Inv (set_threadToBeDestroyed None K) →
  (∀ d, threadToBeDestroyed K = Some d →
     status_of K d = Some BLOCKED ∧ d ∉ queued K) →
  Settled K.
Proof.
  intros [Hc Hrun Hnd Hrdy Hqnd Hqb _ Hwait] Hpend. by constructor.
Qed.

Lemma continues_or_begins K :
  continues_after_SWITCH K → begins_in_ThreadRoot K → False.
Proof.
  intros (c & tc & Hc & Htc & Hpc) (c' & tc' & Hc' & Htc' & Hpc').
  assert (c' = c) as -> by congruence.
  assert (tc' = tc) as -> by congruence. congruence.
Qed.

Lemma after_dispatch_continues pending K' :
  after_dispatch pending K' → continues_after_SWITCH K' → Inv K'.
Proof.
  intros [_ [[_ HI]|[Hb _]]] Hcont; [done|].
  by destruct (continues_or_begins K').
Qed.

Lemma after_dispatch_None K' : after_dispatch None K' → Inv K'.
Proof.
  intros [HS [[_ HI]|[_ Htbd]]]; [done|]. by apply Settled_Inv.
Qed.

(** *** Dispatch re-establishes the invariant *)

(** After the switch to the head [h] of the ready list, everything but the
    pending destruction is in order. *)
Lemma switch_Inv K0 h r th :
  Relinquished K0 →
  readyThreadList K0 = h :: r →
  threadArray K0 !! h = Some (Live th) →
  Inv (set_threadToBeDestroyed None
         (assign h (setStatus RUNNING th)
            (set_currentThread (Some h) (set_readyThreadList r K0)))).
Proof.
  intros [Hrun Hnd Hrdy Hqnd Hq Hpend Hwait] Hr Hth.
  rewrite Hr in Hnd, Hrdy. apply NoDup_cons in Hnd as [Hhr Hnd].
  assert (Hh : status_of K0 h = Some READY) by (apply Hrdy; left).
  constructor.
  - exists h. observe. split; [done|]. by rewrite decide_True.
  - intros p. observe. destruct (decide (p = h)) as [->|Hne]; [done|].
    intros Hp. by destruct (Hrun p).
  - done.
  - intros p. observe. destruct (decide (p = h)) as [->|Hne].
    + split; [done|discriminate].
    + rewrite <- Hrdy. rewrite elem_of_cons. tauto.
  - done.
  - intros p Hp. observe. destruct (decide (p = h)) as [->|Hne]; [|by apply Hq].
    apply Hq in Hp. congruence.
  - done.
  - intros p w. observe. destruct (decide (p = h)) as [->|Hne]; [|by apply Hwait].
    intros [= <-] Hw.
    destruct (Hwait h (waitchild_id th)) as [Hb _]; [|done|congruence].
    by apply obj_waitchild_Live.
Qed.

(** Releasing a [BLOCKED] thread that is in no wait structure keeps the
    invariant. *)
Lemma reap_Inv K1 d :
  Inv (set_threadToBeDestroyed None K1) →
  status_of K1 d = Some BLOCKED →
  d ∉ queued K1 →
  Inv (set_threadToBeDestroyed None
         (set_threadArray (<[d := Freed]> (threadArray K1)) K1)).
Proof.
  intros [(c & Hc & Hcr) Hrun Hnd Hrdy Hqnd Hq _ Hwait] Hd Hdq.
  constructor.
  - exists c. observe. split; [done|]. rewrite decide_False; [done|]. congruence.
  - intros p. observe. destruct (decide (p = d)); [done|]. apply Hrun.
  - done.
  - intros p. observe. destruct (decide (p = d)) as [->|Hne]; [|apply Hrdy].
    split; [|done]. intros Hp. apply Hrdy in Hp. congruence.
  - done.
  - intros p Hp. observe. destruct (decide (p = d)) as [->|Hne]; [done|]. by apply Hq.
  - done.
  - intros p w. observe. destruct (decide (p = d)); [done|]. apply Hwait.
Qed.

(** *** States with the same view *)

Lemma Inv_transfer K K' : same_view K K' → Inv K → Inv K'.
Proof.
  intros (Hc & Ht & Hr & Hs & Hq & Hv)
    [(c & Hcc & Hcr) Hrun Hnd Hrdy Hqnd Hqb Hpend Hwait].
  assert (Hst : ∀ p, status_of K' p = status_of K p) by (intros p; apply Hv).
  assert (Hwc : ∀ p, waitchild_of K' p = waitchild_of K p) by (intros p; apply Hv).
  assert (Hqq : queued K' = queued K) by (unfold queued; by rewrite Hs, Hq).
  constructor.
  - exists c. by rewrite Hc, Hst.
  - intros p. rewrite Hc, Hst. apply Hrun.
  - by rewrite Hr.
  - intros p. rewrite Hr, Hst. apply Hrdy.
  - by rewrite Hqq.
  - intros p. rewrite Hqq, Hst. apply Hqb.
  - by rewrite Ht.
  - intros p w. rewrite Hqq, Hst, Hwc. apply Hwait.
Qed.

Lemma AboutToSleep_transfer c K K' :
  same_view K K' → AboutToSleep c K → AboutToSleep c K'.
Proof.
  intros (Hc & Ht & Hr & Hs & Hq & Hv)
    [Hcc Hrun Hnd Hrdy Hqnd Hqb Hpend Hwait].
  assert (Hst : ∀ p, status_of K' p = status_of K p) by (intros p; apply Hv).
  assert (Hwc : ∀ p, waitchild_of K' p = waitchild_of K p) by (intros p; apply Hv).
  assert (Hqq : queued K' = queued K) by (unfold queued; by rewrite Hs, Hq).
  constructor.
  - by rewrite Hc, Hst.
  - intros p. rewrite Hst. apply Hrun.
  - by rewrite Hr.
  - intros p. rewrite Hr, Hst. apply Hrdy.
  - by rewrite Hqq.
  - intros p. rewrite Hqq, Hst. apply Hqb.
  - intros d. rewrite Ht, Hqq, Hst. apply Hpend.
  - intros p w. rewrite Hqq, Hst, Hwc. apply Hwait.
Qed.

Lemma Relinquished_transfer K K' :
  same_view K K' → Relinquished K → Relinquished K'.
Proof.
  intros (Hc & Ht & Hr & Hs & Hq & Hv)
    [Hrun Hnd Hrdy Hqnd Hqb Hpend Hwait].
  assert (Hst : ∀ p, status_of K' p = status_of K p) by (intros p; apply Hv).
  assert (Hwc : ∀ p, waitchild_of K' p = waitchild_of K p) by (intros p; apply Hv).
  assert (Hqq : queued K' = queued K) by (unfold queued; by rewrite Hs, Hq).
  constructor.
  - intros p. rewrite Hst. apply Hrun.
  - by rewrite Hr.
  - intros p. rewrite Hr, Hst. apply Hrdy.
  - by rewrite Hqq.
  - intros p. rewrite Hqq, Hst. apply Hqb.
  - intros d. rewrite Ht, Hqq, Hst. apply Hpend.
  - intros p w. rewrite Hqq, Hst, Hwc. apply Hwait.
Qed.

Lemma Settled_transfer K K' : same_view K K' → Settled K → Settled K'.
Proof.
  intros (Hc & Ht & Hr & Hs & Hq & Hv)
    [(c & Hcc & Hcr) Hrun Hnd Hrdy Hqnd Hqb Hpend Hwait].
  assert (Hst : ∀ p, status_of K' p = status_of K p) by (intros p; apply Hv).
  assert (Hwc : ∀ p, waitchild_of K' p = waitchild_of K p) by (intros p; apply Hv).
  assert (Hqq : queued K' = queued K) by (unfold queued; by rewrite Hs, Hq).
  constructor.
  - exists c. by rewrite Hc, Hst.
  - intros p. rewrite Hc, Hst. apply Hrun.
  - by rewrite Hr.
  - intros p. rewrite Hr, Hst. apply Hrdy.
  - by rewrite Hqq.
  - intros p. rewrite Hqq, Hst. apply Hqb.
  - intros d. rewrite Ht, Hqq, Hst. apply Hpend.
  - intros p w. rewrite Hqq, Hst, Hwc. apply Hwait.
Qed.

(** [_SWITCH] saves where the outgoing thread continues, which the
    invariant does not look at. *)
Lemma switched_view old told next tn K :
  threadArray K !! old = Some (Live told) →
  same_view (assign next (setStatus RUNNING tn) (set_currentThread (Some next) K))
    (switched old told next tn K).
Proof.
  intros Hold. unfold switched.
  repeat split; try done; unfold status_of, waitchild_of, assign; simpl.
  - rewrite !obj_status_insert.
    destruct (decide (p = old)) as [->|Hpo]; [|done].
    destruct (decide (old = next)) as [->|Hon]; [done|]. simpl.
    by rewrite Hold.
  - rewrite !obj_waitchild_insert.
    destruct (decide (p = old)) as [->|Hpo]; [|done].
    destruct (decide (old = next)) as [->|Hon]; [done|]. simpl.
    by rewrite Hold.
Qed.

Lemma reaped_current K1 d c tc :
  currentThread K1 = Some c →
  threadArray K1 !! c = Some (Live tc) →
  Some d ≠ currentThread K1 →
  threadArray
    (set_threadToBeDestroyed None
       (set_threadArray (<[d := Freed]> (threadArray K1)) K1)) !! c
  = Some (Live tc).
Proof.
  intros Hc Htc Hne. simpl. rewrite lookup_insert_ne; [done|]. congruence.
Qed.

(** The dispatch of the head [h] of the ready list, from a state in which
    no thread is [RUNNING]. *)
Lemma dispatch_Settled K0 h r K' :
  Relinquished K0 →
  readyThreadList K0 = h :: r →
  Schedule (Some h) (set_readyThreadList r K0) = Ok K' →
  after_dispatch (threadToBeDestroyed K0) K'.
Proof.
  intros HR Hr HS. unfold Schedule in HS. bind_inv HS. rename a into K1.
  apply Schedule_switch_Ok_inv in Hstep
    as (old & told & next & tn & _ & Hold & _ & [= <-] & Hth & ->).
  simpl in Hth, Hold.
  set (Kr := set_readyThreadList r K0) in *.
  pose proof (switch_Inv K0 h r tn HR Hr Hth) as HI. fold Kr in HI.
  assert (HI1 : Inv (set_threadToBeDestroyed None (switched old told h tn Kr))).
  { eapply Inv_transfer; [|exact HI].
    destruct (switched_view old told h tn Kr Hold) as (? & ? & ? & ? & ? & Hv).
    repeat split; try done; apply Hv. }
  assert (Hh : status_of K0 h = Some READY)
    by (apply (rel_ready _ HR); rewrite Hr; left).
  assert (Hpend : ∀ d, threadToBeDestroyed K0 = Some d →
            status_of (switched old told h tn Kr) d = Some BLOCKED
            ∧ d ∉ queued (switched old told h tn Kr)).
  { intros d Hd. destruct (rel_pending _ HR d Hd) as [Hdb Hdq]. split; [|done].
    destruct (switched_view old told h tn Kr Hold) as (_ & _ & _ & _ & _ & Hv).
    rewrite (proj1 (Hv d)). unfold status_of; simpl. rewrite obj_status_insert.
    rewrite decide_False; [done|]. intros ->. congruence. }
  assert (HS1 : Settled (switched old told h tn Kr))
    by (by apply cleared_Settled).
  apply dispatched_Ok_inv in HS as [[Hcont HT]|[Hbeg ->]].
  - assert (HI' : Inv K').
    { apply Schedule_tail_Ok_inv in HT as [[Htbd ->]|(d & Htbd & _ & Hne & ->)].
      - by apply Settled_Inv.
      - destruct (Hpend d Htbd) as [Hdb Hdq]. by apply reap_Inv. }
    split; [by apply Inv_Settled|]. left. split; [|done].
    destruct Hcont as (c & tc & Hc & Htc & Hpc).
    apply Schedule_tail_Ok_inv in HT as [[Htbd ->]|(d & Htbd & _ & Hne & ->)].
    + by exists c, tc.
    + exists c, tc. split; [done|]. split; [|done].
      by apply reaped_current.
  - split.
    + eapply Settled_transfer; [|exact HS1]. repeat split; done.
    + right. split; [|done].
      destruct Hbeg as (c & tc & Hc & Htc & Hpc). by exists c, tc.
Qed.

(** [UpdateStats] changes nothing the invariant looks at. *)
Lemma UpdateStats_same_view this K Ku :
  UpdateStats MAX_THREAD_COUNT this K = Ok Ku →
  same_view K Ku
  ∧ currentThread K = Some this
  ∧ ∃ t, threadArray K !! this = Some (Live t)
       ∧ threadArray Ku !! this = Some (Live (burst_recorded K t)).
Proof.
  intros HU. destruct (UpdateStats_effect _ _ _ _ HU)
    as (t & Hc & Ht & (Hcu & Htbd & Hr & Hs & Hq & _) & Hau).
  destruct (burst_recorded_status K t) as (Hst & Hw & _ & _).
  split; [|split; [done|]].
  - repeat split; try done; unfold status_of, waitchild_of; rewrite Hau.
    + rewrite obj_status_insert. destruct (decide (p = this)) as [->|]; [|done].
      by rewrite Hst, (obj_status_Live _ _ _ Ht).
    + rewrite obj_waitchild_insert. destruct (decide (p = this)) as [->|]; [|done].
      by rewrite Hw, (obj_waitchild_Live _ _ _ Ht).
  - exists t. split; [done|]. rewrite Hau. apply lookup_insert_eq.
Qed.

(** *** Giving up the CPU *)

Lemma Settled_AboutToSleep c K :
  Settled K → currentThread K = Some c → AboutToSleep c K.
Proof.
  intros [(c' & Hcc & Hcr) Hrun Hnd Hrdy Hqnd Hqb Hpend Hwait] Hc.
  assert (c' = c) as -> by congruence.
  constructor; try done.
  - intros p Hp. apply Hrun in Hp. congruence.
  - intros p Hp _. by apply Hqb.
  - intros d Hd. destruct (Hpend d Hd). done.
  - intros p w Hp Hw. destruct (Hwait p w Hp Hw). done.
Qed.

Lemma Inv_AboutToSleep c K :
  Inv K → currentThread K = Some c → AboutToSleep c K.
Proof. intros HI. by apply Settled_AboutToSleep, Inv_Settled. Qed.

Lemma Settled_current_free c K :
  Settled K → currentThread K = Some c →
  status_of K c = Some RUNNING
  ∧ (c ∉ readyThreadList K) ∧ (c ∉ queued K) ∧ waitchild_of K c = Some (-1)
  ∧ threadToBeDestroyed K ≠ Some c.
Proof.
  intros [(c' & Hcc & Hcr) Hrun Hnd Hrdy Hqnd Hqb Hpend Hwait] Hc.
  assert (c' = c) as -> by congruence.
  split; [done|]. split; [|split; [|split]].
  - intros Hin. apply Hrdy in Hin. congruence.
  - intros Hin. apply Hqb in Hin. congruence.
  - unfold status_of, waitchild_of in *.
    destruct (threadArray K !! c) as [[t|]|] eqn:Ht; try discriminate.
    simpl. destruct (decide (waitchild_id t = -1)) as [->|Hw]; [done|].
    destruct (Hwait c (waitchild_id t)) as [Hb _]; [by rewrite Ht|done|].
    rewrite Ht in Hb. simpl in *. congruence.
  - intros Hd. destruct (Hpend c Hd) as [Hb _]. congruence.
Qed.

Lemma Inv_current_free c K :
  Inv K → currentThread K = Some c →
  status_of K c = Some RUNNING
  ∧ (c ∉ readyThreadList K) ∧ (c ∉ queued K) ∧ waitchild_of K c = Some (-1).
Proof.
  intros HI Hc.
  destruct (Settled_current_free c K (Inv_Settled K HI) Hc)
    as (? & ? & ? & ? & _).
  done.
Qed.

(** The caller marks itself [BLOCKED]. *)
Lemma block_Relinquished c t t' K :
  AboutToSleep c K →
  threadArray K !! c = Some (Live t) →
  waitchild_id t' = waitchild_id t →
  Relinquished (assign c (setStatus BLOCKED t') K).
Proof.
  intros [[Hcc Hcr] Hrun Hnd Hrdy Hqnd Hqb Hpend Hwait] Ht Hw.
  constructor.
  - intros p. observe. destruct (decide (p = c)) as [->|Hne]; [done|].
    intros Hp. by apply Hrun in Hp.
  - done.
  - intros p. observe. destruct (decide (p = c)) as [->|Hne]; [|apply Hrdy].
    split; [|done]. intros Hp. apply Hrdy in Hp. congruence.
  - done.
  - intros p Hp. observe. destruct (decide (p = c)) as [->|Hne]; [done|].
    by apply Hqb.
  - intros d Hd. observe. destruct (Hpend d Hd) as [Hq Hb]. split; [|done].
    destruct (decide (d = c)) as [->|Hne]; [done|]. by apply Hb.
  - intros p w. observe. destruct (decide (p = c)) as [->|Hne].
    + intros [= <-] Hw'. split; [done|].
      destruct (Hwait c (waitchild_id t)) as [Hq _]; [|congruence|done].
      by apply obj_waitchild_Live.
    + intros Hp Hw'. destruct (Hwait p w Hp Hw') as [Hq Hb]. split; [|done].
      by apply Hb.
Qed.

(** The caller puts itself at the tail of the ready list. *)
Lemma yield_Relinquished c t t' K :
  Settled K → currentThread K = Some c →
  threadArray K !! c = Some (Live t) →
  waitchild_id t' = waitchild_id t →
  Relinquished
    (set_readyThreadList (readyThreadList K ++ [c])
       (assign c (setStatus READY t') K)).
Proof.
  intros HI Hc Ht Hw.
  destruct (Settled_current_free c K HI Hc) as (Hcr & Hcrdy & Hcq & Hcw & Hcd).
  destruct HI as [_ Hrun Hnd Hrdy Hqnd Hqb Hpend Hwait].
  constructor.
  - intros p. observe. destruct (decide (p = c)) as [->|Hne]; [done|].
    intros Hp. apply Hrun in Hp. congruence.
  - simpl. apply NoDup_app. split; [done|]. split; [|apply NoDup_singleton].
    intros x Hx Hx'. apply list_elem_of_singleton in Hx'. by subst.
  - intros p. observe. rewrite elem_of_app, list_elem_of_singleton.
    destruct (decide (p = c)) as [->|Hne]; [tauto|].
    rewrite Hrdy. tauto.
  - done.
  - intros p Hp. observe. destruct (decide (p = c)) as [->|Hne]; [done|].
    by apply Hqb.
  - intros d Hd. observe. destruct (decide (d = c)) as [->|Hne]; [done|].
    by apply Hpend.
  - intros p w. observe. destruct (decide (p = c)) as [->|Hne]; [|apply Hwait].
    intros [= <-] Hw'. rewrite (obj_waitchild_Live _ _ _ Ht) in Hcw. congruence.
Qed.

(** A [BLOCKED] thread in no wait structure, not pending destruction, is
    made ready while no thread runs. *)
Lemma wake_Relinquished p t t' K :
  Relinquished K →
  threadArray K !! p = Some (Live t) →
  status t = BLOCKED →
  p ∉ queued K →
  threadToBeDestroyed K ≠ Some p →
  waitchild_id t' = -1 →
  Relinquished
    (set_readyThreadList (readyThreadList K ++ [p])
       (assign p (setStatus READY t') K)).
Proof.
  intros [Hrun Hnd Hrdy Hqnd Hqb Hpend Hwait] Ht Hst Hpq Htbd Hw.
  assert (Hpr : p ∉ readyThreadList K).
  { intros Hin. apply Hrdy in Hin. unfold status_of in Hin.
    rewrite Ht in Hin. simpl in Hin. congruence. }
  constructor.
  - intros q. observe. destruct (decide (q = p)) as [->|Hne]; [done|]. apply Hrun.
  - simpl. apply NoDup_app. split; [done|]. split; [|apply NoDup_singleton].
    intros x Hx Hx'. apply list_elem_of_singleton in Hx'. by subst.
  - intros q. observe. rewrite elem_of_app, list_elem_of_singleton.
    destruct (decide (q = p)) as [->|Hne]; [tauto|].
    rewrite Hrdy. tauto.
  - done.
  - intros q Hq. observe. destruct (decide (q = p)) as [->|Hne]; [done|].
    by apply Hqb.
  - intros d Hd. observe. destruct (decide (d = p)) as [->|Hne]; [done|].
    by apply Hpend.
  - intros q w. observe. destruct (decide (q = p)) as [->|Hne]; [|apply Hwait].
    intros [= <-] Hw'. done.
Qed.

(** *** The operations *)

Hypothesis Idle_disciplined : handlers_disciplined interrupt_Idle.

Lemma Idle_keeps pending K K' :
  Relinquished K ∧ threadToBeDestroyed K = pending →
  interrupt_Idle K = Some K' →
  Relinquished K' ∧ threadToBeDestroyed K' = pending.
Proof.
  intros [HR <-] HI. by apply Idle_disciplined.
Qed.

Lemma PutThreadToSleep_Settled fuel this K K' :
  AboutToSleep this K →
  PutThreadToSleep MAX_THREAD_COUNT interrupt_Idle fuel this K = Ok K' →
  after_dispatch (threadToBeDestroyed K) K'.
Proof.
  intros HA HP. unfold PutThreadToSleep in HP.
  assert_inv HP. assert_inv HP. bind_inv HP. rename a into Ku.
  destruct (UpdateStats_same_view _ _ _ Hstep) as (Hv & Hc & t & Ht & Htu).
  bind_inv HP. apply deref_Ok_inv in Hstep0 as (pid & [= <-] & Ha).
  assert (a = burst_recorded K t) as -> by congruence.
  bind_inv HP. destruct a as [nextThread K1].
  pose proof (AboutToSleep_transfer _ _ _ Hv HA) as HAu.
  pose proof (block_Relinquished this (burst_recorded K t)
                (set_sleepstartTime (wrap32 (totalTicks Ku)) (burst_recorded K t))
                Ku HAu Htu eq_refl) as HR.
  assert (Htbd : threadToBeDestroyed Ku = threadToBeDestroyed K)
    by (by destruct Hv as (_ & ? & _)).
  apply (sleep_wait_inv interrupt_Idle
           (λ K0, Relinquished K0
                  ∧ threadToBeDestroyed K0 = threadToBeDestroyed K)) in Hstep0
    as (K0 & h & r & [HR0 Htbd0] & Hr0 & -> & ->);
    [|apply Idle_keeps|by split].
  rewrite <- Htbd0. by apply (dispatch_Settled K0 h r).
Qed.

Lemma PutThreadToSleep_Inv fuel this K K' :
  AboutToSleep this K →
  threadToBeDestroyed K = None →
  PutThreadToSleep MAX_THREAD_COUNT interrupt_Idle fuel this K = Ok K' →
  Inv K'.
Proof.
  intros HA Htbd HP. apply after_dispatch_None. rewrite <- Htbd.
  by apply (PutThreadToSleep_Settled fuel this).
Qed.

Lemma mark_AboutToSleep c K :
  Settled K → currentThread K = Some c →
  AboutToSleep c (set_threadToBeDestroyed (Some c) (set_intLevel IntOff K)).
Proof.
  intros HI Hc.
  destruct (Settled_current_free c K HI Hc) as (_ & _ & Hcq & _).
  destruct (Settled_AboutToSleep c K HI Hc)
    as [Hcc Hrun Hnd Hrdy Hqnd Hqb Hpend Hwait].
  constructor; try done.
  intros d [= <-]. done.
Qed.

Lemma FinishThread_Settled fuel this K K' :
  Settled K →
  FinishThread MAX_THREAD_COUNT interrupt_Idle fuel this K = Ok K' →
  after_dispatch (Some this) K'.
Proof.
  intros HI HF. unfold FinishThread in HF. assert_inv HF.
  simpl in Hassert, HF. rewrite <- Hassert in HF.
  apply (PutThreadToSleep_Settled fuel this _ K') in HF; [done|].
  by apply mark_AboutToSleep.
Qed.

Lemma YieldCPU_Settled this K K' :
  Settled K →
  YieldCPU MAX_THREAD_COUNT this K = Ok K' →
  after_dispatch (threadToBeDestroyed K) K'.
Proof.
  intros HI HY. unfold YieldCPU in HY. assert_inv HY. simpl in Hassert.
  bind_inv HY. rename a into Ku.
  destruct (UpdateStats_same_view _ _ _ Hstep) as (Hv & Hc & t & Ht & Htu).
  assert (HI0 : Settled (set_intLevel IntOff K)) by (by destruct HI).
  pose proof (Settled_transfer _ _ Hv HI0) as HIu.
  bind_inv HY. rename a into K2.
  apply ThreadIsReadyToRun_Ok_inv in Hstep0 as (tu & Htu' & ->).
  assert (tu = burst_recorded (set_intLevel IntOff K) t) as -> by congruence.
  destruct Hv as (Hcu & Htbd & _).
  assert (Hcu' : currentThread Ku = Some this) by (rewrite Hcu; done).
  pose proof (yield_Relinquished this _ _ Ku HIu Hcu' Htu eq_refl) as HR.
  unfold FindNextThreadToRun in HY. simpl in HY.
  destruct (readyThreadList Ku ++ [this]) as [|h r] eqn:Hr; simpl in HY.
  { apply app_eq_nil in Hr as [_ Hr]. discriminate Hr. }
  change (threadToBeDestroyed K)
    with (threadToBeDestroyed (set_intLevel IntOff K)).
  rewrite <- Htbd.
  match type of HR with
  | Relinquished ?K0 =>
      apply (dispatch_Settled K0 h r); [exact HR|reflexivity|]
  end.
  match goal with
  | H : Schedule _ ?A = _ |- Schedule _ ?B = _ => replace B with A; [exact H|]
  end.
  by apply Kernel_eq.
Qed.

(** [SetChildExitCode] on the parent of the exiting thread [this]. *)
Lemma SetChildExitCode_Relinquished this parent exitcode K K' :
  Relinquished K →
  threadToBeDestroyed K = Some this →
  waitchild_of K this = Some (-1) →
  SetChildExitCode parent this exitcode K = Ok K' →
  Relinquished K'.
Proof.
  intros HR Htbd Hwt HS.
  assert (∃ tp, threadArray K !! parent = Some (Live tp)
     ∧ find_child (Z.to_nat (childcount tp)) 0 this (childpidArray tp)
       < childcount tp) as (tp & Htp & Hslot).
  { unfold SetChildExitCode in HS. bind_inv HS.
    apply deref_Ok_inv in Hstep as (pid & [= <-] & Htp).
    assert_inv HS. eauto. }
  rewrite (SetChildExitCode_Ok parent tp this exitcode K Htp Hslot) in HS.
  injection HS as <-.
  pose proof (find_child_range (Z.to_nat (childcount tp)) 0 this (childpidArray tp))
    as Hrange.
  destruct (decide _) as [Hw|Hw]; unfold slot_of in *.
  - destruct (rel_waiting _ HR parent (waitchild_id tp)) as [Hb Hq];
      [by apply obj_waitchild_Live|lia|].
    apply (wake_Relinquished parent tp); try done.
    + unfold status_of in Hb. rewrite Htp in Hb. simpl in Hb. congruence.
    + rewrite Htbd. intros [= ->].
      unfold waitchild_of in Hwt. rewrite Htp in Hwt. simpl in Hwt.
      assert (waitchild_id tp = -1) by congruence. lia.
  - eapply Relinquished_transfer; [|exact HR].
    repeat split; try done; observe;
      (destruct (decide (p = parent)) as [->|]; [|done]); by rewrite Htp.
Qed.

Lemma SetChildExitCode_pending parent this exitcode K K' :
  SetChildExitCode parent this exitcode K = Ok K' →
  threadToBeDestroyed K' = threadToBeDestroyed K.
Proof.
  intros HS.
  assert (∃ tp, threadArray K !! parent = Some (Live tp)
     ∧ find_child (Z.to_nat (childcount tp)) 0 this (childpidArray tp)
       < childcount tp) as (tp & Htp & Hslot).
  { unfold SetChildExitCode in HS. bind_inv HS.
    apply deref_Ok_inv in Hstep as (pid & [= <-] & Htp).
    assert_inv HS. eauto. }
  rewrite (SetChildExitCode_Ok parent tp this exitcode K Htp Hslot) in HS.
  injection HS as <-. by destruct (decide _).
Qed.

Lemma Exit_Settled fuel this terminateSim exitcode K K' :
  Settled K →
  Exit MAX_THREAD_COUNT interrupt_Idle fuel this terminateSim exitcode K = Ok K' →
  after_dispatch (Some this) K'.
Proof.
  intros HI HE. unfold Exit in HE. assert_inv HE. simpl in Hassert.
  bind_inv HE. rename a into Ku.
  destruct (UpdateStats_same_view _ _ _ Hstep) as (Hv & Hc & t & Ht & Htu).
  simpl in Hc, Ht.
  assert (HI0 : Settled (set_intLevel IntOff K)) by (by destruct HI).
  pose proof (Settled_transfer _ _ Hv HI0) as HIu.
  assert (Hcu : currentThread Ku = Some this) by (destruct Hv as (-> & _); done).
  rewrite Hcu in HE.
  bind_inv HE. apply deref_Ok_inv in Hstep0 as (pid & [= <-] & Ha).
  assert (a = burst_recorded (set_intLevel IntOff K) t) as -> by congruence.
  bind_inv HE. clear Hstep0 a.
  destruct (Settled_current_free this Ku HIu Hcu) as (_ & _ & _ & Hwt & _).
  pose proof (mark_AboutToSleep this Ku HIu Hcu) as HA.
  set (tu := burst_recorded (set_intLevel IntOff K) t) in *.
  assert (HR : Relinquished
                 (assign this (setStatus BLOCKED tu)
                    (set_threadToBeDestroyed (Some this) Ku))).
  { pose proof (block_Relinquished this tu tu _ HA Htu eq_refl) as HR.
    eapply Relinquished_transfer; [|exact HR].
    repeat split; done. }
  bind_inv HE. rename a into Kn.
  assert (HRn : Relinquished Kn ∧ threadToBeDestroyed Kn = Some this).
  { unfold Exit_set_parent_code in Hstep0.
    destruct (decide (ppid tu ≠ -1)); [|by injection Hstep0 as <-].
    assert_inv Hstep0.
    destruct (negb _); [|by injection Hstep0 as <-].
    split.
    - eapply SetChildExitCode_Relinquished; [exact HR|done| |exact Hstep0].
      observe. rewrite decide_True by done.
      rewrite (obj_waitchild_Live _ _ _ Htu) in Hwt. done.
    - by rewrite (SetChildExitCode_pending _ _ _ _ _ Hstep0). }
  bind_inv HE. destruct a as [nextThread K1].
  apply (exit_wait_inv interrupt_Idle
           (λ K0, Relinquished K0 ∧ threadToBeDestroyed K0 = Some this))
    in Hstep1 as (K0 & h & r & [HR0 Htbd0] & Hr0 & -> & ->);
    [|apply Idle_keeps|exact HRn].
  rewrite <- Htbd0. by apply (dispatch_Settled K0 h r).
Qed.

(** A thread that holds no CPU and no queue slot is made ready. *)
Lemma ThreadIsReadyToRun_Settled thread K K' :
  Settled K →
  status_of K thread = Some BLOCKED ∨ status_of K thread = Some JUST_CREATED →
  thread ∉ queued K →
  waitchild_of K thread = Some (-1) →
  threadToBeDestroyed K ≠ Some thread →
  ThreadIsReadyToRun thread K = Ok K' →
  Settled K' ∧ threadToBeDestroyed K' = threadToBeDestroyed K.
Proof.
  intros [(c & Hcc & Hcr) Hrun Hnd Hrdy Hqnd Hqb Hpend Hwait] Hst Hq Hw Hd HT.
  apply ThreadIsReadyToRun_Ok_inv in HT as (t & Ht & ->).
  assert (Hs : status_of K thread ≠ Some RUNNING ∧ status_of K thread ≠ Some READY)
    by (destruct Hst as [-> | ->]; done).
  destruct Hs as [Hnr Hnrdy].
  assert (Hpr : thread ∉ readyThreadList K) by (intros Hin; by apply Hrdy in Hin).
  split; [|done]. constructor.
  - exists c. observe. split; [done|]. rewrite decide_False; [done|]. congruence.
  - intros p. observe. destruct (decide (p = thread)) as [->|Hne]; [done|].
    apply Hrun.
  - simpl. apply NoDup_app. split; [done|]. split; [|apply NoDup_singleton].
    intros x Hx Hx'. apply list_elem_of_singleton in Hx'. by subst.
  - intros p. observe. rewrite elem_of_app, list_elem_of_singleton.
    destruct (decide (p = thread)) as [->|Hne]; [tauto|].
    rewrite Hrdy. tauto.
  - done.
  - intros p Hp. observe. destruct (decide (p = thread)) as [->|Hne]; [done|].
    by apply Hqb.
  - intros d Hdd. observe. destruct (decide (d = thread)) as [->|Hne]; [done|].
    by apply Hpend.
  - intros p w. observe. destruct (decide (p = thread)) as [->|Hne]; [|apply Hwait].
    intros [= <-] Hw'. rewrite (obj_waitchild_Live _ _ _ Ht) in Hw. congruence.
Qed.

Lemma ThreadIsReadyToRun_Inv thread K K' :
  Inv K →
  status_of K thread = Some BLOCKED ∨ status_of K thread = Some JUST_CREATED →
  thread ∉ queued K →
  waitchild_of K thread = Some (-1) →
  ThreadIsReadyToRun thread K = Ok K' →
  Inv K'.
Proof.
  intros HI Hst Hq Hw HT.
  destruct (ThreadIsReadyToRun_Settled thread K K') as [HS Htbd]; try done.
  - by apply Inv_Settled.
  - by rewrite (inv_pending _ HI).
  - apply Settled_Inv; [done|]. by rewrite Htbd, (inv_pending _ HI).
Qed.

(** C2 (as the code has it).  Started by the running thread in a state that
    satisfies the invariant [Settled], each of [YieldCPU],
    [PutThreadToSleep], [FinishThread] and [Exit] leaves a state that
    satisfies it when the next thread has been dispatched.  When that thread
    continues behind [_SWITCH], no thread is pending destruction (the strict
    form [Inv]); when it runs for the first time, it begins in [_ThreadRoot]
    and the thread that was pending - the caller, for [FinishThread] and
    [Exit] - stays pending.  [ThreadIsReadyToRun] keeps the invariant when
    it is applied to a [BLOCKED] or [JUST_CREATED] thread that is in no wait
    structure, waits for no child and is not pending destruction.
    [FindNextThreadToRun] followed by [Schedule] establishes it from any
    state in which the outgoing thread has given up [RUNNING]. *)
Theorem operations_keep_invariant K :
  Settled K →
  (∀ this K',
     YieldCPU MAX_THREAD_COUNT this K = Ok K' →
     after_dispatch (threadToBeDestroyed K) K')
  ∧ (∀ fuel this K',
       PutThreadToSleep MAX_THREAD_COUNT interrupt_Idle fuel this K = Ok K' →
       after_dispatch (threadToBeDestroyed K) K')
  ∧ (∀ fuel this K',
       FinishThread MAX_THREAD_COUNT interrupt_Idle fuel this K = Ok K' →
       after_dispatch (Some this) K')
  ∧ (∀ fuel this terminateSim exitcode K',
       Exit MAX_THREAD_COUNT interrupt_Idle fuel this terminateSim exitcode K
       = Ok K' →
       after_dispatch (Some this) K')
  ∧ (∀ thread K',
       status_of K thread = Some BLOCKED
       ∨ status_of K thread = Some JUST_CREATED →
       thread ∉ queued K →
       waitchild_of K thread = Some (-1) →
       threadToBeDestroyed K ≠ Some thread →
       ThreadIsReadyToRun thread K = Ok K' →
       Settled K' ∧ threadToBeDestroyed K' = threadToBeDestroyed K)
  ∧ (∀ Kr h K1 K',
       Relinquished Kr →
       FindNextThreadToRun Kr = (Some h, K1) →
       Schedule (Some h) K1 = Ok K' →
       after_dispatch (threadToBeDestroyed Kr) K').
Proof.
  intros HI. split; [|split; [|split; [|split; [|split]]]].
  - intros this K'. by apply YieldCPU_Settled.
  - intros fuel this K' HP. eapply PutThreadToSleep_Settled; [|exact HP].
    apply Settled_AboutToSleep; [done|].
    unfold PutThreadToSleep in HP. by assert_inv HP.
  - intros fuel this K'. by apply FinishThread_Settled.
  - intros fuel this terminateSim exitcode K'. by apply Exit_Settled.
  - intros thread K'. by apply ThreadIsReadyToRun_Settled.
  - intros Kr h K1 K' HR HF HS. unfold FindNextThreadToRun in HF.
    destruct (readyThreadList Kr) as [|h' r] eqn:Hr; simpl in HF; [discriminate|].
    injection HF as -> <-. by apply (dispatch_Settled Kr h r).
Qed.

End invariant_facts.

(** ** More operations that keep the scheduling invariant *)

Section invariant_more_facts.

Context {arith : PredictionArith}.
Variable MAX_THREAD_COUNT : nat.
Variable interrupt_Idle : Kernel → option Kernel.

Implicit Types (K : Kernel) (t : NachOSThread) (p q c this : Z).

Hypothesis Idle_disciplined : handlers_disciplined interrupt_Idle.

Lemma status_of_assign p t K q :
  status_of (assign p t K) q
  = if decide (q = p) then Some (status t) else status_of K q.
Proof. unfold status_of; simpl. apply obj_status_insert. Qed.

Lemma waitchild_of_assign p t K q :
  waitchild_of (assign p t K) q
  = if decide (q = p) then Some (waitchild_id t) else waitchild_of K q.
Proof. unfold waitchild_of; simpl. apply obj_waitchild_insert. Qed.

Lemma status_of_set_intLevel l K q :
  status_of (set_intLevel l K) q = status_of K q.
Proof. done. Qed.

Lemma waitchild_of_set_intLevel l K q :
  waitchild_of (set_intLevel l K) q = waitchild_of K q.
Proof. done. Qed.

Lemma status_of_Live p t K :
  threadArray K !! p = Some (Live t) → status_of K p = Some (status t).
Proof. unfold status_of. by intros ->. Qed.

Lemma waitchild_of_Live p t K :
  threadArray K !! p = Some (Live t) → waitchild_of K p = Some (waitchild_id t).
Proof. unfold waitchild_of. by intros ->. Qed.

Ltac look :=
  repeat first
    [ rewrite status_of_assign
    | rewrite waitchild_of_assign
    | rewrite status_of_set_intLevel
    | rewrite waitchild_of_set_intLevel ].

(** The caller records the child it waits for. *)
Lemma wait_AboutToSleep c t w l K :
  Inv K → currentThread K = Some c →
  threadArray K !! c = Some (Live t) →
  AboutToSleep c (set_intLevel l (assign c (set_waitchild_id w t) K)).
Proof.
  intros HI Hc Ht.
  destruct (Inv_current_free c K HI Hc) as (Hcr & Hcrdy & Hcq & Hcw).
  destruct (Inv_AboutToSleep c K HI Hc)
    as [[_ _] Hrun Hnd Hrdy Hqnd Hqb Hpend Hwait].
  pose proof (status_of_Live c t K Ht) as Hst.
  constructor.
  - split; [done|]. look. rewrite decide_True by done. simpl. congruence.
  - intros p. look. destruct (decide (p = c)); [done|]. apply Hrun.
  - done.
  - intros p. look. destruct (decide (p = c)) as [->|Hne]; [|apply Hrdy].
    simpl. rewrite <- Hst. apply Hrdy.
  - done.
  - intros p Hp Hne. look. rewrite decide_False by done. by apply Hqb.
  - intros d Hd. simpl in Hd. rewrite (inv_pending K HI) in Hd. done.
  - intros p w'. look. destruct (decide (p = c)) as [->|Hne].
    + intros _ _. split; [done|]. by intros H.
    + intros Hp Hw'. destruct (Hwait p w' Hp Hw') as [Hq Hb]. split; [done|].
      intros _. by apply Hb.
Qed.

(** X17.  [JoinWithChild] keeps the scheduling invariant: the call either
    returns at once and leaves the state as it is, or the caller is
    suspended and the invariant holds when the next thread has been
    dispatched. *)
Theorem JoinWithChild_keeps_invariant fuel this whichchild K r :
  Inv K →
  JoinWithChild MAX_THREAD_COUNT interrupt_Idle fuel this whichchild K = Ok r →
  match r with
  | JoinReturned _ K' => K' = K
  | JoinSuspended oldLevel K' => oldLevel = intLevel K ∧ Inv K'
  end.
Proof.
  intros HI HJ. unfold JoinWithChild in HJ. bind_inv HJ. rename a into t.
  apply deref_Ok_inv in Hstep as (pid & [= <-] & Ht).
  destruct (exitedChild t whichchild); simpl in HJ.
  - by injection HJ as <-.
  - bind_inv HJ. injection HJ as <-. split; [done|].
    eapply (PutThreadToSleep_Inv MAX_THREAD_COUNT interrupt_Idle Idle_disciplined);
      [| |exact Hstep].
    + apply wait_AboutToSleep; try done.
      unfold PutThreadToSleep in Hstep. by assert_inv Hstep.
    + simpl. apply (inv_pending K HI).
Qed.

Lemma queued_insert this when K :
  queued (set_sleepQueueHead (wait_queue_insert this when (sleepQueueHead K)) K)
  ≡ₚ this :: queued K.
Proof.
  unfold queued. simpl.
  destruct (wait_queue_insert_split this when (sleepQueueHead K))
    as (l1 & l2 & Heq & -> & _).
  rewrite Heq, !fmap_app, fmap_cons. simpl.
  rewrite !app_assoc. by rewrite <- Permutation_middle.
Qed.

(** The caller has put itself on the time-sorted queue. *)
Lemma queue_AboutToSleep c t t' when l K :
  Inv K → currentThread K = Some c →
  threadArray K !! c = Some (Live t) →
  status t' = status t → waitchild_id t' = waitchild_id t →
  AboutToSleep c
    (assign c t'
       (set_intLevel l
          (set_sleepQueueHead
             (wait_queue_insert c when (sleepQueueHead K)) K))).
Proof.
  intros HI Hc Ht Hs' Hw'.
  destruct (Inv_current_free c K HI Hc) as (Hcr & Hcrdy & Hcq & Hcw).
  destruct (Inv_AboutToSleep c K HI Hc)
    as [[_ _] Hrun Hnd Hrdy Hqnd Hqb Hpend Hwait].
  pose proof (queued_insert c when K) as Hperm.
  pose proof (status_of_Live c t K Ht) as Hst.
  pose proof (waitchild_of_Live c t K Ht) as Hwt.
  set (K1 := set_sleepQueueHead (wait_queue_insert c when (sleepQueueHead K)) K)
    in *.
  assert (Hmem : ∀ p, p ∈ queued K1 ↔ p = c ∨ p ∈ queued K).
  { intros p. rewrite Hperm. apply elem_of_cons. }
  assert (HsK : ∀ p, status_of K1 p = status_of K p) by done.
  assert (HwK : ∀ p, waitchild_of K1 p = waitchild_of K p) by done.
  assert (Hq1 : queued (assign c t' (set_intLevel l K1)) = queued K1) by done.
  constructor; rewrite ?Hq1.
  - split; [done|]. look. rewrite decide_True by done. congruence.
  - intros p. look. destruct (decide (p = c)); [done|]. rewrite HsK. apply Hrun.
  - done.
  - intros p. look. rewrite HsK.
    destruct (decide (p = c)) as [->|Hne]; [|apply Hrdy].
    rewrite Hs'. rewrite <- Hst. apply Hrdy.
  - rewrite Hperm. by apply NoDup_cons.
  - intros p Hp Hne. look. rewrite decide_False by done. rewrite HsK.
    apply Hmem in Hp as [->|Hp]; [done|]. by apply Hqb.
  - intros d Hd. simpl in Hd. rewrite (inv_pending K HI) in Hd. done.
  - intros p w'. look. rewrite HsK, HwK.
    destruct (decide (p = c)) as [->|Hne].
    + intros [= <-] Hne. congruence.
    + intros Hp Hw''. destruct (Hwait p w' Hp Hw'') as [Hq Hb]. split.
      * rewrite Hmem. by intros [->|Hin].
      * intros _. by apply Hb.
Qed.

Lemma occurrences_none p (l : list Z) : p ∉ l → occurrences p l = 0%nat.
Proof.
  unfold occurrences. induction l as [|x l IH]; intros Hp; [done|].
  apply not_elem_of_cons in Hp as [Hne Hp]. rewrite filter_cons.
  destruct (decide (x = p)) as [->|_]; [done|]. by apply IH.
Qed.

Lemma occurrences_once p (l : list Z) :
  NoDup l → p ∈ l → occurrences p l = 1%nat.
Proof.
  induction l as [|x l IH]; intros Hnd Hin.
  - by apply elem_of_nil in Hin.
  - apply NoDup_cons in Hnd as [Hx Hnd]. unfold occurrences in *.
    rewrite filter_cons. destruct (decide (x = p)) as [->|Hne].
    + simpl. f_equal. by apply occurrences_none.
    + apply IH; [done|]. apply elem_of_cons in Hin as [->|Hin]; done.
Qed.

(** With a thread ready the CPU does not idle: [PutThreadToSleep] dispatches
    the head of the ready list and touches neither wait structure. *)
Lemma PutThreadToSleep_queues fuel this h r K K' :
  readyThreadList K = h :: r → h ≠ this →
  threadToBeDestroyed K = None →
  PutThreadToSleep MAX_THREAD_COUNT interrupt_Idle fuel this K = Ok K' →
  currentThread K' = Some h
  ∧ readyThreadList K' = r
  ∧ sleepQueueHead K' = sleepQueueHead K
  ∧ sleepingThreadList K' = sleepingThreadList K
  ∧ status_of K' this = Some BLOCKED.
Proof.
  intros Hr Hne Htbd HP. unfold PutThreadToSleep in HP.
  assert_inv HP. assert_inv HP. bind_inv HP. rename a into Ku.
  destruct (UpdateStats_effect _ _ _ _ Hstep)
    as (t & Hc & Ht & (Hcu & Htu & Hru & Hsu & Hqu & _) & Hau).
  bind_inv HP. apply deref_Ok_inv in Hstep0 as (pid & [= <-] & Ha).
  match type of HP with
  | sleep_wait _ _ ?Kb ≫= _ = _ =>
      assert (Hrb : readyThreadList Kb = h :: r) by (simpl; congruence);
      rewrite (bind_Ok _ _ _ (sleep_wait_ready interrupt_Idle fuel Kb h r Hrb))
        in HP
  end.
  unfold Schedule in HP. bind_inv HP. rename a0 into K1.
  apply Schedule_switch_Ok_inv in Hstep0
    as (old & told & next & tn & Hcur & Hold & _ & [= <-] & Hth & ->).
  simpl in Hcur, Hold.
  assert (old = this) as -> by congruence.
  rewrite lookup_insert_eq in Hold. injection Hold as <-.
  assert (Hview :
    ∀ S, S = switched this
               (setStatus BLOCKED
                  (set_sleepstartTime (wrap32 (totalTicks Ku)) a))
               h tn
               (set_readyThreadList r
                  (assign this
                     (setStatus BLOCKED
                        (set_sleepstartTime (wrap32 (totalTicks Ku)) a))
                     Ku)) →
      currentThread S = Some h
      ∧ readyThreadList S = r
      ∧ sleepQueueHead S = sleepQueueHead K
      ∧ sleepingThreadList S = sleepingThreadList K
      ∧ status_of S this = Some BLOCKED
      ∧ threadToBeDestroyed S = None).
  { intros S ->. split; [done|]. split; [done|]. split; [done|].
    split; [done|]. split; [|simpl; congruence].
    unfold status_of, switched; simpl. rewrite lookup_insert_eq.
    by rewrite decide_False by done. }
  apply dispatched_Ok_inv in HP as [[_ HT]|[_ ->]].
  - apply Schedule_tail_Ok_inv in HT as [[_ ->]|(d & Hd & _)].
    + destruct (Hview _ eq_refl) as (? & ? & ? & ? & ? & _). done.
    + destruct (Hview _ eq_refl) as (_ & _ & _ & _ & _ & Hn). congruence.
  - destruct (Hview _ eq_refl) as (? & ? & ? & ? & ? & _). done.
Qed.

(** X18.  [SortedInsertInWaitQueue] keeps the scheduling invariant when the
    next thread has been dispatched.  When a thread is ready at the call, so
    that the CPU does not idle in between, the caller is then accounted for
    as a [BLOCKED] thread that is on the wait structures exactly once and
    not on the ready list: the time-sorted queue is the old one with the
    entry of the caller inserted, and the sleeping set is as it was.  (While
    the CPU idles, an interrupt handler may already take the caller off the
    queue and make it ready.) *)
Theorem SortedInsertInWaitQueue_keeps_invariant fuel this when K K' :
  Inv K →
  SortedInsertInWaitQueue MAX_THREAD_COUNT interrupt_Idle fuel this when K = Ok K' →
  Inv K'
  ∧ (readyThreadList K ≠ [] →
     sleepQueueHead K' = wait_queue_insert this when (sleepQueueHead K)
     ∧ sleepingThreadList K' = sleepingThreadList K
     ∧ status_of K' this = Some BLOCKED
     ∧ occurrences this (queued K') = 1%nat
     ∧ occurrences this (readyThreadList K') = 0%nat).
Proof.
  intros HI HS. unfold SortedInsertInWaitQueue in HS. bind_inv HS. rename a into t.
  apply deref_Ok_inv in Hstep as (pid & [= <-] & Ht). simpl in Ht.
  assert (Hc : currentThread K = Some this).
  { unfold PutThreadToSleep in HS. by assert_inv HS. }
  assert (HI' : Inv K').
  { eapply (PutThreadToSleep_Inv MAX_THREAD_COUNT interrupt_Idle Idle_disciplined);
      [| |exact HS].
    - by apply (queue_AboutToSleep this t).
    - simpl. apply (inv_pending K HI). }
  split; [done|]. intros Hrdy.
  destruct (readyThreadList K) as [|h r] eqn:Hr; [done|].
  assert (Hne : h ≠ this).
  { intros ->. destruct (Inv_current_free this K HI Hc) as (_ & Hnr & _).
    apply Hnr. rewrite Hr. left. }
  apply (PutThreadToSleep_queues fuel this h r) in HS
    as (Hc' & Hr' & Hq' & Hs' & Hst'); [|done|done|apply (inv_pending K HI)].
  simpl in Hq', Hs'.
  split; [done|]. split; [done|]. split; [done|]. split.
  - apply occurrences_once; [apply (inv_queued_once K' HI')|].
    unfold queued. rewrite Hq'. apply elem_of_app. right.
    destruct (wait_queue_insert_split this when (sleepQueueHead K))
      as (l1 & l2 & _ & -> & _).
    rewrite fmap_app, fmap_cons. apply elem_of_app. right. left.
  - apply occurrences_none. intros Hin.
    apply (inv_ready K' HI') in Hin. congruence.
Qed.

(** A thread object changes in fields the invariant does not look at. *)
Lemma assign_same_view p t t' K :
  threadArray K !! p = Some (Live t) →
  status t' = status t → waitchild_id t' = waitchild_id t →
  same_view K (assign p t' K).
Proof.
  intros Ht Hs Hw. repeat split; try done; look.
  - destruct (decide (p0 = p)) as [->|]; [|done].
    by rewrite Hs, (status_of_Live _ _ _ Ht).
  - destruct (decide (p0 = p)) as [->|]; [|done].
    by rewrite Hw, (waitchild_of_Live _ _ _ Ht).
Qed.

Lemma set_intLevel_same_view l K : same_view K (set_intLevel l K).
Proof. repeat split; done. Qed.

(** X19.  [ThreadFork] gives the thread a stack whose fencepost passes
    [CheckOverflow], makes it [READY] at the tail of the ready list and
    restores the interrupt level; applied to a just created thread that
    waits for no child it keeps the scheduling invariant. *)
Theorem ThreadFork_spec this t K :
  threadArray K !! this = Some (Live t) →
  ∃ K' t',
    ThreadFork this K = Ok K'
    ∧ threadArray K' !! this = Some (Live t')
    ∧ status t' = READY
    ∧ CheckOverflow t' = Ok tt
    ∧ readyThreadList K' = readyThreadList K ++ [this]
    ∧ intLevel K' = intLevel K
    ∧ (Inv K → status t = JUST_CREATED → waitchild_id t = -1 → Inv K').
Proof.
  intros Ht.
  set (t1 := set_PCState ThreadRoot (set_stack (Some STACK_FENCEPOST) t)).
  set (K1 := set_intLevel IntOff (assign this t1 K)).
  assert (Ht1 : threadArray K1 !! this = Some (Live t1))
    by (unfold K1; simpl; apply lookup_insert_eq).
  assert (HF : ThreadFork this K
               = Ok (set_intLevel (intLevel K)
                       (set_readyThreadList (readyThreadList K1 ++ [this])
                          (assign this (setStatus READY t1) K1)))).
  { unfold ThreadFork, AllocateThreadStack.
    rewrite (bind_Ok _ _ t) by (by apply deref_Live). simpl.
    fold t1. fold K1. by rewrite (ThreadIsReadyToRun_Ok this t1 K1 Ht1). }
  eexists _, _. split; [exact HF|]. simpl.
  split; [apply lookup_insert_eq|]. split; [done|]. split.
  { reflexivity. }
  split; [done|]. split; [done|].
  intros HI Hs Hw.
  assert (HI1 : Inv K1).
  { eapply Inv_transfer; [apply set_intLevel_same_view|].
    eapply Inv_transfer; [apply (assign_same_view this t t1); done|]. done. }
  assert (HI2 : Inv (set_readyThreadList (readyThreadList K1 ++ [this])
                       (assign this (setStatus READY t1) K1))).
  { apply (ThreadIsReadyToRun_Inv this K1); [done| | | |].
    - right. unfold status_of. by rewrite Ht1; simpl; rewrite Hs.
    - intros Hq. apply (inv_queued _ HI1) in Hq. unfold status_of in Hq.
      rewrite Ht1 in Hq. simpl in Hq. congruence.
    - unfold waitchild_of. by rewrite Ht1; simpl; rewrite Hw.
    - by apply ThreadIsReadyToRun_Ok. }
  eapply Inv_transfer; [|exact HI2]. apply set_intLevel_same_view.
Qed.

Lemma wrap32_minus_wrap32 a b c :
  wrap32 (a + (b - wrap32 c)) = wrap32 (a + (b - c)).
Proof.
  unfold wrap32.
  rewrite <- (Zplus_mod_idemp_r (b - c mod 2 ^ 32)), Zminus_mod_idemp_r.
  by rewrite Zplus_mod_idemp_r.
Qed.

Lemma burst_recorded_sleepTime K t :
  sleepTime (burst_recorded K t) = sleepTime t.
Proof.
  unfold burst_recorded. destruct (decide _); [|done].
  unfold record_burst; simpl.
  destruct (decide (maxCPUburst t < cpuburst_of K t)); simpl; [done|].
  by destruct (decide (cpuburst_of K t < minCPUburst t)).
Qed.

Lemma NachOSThread_Schedule_Ok this t K :
  threadArray K !! this = Some (Live t) →
  NachOSThread_Schedule this K
  = Ok (set_intLevel (intLevel K)
          (set_readyThreadList (readyThreadList K ++ [this])
             (assign this
                (setStatus READY
                   (if decide (status t = BLOCKED)
                    then set_sleepTime
                           (wrap32 (sleepTime t
                                    + (totalTicks K - sleepstartTime t))) t
                    else t))
                (set_intLevel IntOff K)))).
Proof.
  intros Ht. unfold NachOSThread_Schedule.
  rewrite (bind_Ok _ _ t) by (by apply deref_Live).
  destruct (decide (status t = BLOCKED)).
  - erewrite ThreadIsReadyToRun_Ok by (simpl; apply lookup_insert_eq).
    simpl. f_equal. apply Kernel_eq; simpl; try done.
    by rewrite insert_insert_eq.
  - by rewrite (ThreadIsReadyToRun_Ok this t) by done.
Qed.

(** X20.  The time a thread sleeps is accounted for: when a thread that
    went to sleep through [PutThreadToSleep] at tick [totalTicks K] is put
    back on the ready queue by [NachOSThread::Schedule] in a later state
    [K2], its [sleepTime] has grown by [totalTicks K2 - totalTicks K] in
    [unsigned] arithmetic, and it is [READY] at the tail of the ready list. *)
Theorem sleep_time_is_accounted fuel this t h r th K :
  currentThread K = Some this →
  intLevel K = IntOff →
  threadArray K !! this = Some (Live t) →
  CheckOverflow t = Ok tt →
  readyThreadList K = h :: r → h ≠ this →
  threadArray K !! h = Some (Live th) →
  threadToBeDestroyed K = None →
  ∃ K1 t1,
    PutThreadToSleep MAX_THREAD_COUNT interrupt_Idle fuel this K = Ok K1
    ∧ threadArray K1 !! this = Some (Live t1)
    ∧ status t1 = BLOCKED
    ∧ ∀ K2,
        threadArray K2 !! this = Some (Live t1) →
        ∃ K3 t3,
          NachOSThread_Schedule this K2 = Ok K3
          ∧ threadArray K3 !! this = Some (Live t3)
          ∧ status t3 = READY
          ∧ sleepTime t3
            = wrap32 (sleepTime t + (totalTicks K2 - totalTicks K))
          ∧ readyThreadList K3 = readyThreadList K2 ++ [this]
          ∧ intLevel K3 = intLevel K2.
Proof.
  intros Hc Hl Ht Hov Hr Hne Hth Htbd.
  destruct (PutThreadToSleep_Ok MAX_THREAD_COUNT interrupt_Idle fuel this t h r th K
              Hc Hl Ht Hov Hr Hne Hth Htbd) as (Ku & HU & HP).
  match type of HP with
  | _ = Ok (arrived th (switched this ?tb h th _)) =>
      destruct (slept_view this tb h th r Ku Hne) as (Hthis & _);
      exists (arrived th (switched this tb h th
                (set_readyThreadList r (assign this tb Ku)))),
             (set_PCState AfterSWITCH tb)
  end.
  split; [exact HP|]. split; [exact Hthis|]. split; [done|].
  intros K2 Ht2.
  rewrite (NachOSThread_Schedule_Ok this _ K2 Ht2).
  eexists _, _. split; [reflexivity|]. simpl.
  split; [apply lookup_insert_eq|]. split; [done|].
  split; [|done]. rewrite burst_recorded_sleepTime.
  apply wrap32_minus_wrap32.
Qed.

(** X21.  [NachOSThread::Schedule] keeps the scheduling invariant when it
    wakes a [BLOCKED] thread that is on no wait structure and waits for no
    child. *)
Theorem NachOSThread_Schedule_keeps_invariant this t K K' :
  Inv K →
  threadArray K !! this = Some (Live t) →
  status t = BLOCKED →
  this ∉ queued K →
  waitchild_id t = -1 →
  NachOSThread_Schedule this K = Ok K' →
  Inv K' ∧ status_of K' this = Some READY.
Proof.
  intros HI Ht Hs Hq Hw HS.
  rewrite (NachOSThread_Schedule_Ok this t K Ht) in HS. injection HS as <-.
  rewrite decide_True by done.
  set (t1 := set_sleepTime
               (wrap32 (sleepTime t + (totalTicks K - sleepstartTime t))) t).
  set (K1 := assign this t1 (set_intLevel IntOff K)).
  assert (Ht1 : threadArray K1 !! this = Some (Live t1))
    by (unfold K1; simpl; apply lookup_insert_eq).
  assert (HI1 : Inv K1).
  { eapply Inv_transfer;
      [apply (assign_same_view this t t1 (set_intLevel IntOff K)); done|].
    eapply Inv_transfer; [apply set_intLevel_same_view|done]. }
  split.
  - eapply Inv_transfer; [apply set_intLevel_same_view|].
    apply (ThreadIsReadyToRun_Inv this K1); [done| | | |].
    + left. rewrite (status_of_Live this t1 K1 Ht1). simpl. by rewrite Hs.
    + done.
    + rewrite (waitchild_of_Live this t1 K1 Ht1). simpl. by rewrite Hw.
    + rewrite (ThreadIsReadyToRun_Ok this t1 K1 Ht1).
      f_equal. apply Kernel_eq; simpl; try done.
      by rewrite insert_insert_eq.
  - unfold status_of; simpl. by rewrite lookup_insert_eq.
Qed.

End invariant_more_facts.

(** ** The time-sorted queue as a stable sort *)

Section wait_queue_more_facts.

Implicit Types (q : list TimeSortedWaitQueue) (calls : list (Z * Z)).

Lemma wait_queue_insert_stable (c : Z * Z) q w :
  ascending q →
  wait_queue_insert c.1 c.2 q ≡ₚ q ++ [c]
  ∧ filter (λ e, GetWhen e = w) (wait_queue_insert c.1 c.2 q)
    = filter (λ e, GetWhen e = w) (q ++ [c]).
Proof.
  intros Hq. destruct c as [this when]. simpl.
  destruct (wait_queue_insert_split this when q)
    as (l1 & l2 & -> & -> & Hall & Hhd).
  unfold ascending in Hq. apply StronglySorted_app in Hq as (_ & _ & Hs2).
  pose proof (ascending_later when l2 Hs2 Hhd) as Hl2.
  split.
  - rewrite <- Permutation_middle. apply Permutation_cons_append.
  - rewrite !filter_app, !filter_cons, !filter_nil.
    change (GetWhen (this, when)) with when.
    destruct (decide (when = w)) as [->|Hne].
    + assert (Hnil : filter (λ e, GetWhen e = w) l2 = []).
      { clear -Hl2. induction Hl2 as [|e l He _ IH]; [done|].
        rewrite filter_cons, decide_False by lia. done. }
      by rewrite Hnil, app_nil_r.
    + by rewrite app_nil_r.
Qed.

Lemma wait_queue_foldl_stable calls q w :
  ascending q →
  foldl (λ q c, wait_queue_insert c.1 c.2 q) q calls ≡ₚ q ++ calls
  ∧ filter (λ e, GetWhen e = w)
      (foldl (λ q c, wait_queue_insert c.1 c.2 q) q calls)
    = filter (λ e, GetWhen e = w) (q ++ calls).
Proof.
  revert q. induction calls as [|c calls IH]; intros q Hq; simpl.
  - by rewrite app_nil_r.
  - destruct (wait_queue_insert_stable c q w Hq) as [Hp Hf].
    destruct (IH (wait_queue_insert c.1 c.2 q)
                (wait_queue_insert_ascending _ _ _ Hq)) as [Hp' Hf'].
    split.
    + rewrite Hp', Hp. by rewrite <- app_assoc.
    + rewrite Hf'. rewrite filter_app, Hf, <- filter_app.
      by rewrite <- app_assoc.
Qed.

(** X22.  [SortedInsertInWaitQueue] sorts stably: after any sequence of
    insertions into the empty queue, the queue holds exactly the inserted
    entries, none lost and none twice, and the entries of each wake-up time
    stand in the order in which they were inserted. *)
Theorem wait_queue_inserts_stable calls :
  wait_queue_inserts calls ≡ₚ calls
  ∧ ∀ w, filter (λ e, GetWhen e = w) (wait_queue_inserts calls)
         = filter (λ e, GetWhen e = w) calls.
Proof.
  unfold wait_queue_inserts. split.
  - apply (wait_queue_foldl_stable calls [] 0). constructor.
  - intros w. apply (wait_queue_foldl_stable calls [] w). constructor.
Qed.

End wait_queue_more_facts.

(** ** The end of the batch run in main.cc *)

Section main_facts.

Context {arith : PredictionArith}.
Variable MAX_THREAD_COUNT : nat.
Variable interrupt_Idle : Kernel → option Kernel.

Implicit Types (K : Kernel) (t : NachOSThread) (this : Z).

Lemma first_not_exited_spec n i exited :
  let r := first_not_exited n i exited in
  i ≤ r ≤ i + Z.of_nat n
  ∧ (∀ j, i ≤ j < r → exited j = true)
  ∧ (r < i + Z.of_nat n → exited r = false).
Proof.
  revert i. induction n as [|n IH]; intros i; simpl.
  - split; [lia|]. split; intros; lia.
  - destruct (exited i) eqn:He; simpl.
    + destruct (IH (i + 1)) as (Hr & Hall & Hstop).
      split; [lia|]. split.
      * intros j Hj. destruct (decide (j = i)) as [->|]; [done|].
        apply Hall. lia.
      * intros Hlt. apply Hstop. lia.
    + split; [lia|]. split; [intros; lia|done].
Qed.

Lemma first_not_exited_all n exited :
  first_not_exited n 0 exited = Z.of_nat n
  ↔ ∀ j, 0 ≤ j < Z.of_nat n → exited j = true.
Proof.
  destruct (first_not_exited_spec n 0 exited) as (Hr & Hall & Hstop).
  simpl in *. split.
  - intros Heq j Hj. apply Hall. lia.
  - intros H.
    destruct (decide (first_not_exited n 0 exited = Z.of_nat n)); [done|].
    assert (Hlt : first_not_exited n 0 exited < 0 + Z.of_nat n) by lia.
    specialize (Hstop Hlt). rewrite H in Hstop by lia. done.
Qed.

(** X23.  [main] asks [Exit] to end the simulation exactly when every
    thread created so far, other than the main thread itself, has called
    exit; it passes exit code 0 and has marked the main thread as exited. *)
Theorem main_batch_exit_flag fuel thread_index this K :
  currentThread K = Some this →
  0 ≤ thread_index →
  ∃ terminateSim,
    main_batch_exit MAX_THREAD_COUNT interrupt_Idle fuel thread_index K
    = Exit MAX_THREAD_COUNT interrupt_Idle fuel this terminateSim 0
        (set_exitThreadArray (store this true (exitThreadArray K)) K)
    ∧ (terminateSim = true
       ↔ ∀ j, 0 ≤ j < thread_index → j ≠ this → exitThreadArray K j = true).
Proof.
  intros Hc Hn. unfold main_batch_exit. rewrite Hc. simpl. rewrite Hc. simpl.
  eexists. split; [reflexivity|].
  rewrite bool_decide_eq_true.
  pose proof (first_not_exited_all (Z.to_nat thread_index)
                (store this true (exitThreadArray K))) as Hiff.
  rewrite Z2Nat.id in Hiff by done. rewrite Hiff.
  unfold store. split; intros H j Hj.
  - intros Hne. specialize (H j Hj). by rewrite decide_False in H.
  - destruct (decide (j = this)); [done|]. by apply H.
Qed.

(** X24.  When the main thread is the last one (every other thread created
    has called exit, nothing is ready and the main thread has no parent),
    the end of the batch run halts the machine. *)
Theorem main_last_thread_halts fuel thread_index this t K :
  currentThread K = Some this →
  threadArray K !! this = Some (Live t) →
  ppid t = -1 →
  wrap32 (totalTicks K - startTime t) ≠ 0 →
  readyThreadList K = [] →
  0 ≤ thread_index →
  (∀ j, 0 ≤ j < thread_index → j ≠ this → exitThreadArray K j = true) →
  main_batch_exit MAX_THREAD_COUNT interrupt_Idle (S fuel) thread_index K
  = Halted.
Proof.
  intros Hc Ht Hpp Hdiv Hr Hn Hall.
  unfold main_batch_exit. rewrite Hc. simpl. rewrite Hc. simpl.
  set (K1 := set_exitThreadArray (store this true (exitThreadArray K)) K).
  assert (Hflag : bool_decide
                    (first_not_exited (Z.to_nat thread_index) 0
                       (store this true (exitThreadArray K)) = thread_index)
                  = true).
  { apply bool_decide_eq_true.
    pose proof (first_not_exited_all (Z.to_nat thread_index)
                  (store this true (exitThreadArray K))) as Hiff.
    rewrite Z2Nat.id in Hiff by done. apply Hiff.
    intros j Hj. unfold store. destruct (decide (j = this)); [done|].
    by apply Hall. }
  rewrite Hflag.
  destruct (Exit_prefix MAX_THREAD_COUNT interrupt_Idle (S fuel) this t true
              0 K1 Hc Ht Hdiv) as (Ku & HU & HE).
  destruct (UpdateStats_effect _ _ _ _ HU) as (_ & _ & _ & (_ & _ & Hru & _) & _).
  simpl in Hru.
  destruct (burst_recorded_status K1 t) as (_ & _ & Hppu & _).
  rewrite HE. unfold Exit_set_parent_code.
  rewrite decide_False by (rewrite Hppu, Hpp; by intros H; apply H).
  simpl. unfold FindNextThreadToRun. simpl. by rewrite Hru, Hr.
Qed.

(** X25.  A thread that exits in the tick in which it started makes the
    summary of [Exit] divide by zero, before the thread is marked for
    destruction and before its exit code reaches the parent. *)
Theorem Exit_divides_by_zero fuel this t terminateSim exitcode K :
  currentThread K = Some this →
  threadArray K !! this = Some (Live t) →
  wrap32 (totalTicks K - startTime t) = 0 →
  Exit MAX_THREAD_COUNT interrupt_Idle fuel this terminateSim exitcode K
  = Abort DivisionByZero.
Proof.
  intros Hc Ht Hdiv.
  pose proof (UpdateStats_Ok MAX_THREAD_COUNT this t (set_intLevel IntOff K) Hc Ht)
    as HU.
  destruct (UpdateStats_effect _ _ _ _ HU)
    as (t0 & _ & Ht0 & (Hcu & _ & _ & _ & _ & _ & Hticks & _) & Hau).
  simpl in Ht0. assert (t0 = t) as -> by congruence.
  change (burst_recorded (set_intLevel IntOff K) t) with (burst_recorded K t) in Hau.
  unfold Exit.
  rewrite (bind_Ok _ _ tt) by (apply ASSERT_true, bool_decide_eq_true_2; done).
  rewrite (bind_Ok _ _ _ HU).
  rewrite Hcu. simpl currentThread. rewrite Hc.
  rewrite (bind_Ok _ _ (burst_recorded K t))
    by (apply deref_Live; rewrite Hau; apply lookup_insert_eq).
  rewrite Hticks. simpl totalTicks. rewrite burst_recorded_startTime.
  destruct (decide (wrap32 (totalTicks K - startTime t) = 0)); done.
Qed.

End main_facts.

(** ** Destruction of a finished thread *)

Section destruction_facts.

Context {arith : PredictionArith}.
Variable MAX_THREAD_COUNT : nat.
Variable interrupt_Idle : Kernel → option Kernel.

Implicit Types (K : Kernel) (t : NachOSThread) (p this next : Z).

Hypothesis Idle_keeps : handlers_keep_threads interrupt_Idle.

Lemma kept_Idle this K Kx Ky :
  kept this K Kx → interrupt_Idle Kx = Some Ky → kept this K Ky.
Proof.
  intros (Hc & Htbd & Hl) HI. destruct (Idle_keeps _ _ HI) as (Hc' & Ht & Hk).
  split; [congruence|]. split; [congruence|]. intros p Hp. by apply Hk, Hl.
Qed.

Lemma UpdateStats_live this K Ku p :
  UpdateStats MAX_THREAD_COUNT this K = Ok Ku → live K p → live Ku p.
Proof.
  intros HU [tp Hp]. destruct (UpdateStats_effect _ _ _ _ HU) as (t & _ & _ & _ & Hau).
  unfold live. rewrite Hau. destruct (decide (this = p)) as [->|Hne].
  - rewrite lookup_insert_eq. eauto.
  - rewrite lookup_insert_ne by done. eauto.
Qed.

Lemma Exit_set_parent_code_kept this t exitcode K K' :
  Exit_set_parent_code this t exitcode K = Ok K' →
  currentThread K' = currentThread K
  ∧ threadToBeDestroyed K' = threadToBeDestroyed K
  ∧ ∀ p, live K p → live K' p.
Proof.
  unfold Exit_set_parent_code. intros H.
  destruct (decide (ppid t ≠ -1)); [|by injection H as <-].
  assert_inv H. destruct (negb _); [|by injection H as <-].
  assert (∃ tp, threadArray K !! ppid t = Some (Live tp)
     ∧ find_child (Z.to_nat (childcount tp)) 0 this (childpidArray tp)
       < childcount tp) as (tp & Htp & Hslot).
  { unfold SetChildExitCode in H. bind_inv H.
    apply deref_Ok_inv in Hstep as (pid & [= <-] & Htp).
    assert_inv H. eauto. }
  rewrite (SetChildExitCode_Ok (ppid t) tp this exitcode K Htp Hslot) in H.
  injection H as <-.
  destruct (decide _); (split; [done|]); (split; [done|]); intros p Hp;
    by apply assign_live.
Qed.

(** [Schedule] is [_SWITCH] and what the thread switched to does next. *)
Lemma PutThreadToSleep_split fuel this K :
  PutThreadToSleep MAX_THREAD_COUNT interrupt_Idle fuel this K
  = (K1 ← PutThreadToSleep_to_SWITCH MAX_THREAD_COUNT interrupt_Idle fuel this K;
     dispatched K1).
Proof.
  unfold PutThreadToSleep, PutThreadToSleep_to_SWITCH. cbv zeta.
  do 4 (rewrite bind_assoc; apply bind_ext; intros ?).
  rewrite bind_assoc. apply bind_ext. by intros [nextThread K1].
Qed.

Lemma FinishThread_split fuel this K :
  FinishThread MAX_THREAD_COUNT interrupt_Idle fuel this K
  = (K1 ← FinishThread_to_SWITCH MAX_THREAD_COUNT interrupt_Idle fuel this K;
     dispatched K1).
Proof.
  unfold FinishThread, FinishThread_to_SWITCH. cbv zeta.
  rewrite bind_assoc. apply bind_ext. intros _.
  apply PutThreadToSleep_split.
Qed.

Lemma Exit_split fuel this terminateSim exitcode K :
  Exit MAX_THREAD_COUNT interrupt_Idle fuel this terminateSim exitcode K
  = (K1 ← Exit_to_SWITCH MAX_THREAD_COUNT interrupt_Idle fuel this terminateSim
            exitcode K;
     dispatched K1).
Proof.
  unfold Exit, Exit_to_SWITCH. cbv zeta.
  do 5 (rewrite bind_assoc; apply bind_ext; intros ?).
  rewrite bind_assoc. apply bind_ext. by intros [nextThread K1].
Qed.

Lemma switch_then_release this K K0 h r K1 :
  live K this →
  kept this K K0 →
  Schedule_switch (Some h) (set_readyThreadList r K0) = Ok K1 →
  transfer_then_release this K K1.
Proof.
  intros Hthis (Hc & Htbd & Hl) HS.
  assert (Hl1 : ∀ p, live K p → live K1 p).
  { intros p Hp. eapply Schedule_switch_live; [exact HS|]. by apply Hl. }
  apply Schedule_switch_Ok_inv in HS
    as (old & told & next & tn & Hcur & Hold & _ & [= <-] & Hth & ->).
  simpl in Hcur. assert (old = this) as -> by congruence.
  set (Kr := set_readyThreadList r K0) in *.
  destruct (switched_next this told h tn Kr) as (Hcs & tn' & Htn' & _ & _ & Hpc).
  assert (Htbd1 : threadToBeDestroyed (switched this told h tn Kr) = Some this)
    by done.
  split; [done|]. split; [by apply Hl1|]. split; [done|]. split.
  - intros Hself. rewrite Hcs in Hself. injection Hself as ->.
    rewrite decide_True in Hpc by done.
    rewrite (dispatched_continues this tn') by done.
    unfold Schedule_tail. rewrite Htbd1. unfold delete_thread.
    rewrite (bind_Ok _ _ tn') by (by apply deref_Live).
    rewrite Hcs. simpl. rewrite bool_decide_eq_false_2; [done|].
    by intros H; apply H.
  - intros K' HD. apply dispatched_Ok_inv in HD as [[Hcont HT]|[Hbeg ->]].
    + apply Schedule_tail_Ok_inv in HT as [[Hnone _]|(d & Hd & Hdl & Hne & ->)].
      { congruence. }
      assert (d = this) as -> by congruence.
      split; [done|]. split; [congruence|]. split.
      * intros p Hp [tp Htp]. exists tp. simpl. by rewrite lookup_insert_ne.
      * left. split; [done|]. split; [apply lookup_insert_eq|done].
    + split; [done|]. split.
      * rewrite Hcs. intros [= ->]. rewrite decide_True in Hpc by done.
        destruct Hbeg as (c & tc & Hcb & Htc & Hpcb).
        assert (c = this) as -> by congruence.
        assert (tc = tn') as -> by congruence. congruence.
      * split; [done|]. right. done.
Qed.

(** C4.  [FinishThread] and [Exit], called by the thread [this], are the
    code up to and including [_SWITCH] followed by what the thread switched
    to does first.  In every state [K1] in which [_SWITCH] returns, each
    thread that existed at the call still exists, [this] included, and
    [this] is marked for destruction: nothing is released before the
    transfer.  If [this] itself is the thread switched to, the destructor
    fails its assertion [this != currentThread].  Otherwise, a thread that
    continues behind [_SWITCH] releases the object of [this], and only that
    one, while it is the current thread; a thread that runs for the first
    time begins in [_ThreadRoot] and releases nothing: [this] stays marked. *)
Theorem destroyed_only_after_switch fuel this terminateSim exitcode K :
  live K this →
  FinishThread MAX_THREAD_COUNT interrupt_Idle fuel this K
  = (K1 ← FinishThread_to_SWITCH MAX_THREAD_COUNT interrupt_Idle fuel this K;
     dispatched K1)
  ∧ Exit MAX_THREAD_COUNT interrupt_Idle fuel this terminateSim exitcode K
    = (K1 ← Exit_to_SWITCH MAX_THREAD_COUNT interrupt_Idle fuel this
              terminateSim exitcode K;
       dispatched K1)
  ∧ ∀ K1,
      FinishThread_to_SWITCH MAX_THREAD_COUNT interrupt_Idle fuel this K = Ok K1
      ∨ Exit_to_SWITCH MAX_THREAD_COUNT interrupt_Idle fuel this terminateSim
          exitcode K = Ok K1 →
      (∀ p, live K p → live K1 p)
      ∧ live K1 this
      ∧ threadToBeDestroyed K1 = Some this
      ∧ (currentThread K1 = Some this → dispatched K1 = Abort AssertionFailed)
      ∧ ∀ K', dispatched K1 = Ok K' →
          currentThread K' = currentThread K1
          ∧ currentThread K1 ≠ Some this
          ∧ (∀ p, p ≠ this → live K1 p → live K' p)
          ∧ ((continues_after_SWITCH K1
              ∧ threadArray K' !! this = Some Freed
              ∧ threadToBeDestroyed K' = None)
             ∨ (begins_in_ThreadRoot K1
                ∧ threadArray K' = threadArray K1
                ∧ threadToBeDestroyed K' = Some this)).
Proof.
  intros Hthis. split; [apply FinishThread_split|]. split; [apply Exit_split|].
  intros K1 [HF|HE]; change (transfer_then_release this K K1).
  - unfold FinishThread_to_SWITCH in HF. assert_inv HF. simpl in Hassert.
    unfold PutThreadToSleep_to_SWITCH in HF. assert_inv HF. assert_inv HF.
    bind_inv HF. rename a into Ku.
    destruct (UpdateStats_effect _ _ _ _ Hstep)
      as (t & _ & _ & (Hcu & Htbd & _) & _). simpl in Htbd, Hcu.
    bind_inv HF. bind_inv HF. destruct a0 as [nextThread Kd].
    apply (sleep_wait_inv interrupt_Idle (kept this K)) in Hstep1
      as (K0 & h & r & Hk & Hr & -> & ->).
    + by apply (switch_then_release this K K0 h r).
    + intros Kx Ky. apply kept_Idle.
    + split; [simpl; congruence|]. split; [simpl; congruence|].
      intros p Hp. apply assign_live.
      eapply UpdateStats_live; [exact Hstep|]. done.
  - unfold Exit_to_SWITCH in HE. assert_inv HE. simpl in Hassert.
    bind_inv HE. rename a into Ku.
    destruct (UpdateStats_effect _ _ _ _ Hstep)
      as (t & _ & _ & (Hcu & _) & _). simpl in Hcu.
    bind_inv HE. bind_inv HE. bind_inv HE. rename a1 into Kn.
    destruct (Exit_set_parent_code_kept _ _ _ _ _ Hstep2) as (Hcn & Htbdn & Hln).
    bind_inv HE. destruct a1 as [nextThread Kd].
    apply (exit_wait_inv interrupt_Idle (kept this K)) in Hstep3
      as (K0 & h & r & Hk & Hr & -> & ->).
    + by apply (switch_then_release this K K0 h r).
    + intros Kx Ky. apply kept_Idle.
    + split; [rewrite Hcn; simpl; congruence|].
      split; [rewrite Htbdn; simpl; congruence|].
      intros p Hp. apply Hln, assign_live.
      change (live Ku p).
      eapply UpdateStats_live; [exact Hstep|]. done.
Qed.

End destruction_facts.

(** ** The theorems at work on the sample states *)

Lemma no_interrupt_disciplined : handlers_disciplined no_interrupt.
Proof. intros K K' _ H. discriminate H. Defined.

Lemma no_interrupt_keeps_threads : handlers_keep_threads no_interrupt.
Proof. intros K K' H. discriminate H. Defined.

(** Lookup in a table of two threads. *)
Lemma two_threads_lookup (o0 o1 : object) (p : Z) :
  ({[ 0 := o0; 1 := o1 ]} : gmap Z object) !! p
  = if decide (p = 0) then Some o0
    else if decide (p = 1) then Some o1 else None.
Proof.
  destruct (decide (p = 0)) as [->|H0]; [by rewrite lookup_insert_eq|].
  rewrite lookup_insert_ne by done.
  destruct (decide (p = 1)) as [->|H1]; [by rewrite lookup_singleton_eq|].
  by rewrite lookup_singleton_ne.
Defined.

Ltac two_threads :=
  unfold status_of, waitchild_of, queued; simpl;
  rewrite ?two_threads_lookup;
  repeat case_decide; subst; simpl; try done.

Lemma parent_runs_Inv e code : Inv (parent_runs e code).
Proof.
  constructor.
  - exists 0. by split.
  - intros p. two_threads.
  - simpl. apply NoDup_singleton.
  - intros p. simpl. rewrite list_elem_of_singleton. two_threads.
  - simpl. constructor.
  - intros p Hp. simpl in Hp. by apply elem_of_nil in Hp.
  - done.
  - intros p w. two_threads. all: intros [= <-]; done.
Defined.

Lemma parent_forked_Settled : Settled parent_forked.
Proof.
  constructor.
  - exists 0. by split.
  - intros p. two_threads.
  - simpl. apply NoDup_singleton.
  - intros p. simpl. rewrite list_elem_of_singleton. two_threads.
  - simpl. constructor.
  - intros p Hp. simpl in Hp. by apply elem_of_nil in Hp.
  - done.
  - intros p w. two_threads. all: intros [= <-]; done.
Defined.


Lemma parent_runs_agrees e code : StateAgreesWithQueues (parent_runs e code).
Proof.
  split.
  - exists 0. split; [done|]. intros p. two_threads.
  - intros p s. unfold agrees. two_threads. all: intros [= <-]; done.
Defined.

(** C2 as the specification words it is not kept.  Started in a state that
    satisfies it, [PutThreadToSleep] leaves the caller [BLOCKED] and in
    none of the three queues; [FindNextThreadToRun] alone leaves a [READY]
    thread in no queue; [ThreadIsReadyToRun] on the current thread, the way
    [YieldCPU] calls it, leaves no thread [RUNNING]. *)
Lemma StateAgreesWithQueues_not_kept :
  StateAgreesWithQueues (parent_runs false 0)
  ∧ (∃ K', PutThreadToSleep 2 no_interrupt 0 0 (parent_runs false 0) = Ok K'
         ∧ status_of K' 0 = Some BLOCKED
         ∧ occurrences 0 (readyThreadList K'
                          ++ sleepingThreadList K' ++ (sleepQueueHead K').*1) = 0%nat
         ∧ ¬ StateAgreesWithQueues K')
  ∧ (∃ K', FindNextThreadToRun (parent_runs false 0) = (Some 1, K')
         ∧ status_of K' 1 = Some READY
         ∧ ¬ StateAgreesWithQueues K')
  ∧ (∃ K', ThreadIsReadyToRun 0 (parent_runs false 0) = Ok K'
         ∧ currentThread K' = Some 0
         ∧ status_of K' 0 = Some READY
         ∧ ¬ StateAgreesWithQueues K').
Proof.
  split; [apply parent_runs_agrees|]. split; [|split].
  - eexists. split; [vm_compute; reflexivity|].
    split; [vm_compute; reflexivity|]. split; [vm_compute; reflexivity|].
    intros [_ H].
    specialize (H 0 BLOCKED ltac:(vm_compute; reflexivity)).
    destruct H as [_ H]. vm_compute in H. discriminate H.
  - eexists. split; [vm_compute; reflexivity|].
    split; [vm_compute; reflexivity|].
    intros [_ H].
    specialize (H 1 READY ltac:(vm_compute; reflexivity)).
    destruct H as [H _]. vm_compute in H. discriminate H.
  - eexists. split; [vm_compute; reflexivity|].
    split; [vm_compute; reflexivity|]. split; [vm_compute; reflexivity|].
    intros [(c & Hc & H) _]. vm_compute in Hc. injection Hc as <-.
    pose proof (proj2 (H 0) eq_refl) as Hs.
    vm_compute in Hs. discriminate Hs.
Defined.

(** C2 at work.  The invariant in its strict form after the parent has
    yielded, gone to sleep, finished or exited and the child, which had run
    before, has been dispatched.  When the parent finishes and the child has
    never run, the invariant holds with the parent still pending
    destruction. *)
Lemma operations_keep_invariant_witness :
  (∃ K', YieldCPU 2 0 (parent_runs false 0) = Ok K' ∧ Inv K')
  ∧ (∃ K', PutThreadToSleep 2 no_interrupt 0 0 (parent_runs false 0) = Ok K'
         ∧ Inv K')
  ∧ (∃ K', FinishThread 2 no_interrupt 0 0 (parent_runs false 0) = Ok K'
         ∧ Inv K')
  ∧ (∃ K', Exit 2 no_interrupt 0 0 true 3 (parent_runs false 0) = Ok K'
         ∧ Inv K')
  ∧ (∃ K', FinishThread 2 no_interrupt 0 0 parent_forked = Ok K'
         ∧ Settled K' ∧ threadToBeDestroyed K' = Some 0 ∧ live K' 0).
Proof.
  destruct (operations_keep_invariant 2 no_interrupt no_interrupt_disciplined
              (parent_runs false 0)
              (Inv_Settled _ (parent_runs_Inv false 0)))
    as (HY & HP & HF & HE & _).
  destruct (operations_keep_invariant 2 no_interrupt no_interrupt_disciplined
              parent_forked parent_forked_Settled)
    as (_ & _ & HF' & _).
  split; [|split; [|split; [|split]]].
  - eexists. split; [vm_compute; reflexivity|].
    apply after_dispatch_None, (HY 0). vm_compute. reflexivity.
  - eexists. split; [vm_compute; reflexivity|].
    apply after_dispatch_None, (HP 0%nat 0). vm_compute. reflexivity.
  - eexists. split; [vm_compute; reflexivity|].
    apply (after_dispatch_continues (Some 0)).
    + apply (HF 0%nat 0). vm_compute. reflexivity.
    + eexists 1, _. split; [reflexivity|].
      split; [vm_compute; reflexivity|reflexivity].
  - eexists. split; [vm_compute; reflexivity|].
    apply (after_dispatch_continues (Some 0)).
    + apply (HE 0%nat 0 true 3). vm_compute. reflexivity.
    + eexists 1, _. split; [reflexivity|].
      split; [vm_compute; reflexivity|reflexivity].
  - eexists. split; [vm_compute; reflexivity|].
    split; [|split; [reflexivity|]].
    + apply (HF' 0%nat 0). vm_compute. reflexivity.
    + eexists. vm_compute. reflexivity.
Defined.

(** C4 at work.  The parent finishes while the child, which has run
    before, is ready: the parent still exists in the state in which
    [_SWITCH] returns, where the child is the current thread, and is
    released by the child after that.  When the child has never run, the
    exiting parent is not released at all. *)
Lemma destroyed_only_after_switch_witness :
  (∃ K1 K',
     FinishThread_to_SWITCH 2 no_interrupt 0 0 (parent_runs false 0) = Ok K1
     ∧ live K1 0 ∧ currentThread K1 = Some 1
     ∧ threadToBeDestroyed K1 = Some 0
     ∧ dispatched K1 = Ok K'
     ∧ FinishThread 2 no_interrupt 0 0 (parent_runs false 0) = Ok K'
     ∧ threadArray K' !! 0 = Some Freed
     ∧ threadToBeDestroyed K' = None
     ∧ live K' 1)
  ∧ (∃ K1 K',
       Exit_to_SWITCH 2 no_interrupt 0 0 false 3 parent_forked = Ok K1
       ∧ live K1 0
       ∧ dispatched K1 = Ok K'
       ∧ Exit 2 no_interrupt 0 0 false 3 parent_forked = Ok K'
       ∧ threadArray K' = threadArray K1
       ∧ threadToBeDestroyed K' = Some 0).
Proof.
  split.
  - destruct (destroyed_only_after_switch 2 no_interrupt
                no_interrupt_keeps_threads 0 0 false 3 (parent_runs false 0)
                ltac:(eexists; vm_compute; reflexivity))
      as (HFeq & _ & H).
    assert (HK : ∃ K1,
               FinishThread_to_SWITCH 2 no_interrupt 0 0 (parent_runs false 0)
               = Ok K1 ∧ ∃ K', dispatched K1 = Ok K')
      by (eexists; split; [vm_compute; reflexivity|];
          eexists; vm_compute; reflexivity).
    destruct HK as (K1 & HK1 & K' & HD).
    destruct (H K1 (or_introl HK1)) as (_ & Hl0 & Htbd & _ & HK').
    destruct (HK' K' HD) as (Hc & _ & Hothers & Hcase).
    pose proof HK1 as HK1c. vm_compute in HK1c. injection HK1c as HK1c.
    assert (Hc1 : currentThread K1 = Some 1) by (by rewrite <- HK1c).
    assert (Hl1 : live K1 1)
      by (rewrite <- HK1c; eexists; vm_compute; reflexivity).
    exists K1, K'. split; [exact HK1|]. split; [exact Hl0|].
    split; [exact Hc1|]. split; [exact Htbd|]. split; [exact HD|].
    split; [by rewrite HFeq, HK1|].
    destruct Hcase as [(_ & Hfreed & Hnone)|((c & tc & Hcb & Htc & Hpc) & _)].
    + split; [exact Hfreed|]. split; [exact Hnone|].
      apply Hothers; [lia|exact Hl1].
    + rewrite <- HK1c in Hcb, Htc. vm_compute in Hcb. injection Hcb as <-.
      vm_compute in Htc. injection Htc as <-. discriminate Hpc.
  - destruct (destroyed_only_after_switch 2 no_interrupt
                no_interrupt_keeps_threads 0 0 false 3 parent_forked
                ltac:(eexists; vm_compute; reflexivity))
      as (_ & HEeq & H).
    assert (HK : ∃ K1,
               Exit_to_SWITCH 2 no_interrupt 0 0 false 3 parent_forked
               = Ok K1 ∧ ∃ K', dispatched K1 = Ok K')
      by (eexists; split; [vm_compute; reflexivity|];
          eexists; vm_compute; reflexivity).
    destruct HK as (K1 & HK1 & K' & HD).
    destruct (H K1 (or_intror HK1)) as (_ & Hl0 & Htbd & _ & HK').
    destruct (HK' K' HD) as (Hc & _ & Hothers & Hcase).
    pose proof HK1 as HK1c. vm_compute in HK1c. injection HK1c as HK1c.
    exists K1, K'. split; [exact HK1|]. split; [exact Hl0|].
    split; [exact HD|]. split; [by rewrite HEeq, HK1|].
    destruct Hcase as [((c & tc & Hcb & Htc & Hpc) & _)|(_ & Hsame & Hpend)].
    + rewrite <- HK1c in Hcb, Htc. vm_compute in Hcb. injection Hcb as <-.
      vm_compute in Htc. injection Htc as <-. discriminate Hpc.
    + split; [exact Hsame|exact Hpend].
Defined.

(** C6 as the specification words it fails: a thread that has not exited
    and has base priority 0 is skipped by the guard of the loop; it keeps
    its CPU count 10, where the specified update gives (10 + 4) / 2 = 7, and
    its last burst 4 is not reset. *)
Lemma UpdateStats_decay_skips_zero_base :
  (∃ K', UpdateStats 2 0 (decay_kernel 0) = Ok K'
       ∧ threadCpuCount K' 1 = 10 ∧ prevBurst K' 1 = 4)
  ∧ ¬ (∀ (n : nat) this t K K' i ti,
       7 ≤ schedAlgo K →
       threadArray K !! this = Some (Live t) →
       UpdateStats n this K = Ok K' →
       0 ≤ i < Z.of_nat n →
       threadArray K !! i = Some (Live ti) →
       exitThreadArray K i = false →
       decay_as_specified this t K K' i).
Proof.
  assert (HU : ∃ K', UpdateStats 2 0 (decay_kernel 0) = Ok K')
    by (eexists; vm_compute; reflexivity).
  destruct HU as [K' HU]. split.
  - exists K'. split; [exact HU|].
    vm_compute in HU. injection HU as <-. split; reflexivity.
  - intros H.
    destruct (H 2%nat 0 (sample_thread RUNNING (-1) 0 0) (decay_kernel 0) K' 1
                (sample_thread READY 0 0 0)
                ltac:(simpl; lia) ltac:(vm_compute; reflexivity) HU ltac:(lia)
                ltac:(vm_compute; reflexivity) eq_refl) as [Hc _].
    vm_compute in HU. injection HU as <-.
    vm_compute in Hc. discriminate Hc.
Defined.

(** C6 at work at tick 10.  The caller, thread 0, has run since tick 0 with
    CPU count 6 and base priority 5: its burst of 10 is folded in, which
    gives CPU count (6 + 10) / 2 = 8 and priority 5 + 8 / 2 = 9.  Thread 1,
    with base priority 5, CPU count 10 and last burst 4, gets CPU count 7 and
    priority 8.  Both last bursts are reset. *)
Lemma UpdateStats_decay_witness :
  ∃ K', UpdateStats 2 0 (decay_running 5) = Ok K'
      ∧ threadCpuCount K' 0 = 8 ∧ threadPriority K' 0 = 9 ∧ prevBurst K' 0 = 0
      ∧ threadCpuCount K' 1 = 7 ∧ threadPriority K' 1 = 8 ∧ prevBurst K' 1 = 0.
Proof.
  assert (HU : ∃ K', UpdateStats 2 0 (decay_running 5) = Ok K')
    by (eexists; vm_compute; reflexivity).
  destruct HU as [K' HU]. exists K'. split; [exact HU|].
  destruct (UpdateStats_decay 2 0 (sample_thread RUNNING (-1) 0 0)
              (decay_running 5) K' 0
              ltac:(simpl; lia) ltac:(vm_compute; reflexivity) HU ltac:(lia))
    as [Hf0 _].
  destruct (Hf0 eq_refl ltac:(vm_compute; discriminate)
              ltac:(vm_compute; discriminate)) as (Hc0 & Hp0 & Hb0).
  destruct (UpdateStats_decay 2 0 (sample_thread RUNNING (-1) 0 0)
              (decay_running 5) K' 1
              ltac:(simpl; lia) ltac:(vm_compute; reflexivity) HU ltac:(lia))
    as [Hf1 _].
  destruct (Hf1 eq_refl ltac:(vm_compute; discriminate)
              ltac:(vm_compute; discriminate)) as (Hc1 & Hp1 & Hb1).
  split; [rewrite Hc0; vm_compute; reflexivity|].
  split; [rewrite Hp0, Hc0; vm_compute; reflexivity|].
  split; [exact Hb0|].
  split; [rewrite Hc1; vm_compute; reflexivity|].
  split; [rewrite Hp1, Hc1; vm_compute; reflexivity|exact Hb1].
Defined.

(** C7 at work with [SJP_RATIO = 1/2] at tick 10.  The caller has run since
    tick 0 with a predicted burst of 4: the prediction becomes
    4 / 2 + 10 / 2 = 7, and the estimation error grows from 1 by
    |4 - 10| = 6 to 7. *)
Lemma UpdateStats_prediction_witness :
  ∃ K', UpdateStats 1 0 prediction_kernel = Ok K'
      ∧ (burstPredict K' 0 == 7)%Q
      ∧ (EstimationError K' == 7)%Q
      ∧ prevBurst K' 0 = 10.
Proof.
  assert (HU : ∃ K', UpdateStats 1 0 prediction_kernel = Ok K')
    by (eexists; vm_compute; reflexivity).
  destruct HU as [K' HU]. exists K'. split; [exact HU|].
  destruct (UpdateStats_prediction 1 0 (sample_thread RUNNING (-1) 0 0)
              prediction_kernel K'
              eq_refl ltac:(vm_compute; reflexivity) HU)
    as (Hp & _ & He & Hb & _).
  split; [rewrite Hp; vm_compute; reflexivity|].
  split; [rewrite He; vm_compute; reflexivity|].
  rewrite Hb. vm_compute. reflexivity.
Defined.


(** C9 at work: the child exits with code 42 while its parent waits for
    it; the code lands in slot 0 of the parent, which becomes [READY] at the
    tail of the ready list. *)
Lemma Exit_records_exit_code_witness :
  ∃ Kn tp',
    threadArray Kn !! 0 = Some (Live tp')
    ∧ childexitcode tp' 0 = 42 ∧ exitedChild tp' 0 = true
    ∧ status tp' = READY ∧ waitchild_id tp' = -1
    ∧ readyThreadList Kn = [0].
Proof.
  destruct (Exit_records_exit_code 2 no_interrupt 0 1 (child_thread RUNNING) 0
              false 42 child_runs
              eq_refl ltac:(vm_compute; reflexivity) eq_refl
              ltac:(lia) ltac:(lia)
              ltac:(vm_compute; discriminate)) as [_ H].
  destruct (H (parent_thread BLOCKED 0 false 0) eq_refl
              ltac:(vm_compute; reflexivity)
              ltac:(vm_compute; reflexivity))
    as (Kn & tp' & _ & Ht & _ & Hcode & Hex & Hw & _).
  destruct (Hw ltac:(vm_compute; reflexivity)) as (Hs & Hw' & Hr).
  exists Kn, tp'. auto.
Defined.

(** C10 at work: a deadline of 20 goes behind the entry that already has
    deadline 20 and in front of the one with deadline 30; the caller is left
    [BLOCKED] and the child is dispatched. *)
Lemma SortedInsertInWaitQueue_spec_witness :
  ascending (wait_queue_inserts [(5, 30); (6, 20); (0, 20)])
  ∧ ∃ K' t',
      SortedInsertInWaitQueue 2 no_interrupt 0 0 20
        (set_sleepQueueHead [(6, 20); (5, 30)] (parent_runs false 0)) = Ok K'
      ∧ sleepQueueHead K' = [(6, 20); (0, 20); (5, 30)]
      ∧ threadArray K' !! 0 = Some (Live t')
      ∧ status t' = BLOCKED
      ∧ currentThread K' = Some 1.
Proof.
  destruct (SortedInsertInWaitQueue_spec 2 no_interrupt 0 0
              (parent_thread RUNNING (-1) false 0) 20
              (set_sleepQueueHead [(6, 20); (5, 30)] (parent_runs false 0))
              ltac:(vm_compute; reflexivity)) as (Hasc & _ & _ & H).
  split; [apply Hasc|].
  destruct (H 1 [] (child_thread READY)
              eq_refl eq_refl eq_refl ltac:(lia)
              ltac:(vm_compute; reflexivity) eq_refl)
    as (K' & t' & HS & Hq & Ht & Hst & Hc & _).
  exists K', t'. split; [exact HS|]. split; [|auto].
  rewrite Hq. vm_compute. reflexivity.
Defined.

(** ** The further properties at work on the sample states *)

Lemma second_thread_Inv t :
  status t = BLOCKED ∨ status t = JUST_CREATED →
  waitchild_id t = -1 →
  Inv (second_thread t).
Proof.
  intros Hs Hw. constructor.
  - exists 0. by split.
  - intros p. two_threads. destruct Hs as [-> | ->]; done.
  - simpl. constructor.
  - intros p. simpl. two_threads.
    all: try (split; [by intros ?%elem_of_nil|done]).
    split; [by intros ?%elem_of_nil|]. destruct Hs as [-> | ->]; done.
  - simpl. constructor.
  - intros p Hp. simpl in Hp. by apply elem_of_nil in Hp.
  - done.
  - intros p w. two_threads. all: intros [= <-]; done.
Defined.

(** X1 at work: thread 7 is not among the sleepers 3, 4, 5. *)
Lemma RemoveSleepingThread_not_found_witness :
  ∃ l', RemoveSleepingThread 3 7 (sleepers [3; 4; 5])
        = Ok (None, set_sleepingThreadList l' (sleepers [3; 4; 5]))
      ∧ l' ≡ₚ sleepingThreadList (sleepers [3; 4; 5]).
Proof.
  apply (RemoveSleepingThread_not_found 3 7 (sleepers [3; 4; 5])).
  - simpl. discriminate.
  - simpl. apply (bool_decide_unpack _). vm_compute. exact I.
  - simpl. lia.
Defined.

(** X2 at work: thread 4 is taken off the list 3, 4, 5. *)
Lemma RemoveSleepingThread_found_witness :
  ∃ pre post,
    sleepingThreadList (sleepers [3; 4; 5]) = pre ++ 4 :: post
    ∧ RemoveSleepingThread 3 4 (sleepers [3; 4; 5])
      = Ok (Some 4, set_sleepingThreadList (post ++ pre) (sleepers [3; 4; 5]))
    ∧ (4 ∉ post ++ pre)
    ∧ 4 :: post ++ pre ≡ₚ sleepingThreadList (sleepers [3; 4; 5]).
Proof.
  apply (RemoveSleepingThread_found 3 4 (sleepers [3; 4; 5])).
  - simpl. apply (bool_decide_unpack _). vm_compute. exact I.
  - simpl. apply (bool_decide_unpack _). vm_compute. exact I.
  - simpl. lia.
Defined.

(** X3 at work: thread 5 joins the sleepers 3, 4 and is taken off again. *)
Lemma InsertSleepingThread_RemoveSleepingThread_witness :
  IsSleepingListEmpty (InsertSleepingThread 5 (sleepers [3; 4])) = false
  ∧ RemoveSleepingThread 2 5 (InsertSleepingThread 5 (sleepers [3; 4]))
    = Ok (Some 5, sleepers [3; 4]).
Proof.
  apply (InsertSleepingThread_RemoveSleepingThread 2 5 (sleepers [3; 4])).
  - simpl. apply (bool_decide_unpack _). vm_compute. exact I.
  - simpl. apply (bool_decide_unpack _). vm_compute. exact I.
  - simpl. lia.
Defined.

(** X4 at work: on the list 3, 4, 3, 5 the scan for thread 5 stops at the
    second 3. *)
Lemma RemoveSleepingThread_stops_at_repeated_head_witness :
  ∃ l', RemoveSleepingThread 2 5 (sleepers [3; 4; 3; 5])
        = Ok (None, set_sleepingThreadList l' (sleepers [3; 4; 3; 5]))
      ∧ 5 ∈ l'.
Proof.
  apply (RemoveSleepingThread_stops_at_repeated_head 2 5 3 [4] [5]
           (sleepers [3; 4; 3; 5])).
  - reflexivity.
  - apply (bool_decide_unpack _). vm_compute. exact I.
  - lia.
  - apply (bool_decide_unpack _). vm_compute. exact I.
  - apply (bool_decide_unpack _). vm_compute. exact I.
  - simpl. lia.
Defined.

(** X5 at work: threads 1 and 0 are made ready in this order and are handed
    out in this order. *)
Lemma ready_list_is_fifo_witness :
  ∃ K', ready_all [1; 0] child_runs = Ok K'
      ∧ (∀ p, p ∈ [1; 0] → status_of K' p = Some READY)
      ∧ (∀ n, (length [1; 0] ≤ n)%nat → find_next_all n K' = [1; 0]).
Proof.
  apply (ready_list_is_fifo [1; 0] child_runs).
  - reflexivity.
  - repeat constructor; eexists; vm_compute; reflexivity.
Defined.

(** X6 at work: pid 1 is in slot 0 of the parent. *)
Lemma CheckIfChild_spec_witness :
  ∃ r, CheckIfChild 0 1 (parent_runs false 0) = Ok r
     ∧ ((r = -1
         ∧ ∀ j, 0 ≤ j < childcount (parent_thread RUNNING (-1) false 0) →
                childpidArray (parent_thread RUNNING (-1) false 0) j ≠ 1)
        ∨ (0 ≤ r < childcount (parent_thread RUNNING (-1) false 0)
           ∧ childpidArray (parent_thread RUNNING (-1) false 0) r = 1
           ∧ ∀ j, 0 ≤ j < r →
                  childpidArray (parent_thread RUNNING (-1) false 0) j ≠ 1)).
Proof.
  apply (CheckIfChild_spec 0 (parent_thread RUNNING (-1) false 0) 1
           (parent_runs false 0)).
  - vm_compute. reflexivity.
  - simpl. lia.
Defined.

(** X7 at work: pid 5 is no child of the parent. *)
Lemma SetChildExitCode_unregistered_witness :
  SetChildExitCode 0 5 9 (parent_runs false 0) = Abort AssertionFailed.
Proof.
  apply (SetChildExitCode_unregistered 0 (parent_thread RUNNING (-1) false 0)).
  - vm_compute. reflexivity.
  - simpl. lia.
  - intros j Hj. simpl in Hj. assert (j = 0) as -> by lia.
    vm_compute. discriminate.
Defined.

(** X8 at work: exit code 7 of child 1 is recorded and found again. *)
Lemma SetChildExitCode_then_JoinWithChild_witness :
  ∃ K' slot,
    SetChildExitCode 0 1 7 (parent_runs false 0) = Ok K'
    ∧ 0 ≤ slot
    ∧ CheckIfChild 0 1 K' = Ok slot
    ∧ JoinWithChild 2 no_interrupt 0 0 slot K' = Ok (JoinReturned 7 K').
Proof.
  assert (H : ∃ K', SetChildExitCode 0 1 7 (parent_runs false 0) = Ok K')
    by (eexists; vm_compute; reflexivity).
  destruct H as [K' H].
  destruct (SetChildExitCode_then_JoinWithChild 2 no_interrupt 0 0 1 7
              (parent_runs false 0) K' H) as (slot & Hs).
  exists K', slot. split; [exact H|exact Hs].
Defined.

(** X9 at work: the child exits with code 42 while the parent waits for it. *)
Lemma Exit_wakes_joining_parent_witness :
  ∃ K',
    Exit 2 no_interrupt 0 1 true 42 child_runs = Ok K'
    ∧ currentThread K' = Some 0
    ∧ status_of K' 0 = Some RUNNING
    ∧ waitchild_of K' 0 = Some (-1)
    ∧ threadArray K' !! 1 = Some Freed
    ∧ readyThreadList K' = []
    ∧ threadToBeDestroyed K' = None
    ∧ JoinWithChild_wake 0 (slot_of (parent_thread BLOCKED 0 false 0) 1) IntOn K'
      = Ok (42, set_intLevel IntOn K').
Proof.
  apply (Exit_wakes_joining_parent 2 no_interrupt 0 1 (child_thread RUNNING) 0
           (parent_thread BLOCKED 0 false 0) true 42 IntOn child_runs).
  - reflexivity.
  - vm_compute. reflexivity.
  - reflexivity.
  - reflexivity.
  - lia.
  - lia.
  - vm_compute. discriminate.
  - reflexivity.
  - vm_compute. reflexivity.
  - reflexivity.
  - vm_compute. reflexivity.
  - vm_compute. reflexivity.
  - reflexivity.
Defined.

(** X10 at work: after a burst of 10 ticks the extrema 0 and 0 of the lone
    thread enclose the burst. *)
Lemma UpdateStats_extrema_witness :
  ∃ K' t',
    UpdateStats 2 0 lone_thread = Ok K'
    ∧ threadArray K' !! 0 = Some (Live t')
    ∧ minCPUburst t'
      ≤ cpuburst_of lone_thread (parent_thread RUNNING (-1) false 0)
      ≤ maxCPUburst t'.
Proof.
  assert (H : ∃ K', UpdateStats 2 0 lone_thread = Ok K')
    by (eexists; vm_compute; reflexivity).
  destruct H as [K' H].
  destruct (UpdateStats_extrema 2 0 (parent_thread RUNNING (-1) false 0)
              lone_thread K' ltac:(vm_compute; reflexivity) H)
    as (t' & Ht' & _ & _ & Hord).
  destruct (Hord ltac:(simpl; lia)) as [_ Hb].
  exists K', t'. split; [exact H|]. split; [exact Ht'|].
  apply Hb. vm_compute. reflexivity.
Defined.

(** X11 at work: the statistics of a thread in the tick of its creation.
    Under [schedAlgo = 0] nothing changes; under [schedAlgo = 2] with
    [SJP_RATIO = 1/2] the prediction 4 and the stale last burst 6 give the
    prediction 5, and the error grows from 1 by the whole prediction 4. *)
Lemma UpdateStats_zero_burst_witness :
  UpdateStats 2 0 fresh_kernel = Ok fresh_kernel
  ∧ ∃ K', UpdateStats 1 0 stale_prediction_kernel = Ok K'
        ∧ (burstPredict K' 0 == 5)%Q
        ∧ (EstimationError K' == 5)%Q.
Proof.
  split.
  - apply (UpdateStats_zero_burst 2 0 (sample_thread RUNNING (-1) 0 0)
             fresh_kernel eq_refl ltac:(vm_compute; reflexivity)
             ltac:(vm_compute; reflexivity) ltac:(simpl; lia)).
    simpl. discriminate.
  - destruct (UpdateStats_zero_burst 1 0 (sample_thread RUNNING (-1) 0 0)
                stale_prediction_kernel eq_refl ltac:(vm_compute; reflexivity)
                ltac:(vm_compute; reflexivity) ltac:(simpl; lia)) as [_ H].
    destruct (H eq_refl) as (HU & Hp & He).
    eexists. split; [exact HU|].
    split; [rewrite Hp; vm_compute; reflexivity|].
    rewrite He. vm_compute. reflexivity.
Defined.

(** X12 at work: CPU count 10 and last burst 4 under base priority 5. *)
Lemma UpdateStats_decay_bounds_witness :
  ∃ K',
    UpdateStats 2 0 (decay_kernel 5) = Ok K'
    ∧ 0 ≤ threadCpuCount K' 1
    ∧ 5 ≤ threadPriority K' 1.
Proof.
  assert (H : ∃ K', UpdateStats 2 0 (decay_kernel 5) = Ok K')
    by (eexists; vm_compute; reflexivity).
  destruct H as [K' H].
  destruct (UpdateStats_decay_bounds 2 0 (sample_thread RUNNING (-1) 0 0)
              (decay_kernel 5) K' 1
              ltac:(simpl; lia) ltac:(vm_compute; reflexivity) H ltac:(lia)
              ltac:(vm_compute; reflexivity)
              ltac:(vm_compute; discriminate)
              ltac:(vm_compute; reflexivity)
              ltac:(vm_compute; discriminate)
              ltac:(vm_compute; reflexivity))
    as (Hc & _ & Hp & _).
  exists K'. split; [exact H|]. split; [exact Hc|].
  assert (Hb : threadBasePriority
                 (account_burst 0 (sample_thread RUNNING (-1) 0 0)
                    (decay_kernel 5)) 1 = 5)
    by (vm_compute; reflexivity).
  rewrite Hb in Hp. exact Hp.
Defined.

(** X13 at work: a thread with a damaged fencepost cannot yield. *)
Lemma overflow_is_detected_witness :
  (∀ nextThread, Schedule nextThread damaged_kernel = Abort AssertionFailed)
  ∧ YieldCPU 2 0 damaged_kernel = Abort AssertionFailed.
Proof.
  apply (overflow_is_detected 2 0 damaged_thread 0 damaged_kernel).
  - reflexivity.
  - vm_compute. reflexivity.
  - reflexivity.
  - vm_compute. discriminate.
Defined.

(** X14 at work: the dispatched child is the thread marked for
    destruction.  A child that has run before fails the assertion of the
    destructor; a child that has never run takes the CPU and stays marked. *)
Lemma Schedule_never_releases_current_witness :
  Schedule (Some 1) pending_kernel = Abort AssertionFailed
  ∧ ∃ K', Schedule (Some 1) (set_threadToBeDestroyed (Some 1) parent_forked)
          = Ok K'
        ∧ currentThread K' = Some 1
        ∧ threadArray K' !! 1 = Some (Live (setStatus RUNNING forked_thread))
        ∧ threadToBeDestroyed K' = Some 1.
Proof.
  split.
  - apply (Schedule_never_releases_current 0
             (parent_thread RUNNING (-1) false 0)
             1 (child_thread READY) pending_kernel
             eq_refl ltac:(vm_compute; reflexivity) eq_refl
             ltac:(vm_compute; reflexivity) eq_refl).
    by right.
  - apply (Schedule_never_releases_current 0
             (parent_thread RUNNING (-1) false 0)
             1 forked_thread (set_threadToBeDestroyed (Some 1) parent_forked)
             eq_refl ltac:(vm_compute; reflexivity) eq_refl
             ltac:(vm_compute; reflexivity) eq_refl).
    + lia.
    + reflexivity.
Defined.

(** X15 at work: the ready child cannot act for the running parent. *)
Lemma only_the_current_thread_witness :
  UpdateStats 2 1 (parent_runs false 0) = Abort AssertionFailed
  ∧ YieldCPU 2 1 (parent_runs false 0) = Abort AssertionFailed
  ∧ (∀ fuel, PutThreadToSleep 2 no_interrupt fuel 1 (parent_runs false 0)
             = Abort AssertionFailed)
  ∧ (∀ fuel, FinishThread 2 no_interrupt fuel 1 (parent_runs false 0)
             = Abort AssertionFailed)
  ∧ (∀ fuel terminateSim exitcode,
       Exit 2 no_interrupt fuel 1 terminateSim exitcode (parent_runs false 0)
       = Abort AssertionFailed).
Proof.
  apply (only_the_current_thread 2 no_interrupt 1 (parent_runs false 0)).
  simpl. discriminate.
Defined.

(** X16 at work: the lone thread exits or goes to sleep. *)
Lemma nothing_ready_halts_witness :
  Exit 2 no_interrupt 1 0 true 0 (set_intLevel IntOff lone_thread) = Halted
  ∧ PutThreadToSleep 2 no_interrupt 1 0 (set_intLevel IntOff lone_thread)
    = Halted.
Proof.
  destruct (nothing_ready_halts 2 no_interrupt 0 0
              (parent_thread RUNNING (-1) false 0)
              (set_intLevel IntOff lone_thread)
              eq_refl ltac:(vm_compute; reflexivity) eq_refl) as [HE HP].
  split.
  - apply HE; [reflexivity|vm_compute; discriminate].
  - apply HP; [reflexivity|]. intros K'. reflexivity.
Defined.

(** X17 at work: the parent joins the child that has not exited. *)
Lemma JoinWithChild_keeps_invariant_witness :
  ∃ K', JoinWithChild 2 no_interrupt 0 0 0 (parent_runs false 0)
        = Ok (JoinSuspended IntOff K')
      ∧ Inv K'.
Proof.
  assert (H : ∃ K', JoinWithChild 2 no_interrupt 0 0 0 (parent_runs false 0)
                    = Ok (JoinSuspended IntOff K'))
    by (eexists; vm_compute; reflexivity).
  destruct H as [K' H]. exists K'. split; [exact H|].
  apply (JoinWithChild_keeps_invariant 2 no_interrupt no_interrupt_disciplined
           0 0 0 (parent_runs false 0) (JoinSuspended IntOff K')
           (parent_runs_Inv false 0) H).
Defined.

(** X18 at work: the parent sleeps until tick 50 while the child is
    ready; it is then [BLOCKED] and on the time-sorted queue, once. *)
Lemma SortedInsertInWaitQueue_keeps_invariant_witness :
  ∃ K', SortedInsertInWaitQueue 2 no_interrupt 0 0 50 (parent_runs false 0)
        = Ok K'
      ∧ Inv K'
      ∧ sleepQueueHead K' = [(0, 50)]
      ∧ status_of K' 0 = Some BLOCKED
      ∧ occurrences 0 (queued K') = 1%nat
      ∧ occurrences 0 (readyThreadList K') = 0%nat.
Proof.
  assert (H : ∃ K', SortedInsertInWaitQueue 2 no_interrupt 0 0 50
                      (parent_runs false 0) = Ok K')
    by (eexists; vm_compute; reflexivity).
  destruct H as [K' H]. exists K'. split; [exact H|].
  destruct (SortedInsertInWaitQueue_keeps_invariant 2 no_interrupt
              no_interrupt_disciplined 0 0 50 (parent_runs false 0) K'
              (parent_runs_Inv false 0) H) as [HI Hq].
  split; [exact HI|].
  destruct (Hq ltac:(simpl; discriminate)) as (Hh & _ & Hs & Ho & Hr).
  split; [rewrite Hh; reflexivity|]. split; [exact Hs|].
  split; [exact Ho|exact Hr].
Defined.

(** X19 at work: a just created thread is forked. *)
Lemma ThreadFork_spec_witness :
  ∃ K' t',
    ThreadFork 1 (second_thread just_created_thread) = Ok K'
    ∧ threadArray K' !! 1 = Some (Live t')
    ∧ status t' = READY
    ∧ CheckOverflow t' = Ok tt
    ∧ readyThreadList K' = [1]
    ∧ Inv K'.
Proof.
  destruct (ThreadFork_spec 1 just_created_thread
              (second_thread just_created_thread)
              ltac:(vm_compute; reflexivity))
    as (K' & t' & HF & Ht' & Hs & Hov & Hr & _ & HI).
  exists K', t'. split; [exact HF|]. split; [exact Ht'|].
  split; [exact Hs|]. split; [exact Hov|]. split; [exact Hr|].
  apply HI; [|reflexivity|reflexivity].
  apply second_thread_Inv; [by right|reflexivity].
Defined.

(** X20 at work: the parent goes to sleep at tick 10 and is woken in a state
    of tick 25: 15 ticks of sleep. *)
Lemma sleep_time_is_accounted_witness :
  ∃ K1 t1 K3 t3,
    PutThreadToSleep 2 no_interrupt 0 0 (parent_runs false 0) = Ok K1
    ∧ threadArray K1 !! 0 = Some (Live t1)
    ∧ NachOSThread_Schedule 0
        (mkKernel (threadArray K1) (currentThread K1) None (readyThreadList K1)
           [] [] IntOff 25 0 no_flags no_array no_array no_array no_array
           no_prediction 0%Q)
      = Ok K3
    ∧ threadArray K3 !! 0 = Some (Live t3)
    ∧ status t3 = READY
    ∧ sleepTime t3 = 15.
Proof.
  destruct (sleep_time_is_accounted 2 no_interrupt 0 0
              (parent_thread RUNNING (-1) false 0) 1 [] (child_thread READY)
              (parent_runs false 0)
              eq_refl eq_refl ltac:(vm_compute; reflexivity) eq_refl eq_refl
              ltac:(lia) ltac:(vm_compute; reflexivity) eq_refl)
    as (K1 & t1 & HP & Ht1 & _ & Hwake).
  destruct (Hwake
              (mkKernel (threadArray K1) (currentThread K1) None
                 (readyThreadList K1) [] [] IntOff 25 0
                 no_flags no_array no_array no_array no_array
                 no_prediction 0%Q) Ht1)
    as (K3 & t3 & HS & Ht3 & Hs3 & Hst & _).
  exists K1, t1, K3, t3. split; [exact HP|]. split; [exact Ht1|].
  split; [exact HS|]. split; [exact Ht3|]. split; [exact Hs3|].
  rewrite Hst. vm_compute. reflexivity.
Defined.

(** X21 at work: a thread that sleeps outside the wait structures is woken. *)
Lemma NachOSThread_Schedule_keeps_invariant_witness :
  ∃ K', NachOSThread_Schedule 1 (second_thread sleeping_thread) = Ok K'
      ∧ Inv K' ∧ status_of K' 1 = Some READY.
Proof.
  assert (H : ∃ K', NachOSThread_Schedule 1 (second_thread sleeping_thread)
                    = Ok K')
    by (eexists; vm_compute; reflexivity).
  destruct H as [K' H]. exists K'. split; [exact H|].
  apply (NachOSThread_Schedule_keeps_invariant 1 sleeping_thread
           (second_thread sleeping_thread) K').
  - apply second_thread_Inv; [by left|reflexivity].
  - vm_compute. reflexivity.
  - reflexivity.
  - simpl. apply not_elem_of_nil.
  - reflexivity.
  - exact H.
Defined.

(** X23 at work: one thread has been created, the main thread itself. *)
Lemma main_batch_exit_flag_witness :
  ∃ terminateSim,
    main_batch_exit 2 no_interrupt 1 1 lone_thread
    = Exit 2 no_interrupt 1 0 terminateSim 0
        (set_exitThreadArray (store 0 true (exitThreadArray lone_thread))
           lone_thread)
    ∧ (terminateSim = true
       ↔ ∀ j, 0 ≤ j < 1 → j ≠ 0 → exitThreadArray lone_thread j = true).
Proof.
  apply (main_batch_exit_flag 2 no_interrupt 1 1 0 lone_thread).
  - reflexivity.
  - lia.
Defined.

(** X24 at work: the main thread is the only thread. *)
Lemma main_last_thread_halts_witness :
  main_batch_exit 2 no_interrupt 1 1 lone_thread = Halted.
Proof.
  apply (main_last_thread_halts 2 no_interrupt 0 1 0
           (parent_thread RUNNING (-1) false 0) lone_thread).
  - reflexivity.
  - vm_compute. reflexivity.
  - reflexivity.
  - vm_compute. discriminate.
  - reflexivity.
  - lia.
  - intros j Hj Hne. lia.
Defined.

(** X25 at work: a thread exits in the tick of its creation. *)
Lemma Exit_divides_by_zero_witness :
  Exit 2 no_interrupt 0 0 true 0 fresh_kernel = Abort DivisionByZero.
Proof.
  apply (Exit_divides_by_zero 2 no_interrupt 0 0 (sample_thread RUNNING (-1) 0 0)).
  - reflexivity.
  - vm_compute. reflexivity.
  - vm_compute. reflexivity.
Defined.
